(** * Academic-progress dashboard: schema resolution, normalisation, aggregation

    A shallow embedding of [modules/data_processor.py] and
    [modules/analytics.py].

    Modelling conventions.
    - A Python [str] is held as the bytes of its UTF-8 encoding ([string]).
      Equality, order, concatenation and the substring test of such texts
      are those of the byte strings.  [strip] removes the white space of
      Unicode; [lower] and [upper] are exact in the ASCII characters they
      produce, which is all that the comparisons with ASCII words and the
      regular expression of [normalize_header] can see.
    - A table cell is a [scalar]: text, an integer, a float or an empty cell
      (pandas [NaN]).  Float cells and every float the code computes (scores,
      means, percentages) are exact rationals: binary rounding is idealised
      away.  Scores are multiples of one half, so their sums are exact in
      binary floating point as well; a quotient or a rounded percentage is
      the code's to within the last decimal kept.
    - Cells are equal when they are the same value of the same kind; a
      column mixing the integer 1 and the float 1.0 is outside the fragment.
    - A pandas frame is a list of column labels (repetitions allowed, as in
      pandas) and a list of rows.
    - A Python [dict] is an association list in insertion order.
    - A function that pandas would stop with an exception, or that would leave
      the fragment described here, answers [None]. *)

From Stdlib Require Import String Ascii List ZArith QArith Qround Bool Lia Lqa.
From Stdlib Require Import Permutation Sorted DecimalString.
From Stdlib Require DecimalZ.
Import ListNotations.

Local Open Scope string_scope.
Local Open Scope list_scope.

(* ------------------------------------------------------------------ *)
(** ** Python text primitives *)

Module PyStr.

Definition code (c : ascii) : N := N_of_ascii c.

Definition is_upper (c : ascii) : bool := ((65 <=? code c) && (code c <=? 90))%N.
Definition is_lower (c : ascii) : bool := ((97 <=? code c) && (code c <=? 122))%N.
Definition is_digit (c : ascii) : bool := ((48 <=? code c) && (code c <=? 57))%N.

(** The two cases of an ASCII letter. *)
Definition lower_char (c : ascii) : ascii :=
  if is_upper c then ascii_of_N (code c + 32) else c.

Definition upper_char (c : ascii) : ascii :=
  if is_lower c then ascii_of_N (code c - 32) else c.

Fixpoint map_chars (f : ascii -> ascii) (s : string) : string :=
  match s with
  | EmptyString => EmptyString
  | String c t => String (f c) (map_chars f t)
  end.

(** [x in l] for a list of strings. *)
Definition mem (x : string) (l : list string) : bool :=
  existsb (String.eqb x) l.

(** The UTF-8 encoding of a code point. *)
Definition utf8 (cp : N) : string :=
  let byte n := ascii_of_N n in
  (if cp <? 0x80 then String (byte cp) ""
   else if cp <? 0x800 then
     String (byte (0xC0 + cp / 0x40)) (String (byte (0x80 + cp mod 0x40)) "")
   else if cp <? 0x10000 then
     String (byte (0xE0 + cp / 0x1000))
       (String (byte (0x80 + cp / 0x40 mod 0x40))
          (String (byte (0x80 + cp mod 0x40)) ""))
   else
     String (byte (0xF0 + cp / 0x40000))
       (String (byte (0x80 + cp / 0x1000 mod 0x40))
          (String (byte (0x80 + cp / 0x40 mod 0x40))
             (String (byte (0x80 + cp mod 0x40)) ""))))%N.

(** A continuation byte of UTF-8: 0x80-0xBF. *)
Definition is_cont (c : ascii) : bool := ((0x80 <=? code c) && (code c <=? 0xBF))%N.

Definition starts_cont (s : string) : bool :=
  match s with
  | String c _ => is_cont c
  | EmptyString => false
  end.

Definition push (b : ascii) (l : list string) : list string :=
  match l with
  | ch :: rest =>
      if starts_cont ch then String b ch :: rest
      else String b EmptyString :: ch :: rest
  | [] => [String b EmptyString]
  end.

(** The characters of a text: a character is a byte together with the
    continuation bytes that follow it. *)
Fixpoint chars (s : string) : list string :=
  match s with
  | EmptyString => []
  | String b t => push b (chars t)
  end.

Definition join (l : list string) : string := fold_right append EmptyString l.

(** The code points for which [str.isspace] holds, which are the ones
    [str.strip] removes: the ASCII controls 0x09-0x0D and 0x1C-0x1F, the
    space, NEL, the no-break space, the Ogham space mark, the spaces
    U+2000-U+200A, the line and paragraph separators, the narrow no-break
    space, the medium mathematical space and the ideographic space. *)
Definition space_points : list N :=
  [0x9; 0xA; 0xB; 0xC; 0xD; 0x1C; 0x1D; 0x1E; 0x1F; 0x20; 0x85; 0xA0; 0x1680;
   0x2000; 0x2001; 0x2002; 0x2003; 0x2004; 0x2005; 0x2006; 0x2007; 0x2008;
   0x2009; 0x200A; 0x2028; 0x2029; 0x202F; 0x205F; 0x3000]%N.

Definition space_chars : list string := Eval vm_compute in map utf8 space_points.

Definition is_space (ch : string) : bool := mem ch space_chars.

Definition encode (table : list (N * list N)) : list (string * list string) :=
  map (fun p => (utf8 (fst p), map utf8 (snd p))) table.

(** The characters outside ASCII whose lower-case form holds an ASCII
    character: the dotted capital I (i and a combining dot) and the Kelvin
    sign (k). *)
Definition lower_points : list (N * list N) :=
  [(0x130, [0x69; 0x307]); (0x212A, [0x6B])]%N.

(** The characters outside ASCII whose upper-case form holds an ASCII
    character: the sharp s, the dotless i, the long s, five letters that
    decompose into a capital and a mark, the n preceded by an apostrophe and
    the seven Latin ligatures. *)
Definition upper_points : list (N * list N) :=
  [(0xDF, [0x53; 0x53]); (0x131, [0x49]); (0x149, [0x2BC; 0x4E]);
   (0x17F, [0x53]); (0x1F0, [0x4A; 0x30C]); (0x1E96, [0x48; 0x331]);
   (0x1E97, [0x54; 0x308]); (0x1E98, [0x57; 0x30A]); (0x1E99, [0x59; 0x30A]);
   (0x1E9A, [0x41; 0x2BE]); (0xFB00, [0x46; 0x46]); (0xFB01, [0x46; 0x49]);
   (0xFB02, [0x46; 0x4C]); (0xFB03, [0x46; 0x46; 0x49]);
   (0xFB04, [0x46; 0x46; 0x4C]); (0xFB05, [0x53; 0x54]);
   (0xFB06, [0x53; 0x54])]%N.

Definition lower_special : list (string * list string) :=
  Eval vm_compute in encode lower_points.
Definition upper_special : list (string * list string) :=
  Eval vm_compute in encode upper_points.

(** The characters that one character becomes under a change of case: the
    entry of the table when it has one, else the character with its ASCII
    letter changed. *)
Definition cased (special : list (string * list string)) (f : ascii -> ascii)
                 (ch : string) : list string :=
  match find (fun p => String.eqb ch (fst p)) special with
  | Some p => snd p
  | None => [map_chars f ch]
  end.

(** [s.lower()] and [s.upper()], exact in every ASCII character of the
    result and in the place it has among the other characters.  A character
    outside ASCII that is not in the tables is kept as it is: Python may
    replace it by other characters outside ASCII, never by an ASCII one and
    never by white space. *)
Definition lower (s : string) : string :=
  join (flat_map (cased lower_special lower_char) (chars s)).
Definition upper (s : string) : string :=
  join (flat_map (cased upper_special upper_char) (chars s)).

Fixpoint lstrip_chars (l : list string) : list string :=
  match l with
  | [] => []
  | ch :: t => if is_space ch then lstrip_chars t else l
  end.

Fixpoint rstrip_chars (l : list string) : list string :=
  match l with
  | [] => []
  | ch :: t =>
      match rstrip_chars t with
      | [] => if is_space ch then [] else [ch]
      | r => ch :: r
      end
  end.

(** [s.strip()]: the white-space characters at both ends go. *)
Definition strip (s : string) : string :=
  join (rstrip_chars (lstrip_chars (chars s))).

Fixpoint filter_chars (keep : ascii -> bool) (s : string) : string :=
  match s with
  | EmptyString => EmptyString
  | String c t =>
      if keep c then String c (filter_chars keep t) else filter_chars keep t
  end.

Fixpoint startswith (p s : string) : bool :=
  match p, s with
  | EmptyString, _ => true
  | String a p', String b s' => Ascii.eqb a b && startswith p' s'
  | String _ _, EmptyString => false
  end.

(** [k in s] for two strings: [k] occurs in [s] as a substring. *)
Fixpoint contains (k s : string) : bool :=
  startswith k s ||
  match s with
  | EmptyString => false
  | String _ t => contains k t
  end.

(** Decimal text of an integer, as [str] prints it. *)
Definition Z_to_string (n : Z) : string :=
  NilZero.string_of_int (Z.to_int n).

Definition digit_char (d : Z) : ascii := ascii_of_N (48 + Z.to_N d).

(** Digits of [num / den] after the point, for [0 <= num < den]. *)
Fixpoint frac_digits (fuel : nat) (num den : Z) : string :=
  match fuel with
  | O => EmptyString
  | S fuel' =>
      let d := (num * 10 / den)%Z in
      let r := (num * 10 mod den)%Z in
      String (digit_char d)
             (if (r =? 0)%Z then EmptyString else frac_digits fuel' r den)
  end.

(** Text of a float.  A float cell is named by the decimal numeral Python
    prints for it (the shortest one that reads back as the same double), so
    printing renders that numeral: sign, integer part, a point and at least
    one digit.  This is the plain form Python uses for magnitudes from 1e-4
    up to 1e16; beyond that range Python prints an exponent. *)
Definition float_str (q : Q) : string :=
  let n := Qnum q in
  let d := Zpos (Qden q) in
  let a := Z.abs n in
  ((if (n <? 0)%Z then "-" else "") ++
   Z_to_string (a / d) ++ "." ++ frac_digits 17 (a mod d) d)%string.

End PyStr.

(* ------------------------------------------------------------------ *)
(** ** Python dictionaries *)

Module Dict.

Definition t (V : Type) : Type := list (string * V).

Fixpoint get {V} (k : string) (d : t V) : option V :=
  match d with
  | [] => None
  | (k', v) :: rest => if String.eqb k' k then Some v else get k rest
  end.

(** [d[k] = v]: an existing key keeps its place, a new one goes last. *)
Fixpoint set {V} (k : string) (v : V) (d : t V) : t V :=
  match d with
  | [] => [(k, v)]
  | (k', v') :: rest =>
      if String.eqb k' k then (k, v) :: rest else (k', v') :: set k v rest
  end.

Definition keys {V} (d : t V) : list string := map fst d.

End Dict.

(* ------------------------------------------------------------------ *)
(** ** Cells and frames *)

Inductive scalar : Type :=
  | SStr (s : string)      (* text *)
  | SInt (n : Z)           (* integer *)
  | SFloat (q : Q)         (* finite float *)
  | SInf (negative : bool) (* float infinity, as a quotient by zero gives it *)
  | SNaN.                  (* empty cell *)

(** [str(v)]. *)
Definition py_str (v : scalar) : string :=
  match v with
  | SStr s => s
  | SInt n => PyStr.Z_to_string n
  | SFloat q => PyStr.float_str q
  | SInf false => "inf"
  | SInf true => "-inf"
  | SNaN => "nan"
  end.

Definition notna (v : scalar) : bool :=
  match v with SNaN => false | _ => true end.

Definition Q_eqb (a b : Q) : bool :=
  (Qnum a =? Qnum b)%Z && (Qden a =? Qden b)%positive.

Definition scalar_eqb (a b : scalar) : bool :=
  match a, b with
  | SStr s, SStr t => String.eqb s t
  | SInt n, SInt m => (n =? m)%Z
  | SFloat p, SFloat q => Q_eqb p q
  | SInf a, SInf b => Bool.eqb a b
  | SNaN, SNaN => true
  | _, _ => false
  end.

Record DataFrame : Type := {
  columns : list string;
  rows : list (list scalar)
}.

(** Every row has one cell per column. *)
Definition well_formed (df : DataFrame) : Prop :=
  Forall (fun r => length r = length (columns df)) (rows df).

Definition well_formedb (df : DataFrame) : bool :=
  forallb (fun r => Nat.eqb (length r) (length (columns df))) (rows df).

(** [len(df)] and [df.empty]. *)
Definition df_len (df : DataFrame) : nat := length (rows df).

Definition df_empty (df : DataFrame) : bool :=
  Nat.eqb (length (rows df)) 0 || Nat.eqb (length (columns df)) 0.

(** [k in df.columns]. *)
Definition has_column (k : string) (df : DataFrame) : bool :=
  PyStr.mem k (columns df).

Fixpoint positions_from (i : nat) (k : string) (cols : list string) : list nat :=
  match cols with
  | [] => []
  | c :: rest =>
      if String.eqb c k then i :: positions_from (S i) k rest
      else positions_from (S i) k rest
  end.

(** Places of the columns labelled [k]. *)
Definition positions (k : string) (cols : list string) : list nat :=
  positions_from 0 k cols.

Definition cell (r : list scalar) (i : nat) : scalar := nth i r SNaN.

(** [df[k]] as a series: the label must name exactly one column (pandas
    raises [KeyError] for none and hands back a frame for several). *)
Definition df_getitem (df : DataFrame) (k : string) : option (list scalar) :=
  match positions k (columns df) with
  | [i] => Some (map (fun r => cell r i) (rows df))
  | _ => None
  end.

(** [df.rename(columns=d)]. *)
Definition rename_label (d : Dict.t string) (c : string) : string :=
  match Dict.get c d with
  | Some new => new
  | None => c
  end.

Definition df_rename (d : Dict.t string) (df : DataFrame) : DataFrame :=
  {| columns := map (rename_label d) (columns df); rows := rows df |}.

(** One row of [df[k] = ...]: every column labelled [k] takes the value; a
    new label adds a cell at the end. *)
Fixpoint put_cell (cols : list string) (k : string) (v : scalar)
                  (r : list scalar) : list scalar :=
  match cols, r with
  | c :: cs, x :: xs => (if String.eqb c k then v else x) :: put_cell cs k v xs
  | _, _ => r
  end.

Definition set_row (cols : list string) (k : string) (v : scalar)
                   (r : list scalar) : list scalar :=
  if PyStr.mem k cols then put_cell cols k v r else r ++ [v].

Definition set_columns (cols : list string) (k : string) : list string :=
  if PyStr.mem k cols then cols else cols ++ [k].

(** [df[k] = v] for a constant [v]. *)
Definition df_setitem_const (df : DataFrame) (k : string) (v : scalar) : DataFrame :=
  {| columns := set_columns (columns df) k;
     rows := map (set_row (columns df) k v) (rows df) |}.

(** [df[k] = series], the series holding one value per row. *)
Definition df_setitem (df : DataFrame) (k : string) (vals : list scalar) : DataFrame :=
  {| columns := set_columns (columns df) k;
     rows := map (fun rv => set_row (columns df) k (snd rv) (fst rv))
                 (combine (rows df) vals) |}.

(* ------------------------------------------------------------------ *)
(** ** modules/data_processor.py *)

Definition is_alnum (c : ascii) : bool :=
  PyStr.is_lower c || PyStr.is_upper c || PyStr.is_digit c.

(** [re.sub(r'[^a-zA-Z0-9]', '', str(header).lower())]. *)
Definition normalize_header (header : string) : string :=
  PyStr.filter_chars is_alnum (PyStr.lower header).

Definition campus_keywords : list string :=
  ["campus"; "location"; "center"; "branch"; "university"].
Definition inst_keywords : list string :=
  ["instructor"; "faculty"; "trainer"; "teacher"; "mentor"].
Definition subject_keywords : list string :=
  ["subject"; "course"; "module"].
Definition section_keywords : list string :=
  ["section"; "batch"; "group"; "class"; "hall"].
Definition status_keywords : list string :=
  ["status"; "progress"; "completion"; "state"; "remarks"].
Definition week_keywords : list string :=
  ["week"; "target"; "session"; "day"].

(** [any(k in norm for k in keywords)]. *)
Definition any_keyword (keywords : list string) (norm : string) : bool :=
  existsb (fun k => PyStr.contains k norm) keywords.

(** The test of the status loop: a keyword, and neither "expected" nor
    "target". *)
Definition status_test (norm : string) : bool :=
  any_keyword status_keywords norm
  && negb (PyStr.contains "expected" norm)
  && negb (PyStr.contains "target" norm).

(** [for col, norm in normalized_cols.items(): if test: ...; break]. *)
Fixpoint scan (test : string -> bool) (items : Dict.t string) : option string :=
  match items with
  | [] => None
  | (col, norm) :: rest => if test norm then Some col else scan test rest
  end.

(** [schema_map[role] = col] when the loop found a column. *)
Definition assign (role : string) (found : option string)
                  (schema_map : Dict.t (option string)) : Dict.t (option string) :=
  match found with
  | Some col => Dict.set role (Some col) schema_map
  | None => schema_map
  end.

(** [{c: normalize_header(c) for c in cols}]. *)
Definition normalized_cols (cols : list string) : Dict.t string :=
  fold_left (fun d c => Dict.set c (normalize_header c) d) cols [].

Definition auto_detect_schema (df : DataFrame) : Dict.t (option string) :=
  let cols := columns df in
  let normalized_cols := normalized_cols cols in
  let schema_map :=
    [("campus", None); ("instructor", None); ("subject", None);
     ("section", None); ("status", None); ("week", None)] in
  let schema_map :=
    assign "campus" (scan (any_keyword campus_keywords) normalized_cols) schema_map in
  let schema_map :=
    assign "instructor" (scan (any_keyword inst_keywords) normalized_cols) schema_map in
  let schema_map :=
    assign "subject" (scan (any_keyword subject_keywords) normalized_cols) schema_map in
  let schema_map :=
    assign "section" (scan (any_keyword section_keywords) normalized_cols) schema_map in
  let schema_map :=
    assign "status" (scan status_test normalized_cols) schema_map in
  let schema_map :=
    assign "week" (scan (any_keyword week_keywords) normalized_cols) schema_map in
  schema_map.

Definition done_words : list string :=
  ["done"; "completed"; "finished"; "yes"; "y"; "1"; "1.0"].
Definition progress_words : list string :=
  ["in progress"; "ongoing"; "started"; "wip"].

Definition get_score (status_val : scalar) : Q :=
  let s := PyStr.strip (PyStr.lower (py_str status_val)) in
  if PyStr.mem s done_words then 1
  else if PyStr.mem s progress_words then 1 # 2
  else 0.

Definition required_keys : list string :=
  ["CAMPUS"; "INSTRUCTOR"; "SUBJECT"; "SECTION"; "STATUS"; "WEEK"].

(** [{ v: k.upper() for k, v in schema_map.items() if v is not None }]. *)
Definition rename_dict (schema_map : Dict.t (option string)) : Dict.t string :=
  fold_left
    (fun d kv =>
       match snd kv with
       | Some v => Dict.set v (PyStr.upper (fst kv)) d
       | None => d
       end)
    schema_map [].

(** The loop over [required_keys]. *)
Definition fill_unknown (df : DataFrame) : DataFrame :=
  fold_left
    (fun d k => if has_column k d then d else df_setitem_const d k (SStr "Unknown"))
    required_keys df.

Definition normalize_data (df : DataFrame) (schema_map : Dict.t (option string))
  : option DataFrame :=
  let normalized_df := df_rename (rename_dict schema_map) df in
  let normalized_df := fill_unknown normalized_df in
  match df_getitem normalized_df "STATUS" with
  | Some status =>
      Some (df_setitem normalized_df "SCORE"
                       (map (fun v => SFloat (get_score v)) status))
  | None => None
  end.

(* ------------------------------------------------------------------ *)
(** ** pandas series operations used by the aggregator *)

Definition bind {A B} (x : option A) (k : A -> option B) : option B :=
  match x with
  | Some a => k a
  | None => None
  end.

Notation "x <- e ;; k" := (bind e (fun x => k))
  (at level 61, e at next level, right associativity).

Definition Q_ltb (a b : Q) : bool := negb (Qle_bool b a).

(** A cell read as a number; text and missing or infinite values are
    outside the fragment. *)
Definition as_number (v : scalar) : option Q :=
  match v with
  | SFloat q => Some q
  | SInt n => Some (inject_Z n)
  | _ => None
  end.

Fixpoint numbers (l : list scalar) : option (list Q) :=
  match l with
  | [] => Some []
  | v :: rest =>
      match as_number v, numbers rest with
      | Some q, Some qs => Some (q :: qs)
      | _, _ => None
      end
  end.

(** [series.sum()] and [series.mean()] (the latter on a series that is not
    empty: every call site is behind a [df.empty] test or inside a group). *)
Definition Qsum (l : list Q) : Q := fold_right Qplus 0 l.

Definition Qmean (l : list Q) : Q := Qsum l / inject_Z (Z.of_nat (length l)).

(** Rounding to the nearest integer, ties to even. *)
Definition round_half_even (q : Q) : Z :=
  let f := Qfloor q in
  let d := q - inject_Z f in
  if Q_ltb d (1 # 2) then f
  else if Q_ltb (1 # 2) d then (f + 1)%Z
  else if Z.even f then f else (f + 1)%Z.

(** [round(x, 1)] and [series.round(1)], on the exact value.  The code
    rounds the binary double that stands for it, which where the exact value
    lies half-way between two tenths (28.75) may be the other tenth. *)
Definition round1 (q : Q) : Q := Qred (inject_Z (round_half_even (q * 10)) / 10).

Section Lists.
Context {A : Type}.
Variable eqb : A -> A -> bool.
Variable leb : A -> A -> bool.

(** Distinct values in order of first appearance ([series.unique()]). *)
Fixpoint unique_from (seen : list A) (l : list A) : list A :=
  match l with
  | [] => []
  | x :: rest =>
      if existsb (eqb x) seen then unique_from seen rest
      else x :: unique_from (x :: seen) rest
  end.

Definition unique (l : list A) : list A := unique_from [] l.

Fixpoint insert_by (x : A) (l : list A) : list A :=
  match l with
  | [] => [x]
  | y :: rest => if leb x y then x :: l else y :: insert_by x rest
  end.

(** A stable sort: equal elements keep their order. *)
Definition sort_by (l : list A) : list A := fold_right insert_by [] l.
End Lists.

(** Order of group keys: numbers by value, then infinities, then text in
    byte order. *)
Definition type_rank (v : scalar) : nat :=
  match v with
  | SInt _ | SFloat _ => 0
  | SInf _ => 1
  | SStr _ => 2
  | SNaN => 3
  end.

Definition number_of (v : scalar) : Q :=
  match v with
  | SInt n => inject_Z n
  | SFloat q => q
  | SInf true => -1
  | _ => 0
  end.

Definition scalar_leb (a b : scalar) : bool :=
  match a, b with
  | SStr s, SStr t => String.leb s t
  | _, _ =>
      if Nat.eqb (type_rank a) (type_rank b)
      then Qle_bool (number_of a) (number_of b)
      else Nat.ltb (type_rank a) (type_rank b)
  end.

Definition pair_eqb (a b : scalar * scalar) : bool :=
  scalar_eqb (fst a) (fst b) && scalar_eqb (snd a) (snd b).

Definition pair_leb (a b : scalar * scalar) : bool :=
  if scalar_eqb (fst a) (fst b) then scalar_leb (snd a) (snd b)
  else scalar_leb (fst a) (fst b).

(** [series.nunique()]: distinct values, empty cells left out. *)
Definition nunique (col : list scalar) : nat :=
  length (unique scalar_eqb (filter notna col)).

(** Keys of [groupby(label)]: the distinct values that are not empty, sorted. *)
Definition group_keys (keys : list scalar) : list scalar :=
  sort_by scalar_leb (unique scalar_eqb (filter notna keys)).

(** Values of the rows whose key is [k]. *)
Definition select_by {A} (k : scalar) (keys : list scalar) (vals : list A) : list A :=
  map snd (filter (fun kv => scalar_eqb (fst kv) k) (combine keys vals)).

(** [df.groupby(label)['SCORE'].mean()]. *)
Definition groupby_mean (keys : list scalar) (scores : list Q) : list (scalar * Q) :=
  map (fun k => (k, Qmean (select_by k keys scores))) (group_keys keys).

(** [series[series < t].index.tolist()]. *)
Definition below (t : Q) (means : list (scalar * Q)) : list scalar :=
  map fst (filter (fun km => Q_ltb (snd km) t) means).

(** [series.value_counts()]: one count per distinct value that is not
    empty, larger counts first. *)
Definition value_counts (col : list scalar) : list (scalar * Z) :=
  sort_by (fun a b => Z.leb (snd b) (snd a))
    (map (fun k => (k, Z.of_nat (length (filter (scalar_eqb k) col))))
         (unique scalar_eqb (filter notna col))).

(** Float arithmetic on one value of a float series. *)
Definition float_div (s : Q) (n : Z) : scalar :=
  if (n =? 0)%Z
  then (if Qeq_bool s 0 then SNaN else SInf (Q_ltb s 0))
  else SFloat (s / inject_Z n).

Definition float_map (f : Q -> Q) (v : scalar) : scalar :=
  match v with
  | SFloat q => SFloat (f q)
  | _ => v
  end.

(** [v >= t] on a float; every comparison with [NaN] is false. *)
Definition float_ge (v : scalar) (t : Q) : bool :=
  match v with
  | SFloat q => Qle_bool t q
  | SInt n => Qle_bool t (inject_Z n)
  | SInf negative => negb negative
  | _ => false
  end.

(** Order of [sort_values]: ascending, empty values last. *)
Definition float_rank (v : scalar) : nat :=
  match v with
  | SInf true => 0
  | SInf false => 2
  | SNaN => 3
  | _ => 1
  end.

Definition float_leb (a b : scalar) : bool :=
  if Nat.eqb (float_rank a) (float_rank b)
  then Qle_bool (number_of a) (number_of b)
  else Nat.ltb (float_rank a) (float_rank b).

(** Values the functions hand back: numbers, text, cells, lists and
    dictionaries. *)
#[local] Unset Elimination Schemes.
Inductive pyval : Type :=
  | PInt (n : Z)
  | PFloat (q : Q)
  | PStr (s : string)
  | PCell (v : scalar)
  | PList (l : list pyval)
  | PDict (d : list (string * pyval))
  | PCounts (d : list (scalar * Z)).
#[local] Set Elimination Schemes.

(* ------------------------------------------------------------------ *)
(** ** modules/analytics.py *)

(** [df['SCORE']] as numbers. *)
Definition score_column (df : DataFrame) : option (list Q) :=
  col <- df_getitem df "SCORE" ;; numbers col.

Definition compute_kpis (df : DataFrame) : option (Dict.t pyval) :=
  if df_empty df then Some []
  else
    let total_records := df_len df in
    scores <- score_column df ;;
    let completed_score_sum := Qsum scores in
    let global_completion :=
      if Nat.ltb 0 total_records
      then completed_score_sum / inject_Z (Z.of_nat total_records) * 100
      else 0 in
    instructor <- df_getitem df "INSTRUCTOR" ;;
    let instructor_scores := groupby_mean instructor scores in
    let at_risk_count := length (below (1 # 2) instructor_scores) in
    campus <- df_getitem df "CAMPUS" ;;
    subject <- df_getitem df "SUBJECT" ;;
    Some [("num_campuses", PInt (Z.of_nat (nunique campus)));
          ("num_instructors", PInt (Z.of_nat (nunique instructor)));
          ("num_subjects", PInt (Z.of_nat (nunique subject)));
          ("global_completion", PFloat (round1 global_completion));
          ("at_risk_instructors", PInt (Z.of_nat at_risk_count))].

(** One row of the grouped table. *)
Record group_row : Type := {
  INSTRUCTOR : scalar;
  CAMPUS : scalar;
  Total_Items : Z;
  Completed_Score_Sum : Q;
  Completion_Pct : scalar;
  Status : string
}.

Definition label_status (pct : scalar) : string :=
  if float_ge pct 80 then "On Track ✅"
  else if float_ge pct 50 then "Delayed ⚠️"
  else "Critical 🔴".

(** Keys of [groupby(['INSTRUCTOR', 'CAMPUS'])]: the pairs met in rows
    where neither cell is empty, sorted. *)
Definition pair_keys (keys : list (scalar * scalar)) : list (scalar * scalar) :=
  sort_by pair_leb
    (unique pair_eqb (filter (fun k => notna (fst k) && notna (snd k)) keys)).

Definition select_pair {A} (k : scalar * scalar) (keys : list (scalar * scalar))
                       (vals : list A) : list A :=
  map snd (filter (fun kv => pair_eqb (fst kv) k) (combine keys vals)).

(** [.agg(Total_Items=('SUBJECT', 'count'), Completed_Score_Sum=('SCORE', 'sum'))]
    with [Completion_Pct] and [Status] added: [count] leaves empty cells out. *)
Definition make_group (keys : list (scalar * scalar)) (subject : list scalar)
                      (scores : list Q) (k : scalar * scalar) : group_row :=
  let total := Z.of_nat (length (filter notna (select_pair k keys subject))) in
  let sum := Qred (Qsum (select_pair k keys scores)) in
  let pct := float_map (fun q => q * 100) (float_div sum total) in
  let pct := float_map round1 pct in
  {| INSTRUCTOR := fst k; CAMPUS := snd k;
     Total_Items := total; Completed_Score_Sum := sum;
     Completion_Pct := pct; Status := label_status pct |}.

(** [sort_values(by='Completion_Pct', ascending=True)].  pandas leaves the
    order of equal percentages to its sorting routine; here they keep the
    order of the groups. *)
Definition sort_values (l : list group_row) : list group_row :=
  sort_by (fun a b => float_leb (Completion_Pct a) (Completion_Pct b)) l.

(** The rows of the result of [compute_instructor_performance] on a table
    that is not empty. *)
Definition performance_rows (df : DataFrame) : option (list group_row) :=
  instructor <- df_getitem df "INSTRUCTOR" ;;
  campus <- df_getitem df "CAMPUS" ;;
  subject <- df_getitem df "SUBJECT" ;;
  scores <- score_column df ;;
  let keys := combine instructor campus in
  let grouped := map (make_group keys subject scores) (pair_keys keys) in
  Some (sort_values grouped).

Definition performance_columns : list string :=
  ["INSTRUCTOR"; "CAMPUS"; "Total_Items"; "Completed_Score_Sum";
   "Completion_Pct"; "Status"].

Definition performance_frame (l : list group_row) : DataFrame :=
  {| columns := performance_columns;
     rows := map (fun g => [INSTRUCTOR g; CAMPUS g; SInt (Total_Items g);
                            SFloat (Completed_Score_Sum g); Completion_Pct g;
                            SStr (Status g)]) l |}.

Definition compute_instructor_performance (df : DataFrame) : option DataFrame :=
  if df_empty df then Some {| columns := []; rows := [] |}
  else option_map performance_frame (performance_rows df).

Definition cells (l : list scalar) : pyval := PList (map PCell l).

Definition compute_risk_factors (df : DataFrame) : option (Dict.t pyval) :=
  if df_empty df then Some [("campuses", PList []); ("instructors", PList [])]
  else
    campus <- df_getitem df "CAMPUS" ;;
    scores <- score_column df ;;
    let campus_scores := groupby_mean campus scores in
    let risky_campuses := below (6 # 10) campus_scores in
    instructor <- df_getitem df "INSTRUCTOR" ;;
    let inst_scores := groupby_mean instructor scores in
    let risky_instructors := below (1 # 2) inst_scores in
    Some [("campuses", cells risky_campuses);
          ("instructors", cells risky_instructors)].

(** Rows of [df[df['SCORE'] < 0.5]]. *)
Definition risk_rows (df : DataFrame) (scores : list Q) : list (list scalar) :=
  map fst (filter (fun rs => Q_ltb (snd rs) (1 # 2)) (combine (rows df) scores)).

(** [frame[labels]]: the places of the columns picked by a list of labels. *)
Definition select_positions (labels cols : list string) : list (string * nat) :=
  flat_map (fun k => map (fun i => (k, i)) (positions k cols)) labels.

(** One row of [.to_dict(orient='records')]. *)
Definition record_of (sel : list (string * nat)) (r : list scalar) : pyval :=
  PDict (fold_left (fun d ki => Dict.set (fst ki) (PCell (cell r (snd ki))) d) sel []).

Definition preferred_columns : list string :=
  ["INSTRUCTOR"; "CAMPUS"; "SUBJECT"; "SECTION"; "STATUS"].

Definition build_ai_summary (df : DataFrame) (context : string)
  : option (Dict.t pyval) :=
  if df_empty df
  then Some [("context", PStr context);
             ("error", PStr "No data available in current filter")]
  else
    let total_records := df_len df in
    scores <- score_column df ;;
    let avg_completion := Qmean scores * 100 in
    status <- df_getitem df "STATUS" ;;
    let status_dist := value_counts status in
    let risk_df := risk_rows df scores in
    let at_risk_items :=
      if Nat.eqb (length risk_df) 0 || Nat.eqb (length (columns df)) 0 then []
      else
        let cols_to_keep := filter (fun c => has_column c df) preferred_columns in
        map (record_of (select_positions cols_to_keep (columns df)))
            (firstn 5 risk_df) in
    instructor <- df_getitem df "INSTRUCTOR" ;;
    campus <- df_getitem df "CAMPUS" ;;
    let summary :=
      [("context", PStr context);
       ("total_records", PInt (Z.of_nat total_records));
       ("average_completion_pct", PFloat (round1 avg_completion));
       ("status_distribution", PCounts status_dist);
       ("at_risk_preview", PList at_risk_items);
       ("risk_count", PInt (Z.of_nat (length risk_df)));
       ("unique_instructors", PInt (Z.of_nat (nunique instructor)));
       ("unique_campuses", PInt (Z.of_nat (nunique campus)))] in
    if has_column "SECTION" df
    then section <- df_getitem df "SECTION" ;;
         Some (Dict.set "active_sections" (PInt (Z.of_nat (nunique section))) summary)
    else Some summary.

(** ** Canonical tables

    What the aggregator is given: each of the seven canonical labels names
    one column, and every SCORE cell is one of the three scores. *)
Definition canonical_names : list string := required_keys ++ ["SCORE"].

Definition is_score (v : scalar) : bool :=
  match v with
  | SFloat q => Q_eqb q 0 || Q_eqb q (1 # 2) || Q_eqb q 1
  | _ => false
  end.

Definition canonicalb (df : DataFrame) : bool :=
  well_formedb df
  && forallb (fun k => Nat.eqb (length (positions k (columns df))) 1) canonical_names
  && match df_getitem df "SCORE" with
     | Some col => forallb is_score col
     | None => false
     end.

Definition canonical (df : DataFrame) : Prop := canonicalb df = true.

(* ------------------------------------------------------------------ *)
(** ** Vocabulary of the statements *)

(** [k] occurs in [s] as a substring. *)
Definition occurs_in (k s : string) : Prop :=
  exists pre post, s = (pre ++ k ++ post)%string.

(** The normalised name of [col] holds one of the keywords. *)
Definition keyword_match (keywords : list string) (col : string) : Prop :=
  exists k, In k keywords /\ occurs_in k (normalize_header col).

(** A candidate for the status role: a status keyword, and neither
    "expected" nor "target". *)
Definition status_match (col : string) : Prop :=
  keyword_match status_keywords col
  /\ ~ occurs_in "expected" (normalize_header col)
  /\ ~ occurs_in "target" (normalize_header col).

(** [r] is the first column of [cols] with property [P], or unset when no
    column has it. *)
Definition first_column (P : string -> Prop) (cols : list string)
                        (r : option string) : Prop :=
  match r with
  | Some c =>
      exists pre post, cols = pre ++ c :: post /\ P c /\ forall c', In c' pre -> ~ P c'
  | None => forall c, In c cols -> ~ P c
  end.

Definition role_names : list string :=
  ["campus"; "instructor"; "subject"; "section"; "status"; "week"].

(** The mapping in which no role is set. *)
Definition all_unset : Dict.t (option string) :=
  map (fun r => (r, None)) role_names.

(** Column labels after the renaming step of [normalize_data]. *)
Definition renamed_columns (df : DataFrame) (schema_map : Dict.t (option string))
  : list string :=
  map (rename_label (rename_dict schema_map)) (columns df).

(** The canonical names that [normalize_data] has to add to the labels
    [cols]. *)
Definition added_keys (cols : list string) (ks : list string) : list string :=
  filter (fun k => negb (PyStr.mem k cols)) ks.

(** Column labels after the loop over [required_keys]. *)
Definition filled_columns (df : DataFrame) (schema_map : Dict.t (option string))
  : list string :=
  renamed_columns df schema_map
  ++ added_keys (renamed_columns df schema_map) required_keys.

(** The role that the mapping lists last among those set to column [x]. *)
Definition last_role (schema_map : Dict.t (option string)) (x : string)
  : option string :=
  fold_left
    (fun acc kv =>
       match snd kv with
       | Some v => if String.eqb v x then Some (fst kv) else acc
       | None => acc
       end)
    schema_map None.

(** The percentage as the specification words it: the sum of the scores
    of the rows of a group over the number of those rows, times 100, rounded
    to one decimal. *)
Definition row_count_pct (keys : list (scalar * scalar)) (scores : list Q)
                         (k : scalar * scalar) : Q :=
  let group := select_pair k keys scores in
  round1 (Qsum group / inject_Z (Z.of_nat (length group)) * 100).

(** A column that holds "Unknown" in each of [n] rows. *)
Definition unknown_column (n : nat) : list scalar := repeat (SStr "Unknown") n.

(** A result that is empty or holds nothing but zeros and empty parts. *)
Fixpoint blank (v : pyval) : bool :=
  match v with
  | PInt n => (n =? 0)%Z
  | PFloat q => Qeq_bool q 0
  | PStr s => String.eqb s ""
  | PCell _ => false
  | PList l => forallb blank l
  | PDict d => forallb (fun kv => blank (snd kv)) d
  | PCounts d => Nat.eqb (length d) 0
  end.

(* ------------------------------------------------------------------ *)
(** ** Tables used as examples *)

Definition headers_only (cols : list string) : DataFrame :=
  {| columns := cols; rows := [] |}.

Definition six_headers : DataFrame :=
  headers_only ["Center"; "Trainer Name"; "Module"; "Batch No";
                "Current State"; "Week No"].

Definition status_then_expected : DataFrame :=
  headers_only ["Status"; "Expected Progress"].

Definition expected_then_status : DataFrame :=
  headers_only ["Expected Progress"; "Status"].

(** A raw sheet with a blank subject cell and a blank status cell. *)
Definition sample_raw : DataFrame :=
  {| columns := ["Trainer"; "Center"; "Module"; "State"];
     rows := [[SStr "A"; SStr "X"; SStr "M1"; SStr "done"];
              [SStr "A"; SStr "X"; SStr "M2"; SStr "Done"];
              [SStr "B"; SStr "X"; SStr "M1"; SStr "wip"];
              [SStr "B"; SStr "Y"; SStr "M2"; SStr "pending"];
              [SStr "C"; SStr "Y"; SStr "M2"; SNaN];
              [SStr "C"; SStr "Y"; SStr "M3"; SInt 1]] |}.

(** The table [normalize_data] makes of it. *)
Definition sample_table : DataFrame :=
  {| columns := ["INSTRUCTOR"; "CAMPUS"; "SUBJECT"; "STATUS"; "SECTION"; "WEEK";
                 "SCORE"];
     rows := [[SStr "A"; SStr "X"; SStr "M1"; SStr "done";
               SStr "Unknown"; SStr "Unknown"; SFloat 1];
              [SStr "A"; SStr "X"; SStr "M2"; SStr "Done";
               SStr "Unknown"; SStr "Unknown"; SFloat 1];
              [SStr "B"; SStr "X"; SStr "M1"; SStr "wip";
               SStr "Unknown"; SStr "Unknown"; SFloat (1 # 2)];
              [SStr "B"; SStr "Y"; SStr "M2"; SStr "pending";
               SStr "Unknown"; SStr "Unknown"; SFloat 0];
              [SStr "C"; SStr "Y"; SStr "M2"; SNaN;
               SStr "Unknown"; SStr "Unknown"; SFloat 0];
              [SStr "C"; SStr "Y"; SStr "M3"; SInt 1;
               SStr "Unknown"; SStr "Unknown"; SFloat 1]] |}.

(** A raw sheet that already has a column named CAMPUS. *)
Definition campus_sheet : DataFrame :=
  {| columns := ["CAMPUS"; "Notes"];
     rows := [[SStr "Pune"; SStr "ok"]] |}.

(** A raw sheet in which one column serves two roles and another already
    bears a canonical name. *)
Definition course_status_sheet : DataFrame :=
  {| columns := ["Course Status"; "SUBJECT"];
     rows := [[SStr "done"; SStr "Maths"]] |}.

(** A raw sheet in which one column serves two roles. *)
Definition shared_column_sheet : DataFrame :=
  {| columns := ["Course Status"; "Trainer"];
     rows := [[SStr "done"; SStr "A"]; [SStr "pending"; SStr "B"]] |}.

(** A raw sheet in which renaming meets a column already named STATUS. *)
Definition progress_status_sheet : DataFrame :=
  {| columns := ["Progress"; "STATUS"];
     rows := [[SStr "done"; SStr "open"]] |}.

(** A canonical table with campuses of mean score 0.59 (A), 0.61 (B) and
    0.5 (C) and instructors of mean score 0.6 (P), 0.49 (I) and 0.51 (J). *)
Definition risk_row (instructor campus status : string) (score : Q) : list scalar :=
  [SStr instructor; SStr campus; SStr "Algebra"; SStr "S1"; SStr status;
   SInt 1; SFloat score].

Definition risk_block (instructor campus : string) (done half none : nat)
  : list (list scalar) :=
  repeat (risk_row instructor campus "done" 1) done
  ++ repeat (risk_row instructor campus "wip" (1 # 2)) half
  ++ repeat (risk_row instructor campus "pending" 0) none.

Definition risk_table : DataFrame :=
  {| columns := ["INSTRUCTOR"; "CAMPUS"; "SUBJECT"; "SECTION"; "STATUS"; "WEEK";
                 "SCORE"];
     rows := risk_block "P" "A" 29 1 20 ++ risk_block "P" "B" 30 1 19
             ++ risk_block "I" "C" 24 1 25 ++ risk_block "J" "C" 25 1 24 |}.

(** A canonical table without rows. *)
Definition no_rows : DataFrame :=
  headers_only ["CAMPUS"; "INSTRUCTOR"; "SUBJECT"; "SECTION"; "STATUS"; "WEEK";
                "SCORE"].

(** A raw sheet in which one row of a group has a blank subject cell, and
    the table [normalize_data] makes of it. *)
Definition blank_subject_sheet : DataFrame :=
  {| columns := ["Trainer"; "Center"; "Module"; "State"];
     rows := [[SStr "A"; SStr "X"; SStr "Algebra"; SStr "done"];
              [SStr "A"; SStr "X"; SNaN; SStr "done"];
              [SStr "B"; SStr "Y"; SStr "Algebra"; SStr "pending"]] |}.

Definition blank_subject_table : DataFrame :=
  {| columns := ["INSTRUCTOR"; "CAMPUS"; "SUBJECT"; "STATUS"; "SECTION"; "WEEK";
                 "SCORE"];
     rows := [[SStr "A"; SStr "X"; SStr "Algebra"; SStr "done";
               SStr "Unknown"; SStr "Unknown"; SFloat 1];
              [SStr "A"; SStr "X"; SNaN; SStr "done";
               SStr "Unknown"; SStr "Unknown"; SFloat 1];
              [SStr "B"; SStr "Y"; SStr "Algebra"; SStr "pending";
               SStr "Unknown"; SStr "Unknown"; SFloat 0]] |}.

(* ------------------------------------------------------------------ *)
(** ** app.py: the sidebar filters and the context of the assistant *)

(** [series.astype(str).isin(selected)]. *)
Definition isin_str (selected : list string) (col : list scalar) : list bool :=
  map (fun v => PyStr.mem (py_str v) selected) col.

(** [df[mask]]: the rows whose mask is true, in order. *)
Definition df_mask (df : DataFrame) (mask : list bool) : DataFrame :=
  {| columns := columns df;
     rows := map fst (filter snd (combine (rows df) mask)) |}.

(** [if selected: df = df[df[label].astype(str).isin(selected)]]: an empty
    selection is false and leaves the table as it is. *)
Definition filter_by (label : string) (selected : list string) (df : DataFrame)
  : option DataFrame :=
  match selected with
  | [] => Some df
  | _ :: _ =>
      col <- df_getitem df label ;;
      Some (df_mask df (isin_str selected col))
  end.

(** The two filters of the sidebar, campus first. *)
Definition apply_filters (df : DataFrame)
                         (selected_campuses selected_instructors : list string)
  : option DataFrame :=
  df_filtered <- filter_by "CAMPUS" selected_campuses df ;;
  filter_by "INSTRUCTOR" selected_instructors df_filtered.

(** [sorted(df[label].unique().astype(str))], the options of a selector and
    its default selection. *)
Definition options (label : string) (df : DataFrame) : option (list string) :=
  col <- df_getitem df label ;;
  Some (sort_by String.leb (map py_str (unique scalar_eqb col))).

(** The context label handed to [build_ai_summary]. *)
Definition detect_context (selected_campuses selected_instructors : list string)
  : string :=
  let is_single_instructor := Nat.eqb (length selected_instructors) 1 in
  if is_single_instructor then "instructor"
  else if negb (Nat.eqb (length selected_campuses) 0)
          && Nat.eqb (length selected_campuses) 1
          && Nat.ltb 1 (length selected_instructors)
       then "campus"
       else "overall".

(* ------------------------------------------------------------------ *)
(** ** modules/ai_mapper.py: the instruction chosen by [generate_analysis] *)

Definition context_prompts : Dict.t string :=
  [("campus", "Focus on campus-wide performance, hall-wise distribution, and identifying lagging subjects/instructors within this campus.");
   ("instructor", "Focus on this instructor's syllabus progress, theory vs practice balance, and specific delayed items.");
   ("course", "Analyze the performance of this subject across all campuses. Compare completion rates between sections.");
   ("overall", "Provide a high-level executive summary of the entire university. Highlight top-performing and lowest-performing areas.")].

(** [d.get(k, default)]. *)
Definition get_default {V} (k : string) (default : V) (d : Dict.t V) : V :=
  match Dict.get k d with
  | Some v => v
  | None => default
  end.

(** [summary_json.get("context", "overall")]. *)
Definition summary_context (summary_json : Dict.t pyval) : pyval :=
  get_default "context" (PStr "overall") summary_json.

(** [context_prompts.get(context, context_prompts["overall"])]. *)
Definition specific_instruction (context : string) : string :=
  get_default context
    (get_default "overall" "" context_prompts) context_prompts.

(* ------------------------------------------------------------------ *)
(** ** Further vocabulary *)

(** Every character of [s] passes [p]. *)
Fixpoint all_chars (p : ascii -> bool) (s : string) : bool :=
  match s with
  | EmptyString => true
  | String c t => p c && all_chars p t
  end.

Definition key_char (c : ascii) : bool := PyStr.is_lower c || PyStr.is_digit c.

(** Bytes and texts of the ASCII range. *)
Definition ascii_byte (c : ascii) : bool := (PyStr.code c <? 0x80)%N.

Definition ascii_text (s : string) : bool := all_chars ascii_byte s.

(** A byte followed by continuation bytes only, and one that is a whole
    character: its first byte is not a continuation byte. *)
Definition char_shape (ch : string) : bool :=
  match ch with
  | String _ t => all_chars PyStr.is_cont t
  | EmptyString => false
  end.

Definition is_char (ch : string) : bool :=
  char_shape ch && negb (PyStr.starts_cont ch).

(** The lists that [PyStr.chars] produces: whole characters after the
    first place. *)
Definition chars_ok (l : list string) : bool :=
  match l with
  | [] => true
  | ch :: rest => char_shape ch && forallb is_char rest
  end.

Definition not_space (ch : string) : bool := negb (PyStr.is_space ch).

Definition no_upper (c : ascii) : bool := negb (PyStr.is_upper c).
Definition no_lower (c : ascii) : bool := negb (PyStr.is_lower c).

(** Every special character of a table takes two bytes or more. *)
Definition long_keys (special : list (string * list string)) : bool :=
  forallb (fun p => match fst p with String _ (String _ _) => true | _ => false end)
          special.

(** The lower-case form of one character. *)
Definition lower_ch : string -> list string :=
  PyStr.cased PyStr.lower_special PyStr.lower_char.

(** All keywords of the six roles. *)
Definition all_keywords : list string :=
  campus_keywords ++ inst_keywords ++ subject_keywords ++ section_keywords
  ++ status_keywords ++ week_keywords.

Definition group_key (g : group_row) : scalar * scalar := (INSTRUCTOR g, CAMPUS g).

(** Characters of the text of an integer: digits and the sign. *)
Definition number_char (c : ascii) : bool :=
  PyStr.is_digit c || Ascii.eqb c "-".

(** A raw sheet in which no header is recognised. *)
Definition unrecognised_sheet : DataFrame :=
  {| columns := ["Notes"; "Row ID"];
     rows := [[SStr "done"; SInt 1]; [SStr "late"; SInt 2]] |}.

(** A canonical table in which no row of a group names a subject. *)
Definition no_subject_table : DataFrame :=
  {| columns := ["INSTRUCTOR"; "CAMPUS"; "SUBJECT"; "STATUS"; "SECTION"; "WEEK";
                 "SCORE"];
     rows := [[SStr "A"; SStr "X"; SNaN; SStr "done";
               SStr "Unknown"; SStr "Unknown"; SFloat 1];
              [SStr "B"; SStr "Y"; SNaN; SStr "pending";
               SStr "Unknown"; SStr "Unknown"; SFloat 0]] |}.

(** The test of one sidebar filter on one cell: an empty selection lets
    every row through. *)
Definition selected (selection : list string) (v : scalar) : bool :=
  match selection with
  | [] => true
  | _ :: _ => PyStr.mem (py_str v) selection
  end.

(** The rows of [df] that pass [keep], under the same labels. *)
Definition keep_rows (keep : list scalar -> bool) (df : DataFrame) : DataFrame :=
  {| columns := columns df; rows := filter keep (rows df) |}.

(** Number of cells of [col] equal to [k]. *)
Definition count_of (k : scalar) (col : list scalar) : nat :=
  length (filter (scalar_eqb k) col).

Definition Zsum (l : list Z) : Z := fold_right Z.add 0%Z l.

(* ------------------------------------------------------------------ *)
(** * Text primitives *)

Lemma mem_In (x : string) (l : list string) : PyStr.mem x l = true <-> In x l.
Proof.
  unfold PyStr.mem. rewrite existsb_exists. split.
  - intros (y & Hy & E). apply String.eqb_eq in E. now subst.
  - intros H. exists x. split; [assumption | apply String.eqb_refl].
Qed.

Lemma append_empty_r (s : string) : (s ++ "")%string = s.
Proof. induction s as [| c t IH]; cbn; [reflexivity | now rewrite IH]. Qed.

Lemma append_assoc (a b c : string) : ((a ++ b) ++ c = a ++ (b ++ c))%string.
Proof. induction a as [| x a IH]; cbn; [reflexivity | now rewrite IH]. Qed.

Lemma join_cons (x : string) (l : list string) :
  PyStr.join (x :: l) = (x ++ PyStr.join l)%string.
Proof. reflexivity. Qed.

Lemma join_app (l m : list string) :
  PyStr.join (l ++ m) = (PyStr.join l ++ PyStr.join m)%string.
Proof.
  induction l as [| x l IH]; [reflexivity |].
  cbn [app]. now rewrite !join_cons, IH, append_assoc.
Qed.

Lemma join_push (b : ascii) (l : list string) :
  PyStr.join (PyStr.push b l) = String b (PyStr.join l).
Proof.
  destruct l as [| ch rest]; [reflexivity |].
  unfold PyStr.push. destruct (PyStr.starts_cont ch); reflexivity.
Qed.

Lemma join_chars (s : string) : PyStr.join (PyStr.chars s) = s.
Proof.
  induction s as [| b t IH]; [reflexivity |].
  cbn [PyStr.chars]. now rewrite join_push, IH.
Qed.

Lemma chars_head (s : string) :
  match PyStr.chars s with
  | ch :: _ => PyStr.starts_cont ch = PyStr.starts_cont s
  | [] => s = ""%string
  end.
Proof.
  destruct s as [| b t]; [reflexivity |]. cbn [PyStr.chars].
  destruct (PyStr.chars t) as [| ch rest]; [reflexivity |].
  unfold PyStr.push. destruct (PyStr.starts_cont ch); reflexivity.
Qed.

Lemma is_char_shape (ch : string) : is_char ch = true -> char_shape ch = true.
Proof. unfold is_char. now intros H%andb_prop. Qed.

Lemma all_is_char_ok (l : list string) :
  forallb is_char l = true -> chars_ok l = true.
Proof.
  destruct l as [| ch rest]; [reflexivity |].
  unfold chars_ok. cbn [forallb].
  intros (H1 & H2)%andb_prop. now rewrite (is_char_shape _ H1), H2.
Qed.

Lemma chars_ok_push (b : ascii) (l : list string) :
  chars_ok l = true -> chars_ok (PyStr.push b l) = true.
Proof.
  destruct l as [| ch rest]; [reflexivity |].
  unfold chars_ok, PyStr.push.
  intros (H1 & H2)%andb_prop.
  destruct (PyStr.starts_cont ch) eqn:S; cbn [forallb].
  - rewrite H2, andb_true_r. destruct ch as [| c t]; [discriminate |].
    cbn [char_shape all_chars PyStr.starts_cont] in *. now rewrite S, H1.
  - unfold is_char at 1. rewrite H1, S, H2. reflexivity.
Qed.

Lemma chars_ok_chars (s : string) : chars_ok (PyStr.chars s) = true.
Proof.
  induction s as [| b t IH]; cbn; [reflexivity |]. now apply chars_ok_push.
Qed.

(** A byte before text that starts a character is a character of its own. *)
Lemma chars_cons (c : ascii) (s : string) :
  PyStr.starts_cont s = false ->
  PyStr.chars (String c s) = String c "" :: PyStr.chars s.
Proof.
  intros H. cbn [PyStr.chars]. pose proof (chars_head s) as Hh.
  destruct (PyStr.chars s) as [| ch rest]; [reflexivity |].
  unfold PyStr.push. now rewrite Hh, H.
Qed.

Lemma chars_conts (t s : string) :
  all_chars PyStr.is_cont t = true -> PyStr.starts_cont s = false ->
  PyStr.chars (t ++ s) =
  match t with
  | EmptyString => PyStr.chars s
  | _ => t :: PyStr.chars s
  end.
Proof.
  intros Ht Hs. induction t as [| c t IH]; [reflexivity |].
  cbn [all_chars] in Ht. apply andb_prop in Ht. destruct Ht as (Hc & Ht).
  specialize (IH Ht). destruct t as [| d t].
  - cbn [append]. now rewrite chars_cons.
  - cbn [append PyStr.chars] in IH |- *. rewrite IH.
    cbn [all_chars] in Ht. apply andb_prop in Ht. destruct Ht as (Hd & _).
    unfold PyStr.push, PyStr.starts_cont. now rewrite Hd.
Qed.

(** A character before text that starts a character stays one character. *)
Lemma chars_char (ch s : string) :
  char_shape ch = true -> PyStr.starts_cont s = false ->
  PyStr.chars (ch ++ s) = ch :: PyStr.chars s.
Proof.
  intros Hch Hs. destruct ch as [| b t]; [discriminate |].
  cbn [char_shape] in Hch.
  pose proof (chars_conts _ _ Hch Hs) as E. destruct t as [| d t].
  - cbn [append]. now rewrite chars_cons.
  - cbn [append PyStr.chars] in E |- *. rewrite E.
    cbn [all_chars] in Hch. apply andb_prop in Hch. destruct Hch as (Hd & _).
    unfold PyStr.push, PyStr.starts_cont. now rewrite Hd.
Qed.

Lemma join_starts (l : list string) :
  forallb is_char l = true -> PyStr.starts_cont (PyStr.join l) = false.
Proof.
  destruct l as [| ch rest]; [reflexivity |]. cbn [forallb].
  intros (H & _)%andb_prop. unfold is_char in H.
  apply andb_prop in H. destruct H as (Hs & Hn).
  destruct ch as [| b t]; [discriminate |]. rewrite join_cons.
  cbn [append PyStr.starts_cont] in *. now apply negb_true_iff in Hn.
Qed.

Lemma chars_join_all (l : list string) :
  forallb is_char l = true -> PyStr.chars (PyStr.join l) = l.
Proof.
  induction l as [| ch rest IH]; [reflexivity |].
  intros H. cbn [forallb] in H. apply andb_prop in H. destruct H as (H1 & H2).
  rewrite join_cons.
  rewrite chars_char; [now rewrite IH | now apply is_char_shape | now apply join_starts].
Qed.

(** Splitting into characters undoes joining them. *)
Lemma chars_join (l : list string) :
  chars_ok l = true -> PyStr.chars (PyStr.join l) = l.
Proof.
  destruct l as [| ch rest]; [reflexivity |].
  intros H. unfold chars_ok in H. apply andb_prop in H. destruct H as (H1 & H2).
  rewrite join_cons.
  rewrite chars_char; [now rewrite chars_join_all | assumption | now apply join_starts].
Qed.

Lemma chars_app (a b : string) :
  PyStr.starts_cont b = false ->
  PyStr.chars (a ++ b) = PyStr.chars a ++ PyStr.chars b.
Proof.
  intros Hb. induction a as [| c a IH]; [reflexivity |].
  cbn [append PyStr.chars]. rewrite IH.
  pose proof (chars_head a) as Ha.
  destruct (PyStr.chars a) as [| ch rest].
  - cbn [app]. change (PyStr.push c (PyStr.chars b)) with (PyStr.chars (String c b)).
    now rewrite chars_cons.
  - unfold PyStr.push. cbn [app]. destruct (PyStr.starts_cont ch); reflexivity.
Qed.

Lemma lower_char_cont (c : ascii) :
  PyStr.is_cont (PyStr.lower_char c) = PyStr.is_cont c.
Proof. destruct c as [[] [] [] [] [] [] [] []]; reflexivity. Qed.

Lemma lower_char_no_upper (c : ascii) : no_upper (PyStr.lower_char c) = true.
Proof. destruct c as [[] [] [] [] [] [] [] []]; reflexivity. Qed.

Lemma lower_char_fixed (c : ascii) :
  no_lower (PyStr.lower_char c) = true -> PyStr.lower_char c = c.
Proof. destruct c as [[] [] [] [] [] [] [] []]; intros H; try reflexivity; discriminate H. Qed.

Lemma map_lower_fixed (s : string) :
  all_chars no_lower (PyStr.map_chars PyStr.lower_char s) = true ->
  PyStr.map_chars PyStr.lower_char s = s.
Proof.
  induction s as [| c t IH]; [reflexivity |]. cbn [PyStr.map_chars all_chars].
  intros (H1 & H2)%andb_prop. now rewrite (lower_char_fixed _ H1), (IH H2).
Qed.

Lemma map_lower_shape (ch : string) :
  char_shape (PyStr.map_chars PyStr.lower_char ch) = char_shape ch.
Proof.
  destruct ch as [| b t]; [reflexivity |]. cbn [PyStr.map_chars char_shape].
  induction t as [| c t IH]; [reflexivity |]. cbn [PyStr.map_chars all_chars].
  now rewrite lower_char_cont, IH.
Qed.

Lemma map_lower_is_char (ch : string) :
  is_char (PyStr.map_chars PyStr.lower_char ch) = is_char ch.
Proof.
  unfold is_char. rewrite map_lower_shape. f_equal.
  destruct ch as [| b t]; [reflexivity |]. cbn [PyStr.map_chars PyStr.starts_cont].
  now rewrite lower_char_cont.
Qed.

(** The entry of a table of special characters that [cased] applies. *)
Lemma cased_cases (special : list (string * list string)) (f : ascii -> ascii)
                  (ch : string) :
  (exists out, In (ch, out) special /\ PyStr.cased special f ch = out)
  \/ ((forall out, ~ In (ch, out) special)
      /\ PyStr.cased special f ch = [PyStr.map_chars f ch]).
Proof.
  unfold PyStr.cased.
  destruct (find _ special) as [[k out] |] eqn:F.
  - left. apply find_some in F. destruct F as (Hin & E).
    cbn [fst] in E. apply String.eqb_eq in E. subst k. now exists out.
  - right. split; [| reflexivity]. intros out Hin.
    pose proof (find_none _ _ F _ Hin) as E. cbn [fst] in E.
    now rewrite String.eqb_refl in E.
Qed.

Lemma cased_single (special : list (string * list string)) (f : ascii -> ascii)
                   (c : ascii) :
  long_keys special = true ->
  PyStr.cased special f (String c "") = [String (f c) ""].
Proof.
  intros H. destruct (cased_cases special f (String c "")) as [(out & Hin & _) | (_ & E)];
    [| exact E].
  unfold long_keys in H. rewrite forallb_forall in H.
  specialize (H _ Hin). discriminate H.
Qed.

Lemma ascii_not_cont (c : ascii) : ascii_byte c = true -> PyStr.is_cont c = false.
Proof.
  unfold ascii_byte, PyStr.is_cont. intros H%N.ltb_lt.
  apply andb_false_iff. left. apply N.leb_gt. exact H.
Qed.

Lemma ascii_starts (s : string) : ascii_text s = true -> PyStr.starts_cont s = false.
Proof.
  destruct s as [| c t]; [reflexivity |]. unfold ascii_text. cbn [all_chars].
  intros (H & _)%andb_prop. now apply ascii_not_cont.
Qed.

Lemma cased_cons (special : list (string * list string)) (f : ascii -> ascii)
                 (c : ascii) (t : string) :
  long_keys special = true -> PyStr.starts_cont t = false ->
  PyStr.join (flat_map (PyStr.cased special f) (PyStr.chars (String c t))) =
  String (f c) (PyStr.join (flat_map (PyStr.cased special f) (PyStr.chars t))).
Proof.
  intros Hk Ht. rewrite (chars_cons _ _ Ht). cbn [flat_map].
  rewrite (cased_single _ _ _ Hk). reflexivity.
Qed.

Lemma cased_ascii (special : list (string * list string)) (f : ascii -> ascii)
                  (s : string) :
  long_keys special = true -> ascii_text s = true ->
  PyStr.join (flat_map (PyStr.cased special f) (PyStr.chars s)) = PyStr.map_chars f s.
Proof.
  intros Hk. induction s as [| c t IH]; [reflexivity |].
  unfold ascii_text. cbn [all_chars]. intros (Hc & Ht)%andb_prop.
  rewrite cased_cons; [| assumption | now apply ascii_starts].
  cbn [PyStr.map_chars]. now rewrite (IH Ht).
Qed.

(** On ASCII text [lower] and [upper] work byte by byte. *)
Lemma lower_ascii (s : string) :
  ascii_text s = true -> PyStr.lower s = PyStr.map_chars PyStr.lower_char s.
Proof. now apply cased_ascii. Qed.

Lemma upper_ascii (s : string) :
  ascii_text s = true -> PyStr.upper s = PyStr.map_chars PyStr.upper_char s.
Proof. now apply cased_ascii. Qed.

Lemma lower_special_In (ch : string) (out : list string) :
  In (ch, out) PyStr.lower_special ->
  forallb is_char out = true /\ forallb not_space out = true
  /\ out <> [] /\ PyStr.is_space ch = false
  /\ forallb (all_chars no_upper) out = true
  /\ flat_map lower_ch out = out.
Proof.
  intros H. cbn in H.
  repeat (destruct H as [[= <- <-] | H]; [repeat split; discriminate || reflexivity |]).
  destruct H.
Qed.

Lemma lower_special_keys (ch : string) (out : list string) :
  In (ch, out) PyStr.lower_special ->
  all_chars no_lower ch = true /\ PyStr.is_space ch = false.
Proof.
  intros H. cbn in H.
  repeat (destruct H as [[= <- <-] | H]; [split; reflexivity |]).
  destruct H.
Qed.

Lemma lower_ch_is_char (ch : string) :
  is_char ch = true -> forallb is_char (lower_ch ch) = true.
Proof.
  intros H. destruct (cased_cases PyStr.lower_special PyStr.lower_char ch)
    as [(out & Hin & E) | (_ & E)]; unfold lower_ch; rewrite E.
  - apply (lower_special_In _ _ Hin).
  - cbn [forallb]. now rewrite map_lower_is_char, H.
Qed.

Lemma lower_ch_ok (ch : string) :
  char_shape ch = true -> chars_ok (lower_ch ch) = true /\ lower_ch ch <> [].
Proof.
  intros H. destruct (cased_cases PyStr.lower_special PyStr.lower_char ch)
    as [(out & Hin & E) | (_ & E)]; unfold lower_ch; rewrite E.
  - split; [apply all_is_char_ok |]; apply (lower_special_In _ _ Hin).
  - split; [| discriminate]. unfold chars_ok. cbn [forallb].
    now rewrite map_lower_shape, H.
Qed.

Lemma flat_lower_is_char (l : list string) :
  forallb is_char l = true -> forallb is_char (flat_map lower_ch l) = true.
Proof.
  induction l as [| ch rest IH]; [reflexivity |]. cbn [forallb flat_map].
  intros (H1 & H2)%andb_prop. rewrite forallb_app, (lower_ch_is_char _ H1).
  now apply IH.
Qed.

Lemma flat_lower_ok (l : list string) :
  chars_ok l = true -> chars_ok (flat_map lower_ch l) = true.
Proof.
  destruct l as [| ch rest]; [reflexivity |]. unfold chars_ok at 1.
  intros (H1 & H2)%andb_prop. cbn [flat_map].
  destruct (lower_ch_ok _ H1) as (Hok & Hne).
  destruct (lower_ch ch) as [| x r]; [now contradiction Hne |].
  unfold chars_ok in Hok |- *. apply andb_prop in Hok. destruct Hok as (Hx & Hr).
  cbn [app]. rewrite Hx, forallb_app, Hr. now apply flat_lower_is_char.
Qed.

(** The characters of the lower-cased text are the lower-cased characters. *)
Lemma chars_lower (s : string) :
  PyStr.chars (PyStr.lower s) = flat_map lower_ch (PyStr.chars s).
Proof.
  unfold PyStr.lower. apply chars_join, flat_lower_ok, chars_ok_chars.
Qed.


Lemma space_no_lower (ch : string) :
  PyStr.is_space ch = true ->
  all_chars no_lower ch = true /\ lower_ch ch = [ch]
  /\ PyStr.map_chars PyStr.lower_char ch = ch.
Proof.
  unfold PyStr.is_space. rewrite mem_In. intros H. cbn in H.
  repeat (destruct H as [<- | H]; [repeat split; reflexivity |]). destruct H.
Qed.

Lemma map_lower_space (ch : string) :
  PyStr.is_space (PyStr.map_chars PyStr.lower_char ch) = PyStr.is_space ch.
Proof.
  destruct (PyStr.is_space (PyStr.map_chars PyStr.lower_char ch)) eqn:E.
  - destruct (space_no_lower _ E) as (H & _).
    rewrite (map_lower_fixed _ H) in E. now rewrite E.
  - destruct (PyStr.is_space ch) eqn:E'; [| reflexivity].
    destruct (space_no_lower _ E') as (_ & _ & F).
    rewrite F, E' in E. discriminate E.
Qed.

Lemma lower_ch_not_space (ch : string) :
  PyStr.is_space ch = false ->
  forallb not_space (lower_ch ch) = true /\ lower_ch ch <> [].
Proof.
  intros H. destruct (cased_cases PyStr.lower_special PyStr.lower_char ch)
    as [(out & Hin & E) | (_ & E)]; unfold lower_ch; rewrite E.
  - split; apply (lower_special_In _ _ Hin).
  - split; [| discriminate]. cbn [forallb]. unfold not_space.
    now rewrite map_lower_space, H.
Qed.

Lemma lstrip_not_space (l : list string) :
  match l with
  | ch :: _ => PyStr.is_space ch = false
  | [] => True
  end -> PyStr.lstrip_chars l = l.
Proof.
  destruct l as [| ch rest]; [reflexivity |]. cbn [PyStr.lstrip_chars].
  now intros ->.
Qed.

Lemma rstrip_not_space (l : list string) :
  forallb not_space l = true -> PyStr.rstrip_chars l = l.
Proof.
  induction l as [| ch rest IH]; [reflexivity |]. cbn [forallb PyStr.rstrip_chars].
  intros (H1 & H2)%andb_prop. rewrite (IH H2).
  unfold not_space in H1. apply negb_true_iff in H1. rewrite H1.
  now destruct rest.
Qed.

Lemma rstrip_app (a b : list string) :
  PyStr.rstrip_chars (a ++ b) =
  match PyStr.rstrip_chars b with
  | [] => PyStr.rstrip_chars a
  | r => a ++ r
  end.
Proof.
  induction a as [| x a IH]; cbn [app PyStr.rstrip_chars].
  - now destruct (PyStr.rstrip_chars b).
  - rewrite IH. destruct (PyStr.rstrip_chars b) as [| y r]; [reflexivity |].
    destruct a; reflexivity.
Qed.

Lemma lstrip_lower (l : list string) :
  PyStr.lstrip_chars (flat_map lower_ch l) = flat_map lower_ch (PyStr.lstrip_chars l).
Proof.
  induction l as [| ch rest IH]; [reflexivity |]. cbn [flat_map PyStr.lstrip_chars].
  destruct (PyStr.is_space ch) eqn:S.
  - destruct (space_no_lower _ S) as (_ & -> & _). cbn [app PyStr.lstrip_chars].
    now rewrite S.
  - cbn [flat_map]. destruct (lower_ch_not_space _ S) as (Hn & Hne).
    destruct (lower_ch ch) as [| x r]; [now contradiction Hne |].
    cbn [forallb] in Hn. apply andb_prop in Hn. destruct Hn as (Hx & _).
    unfold not_space in Hx. apply negb_true_iff in Hx.
    cbn [app PyStr.lstrip_chars]. now rewrite Hx.
Qed.

Lemma rstrip_lower (l : list string) :
  PyStr.rstrip_chars (flat_map lower_ch l) = flat_map lower_ch (PyStr.rstrip_chars l).
Proof.
  induction l as [| ch rest IH]; [reflexivity |]. cbn [flat_map PyStr.rstrip_chars].
  rewrite rstrip_app, IH.
  destruct (PyStr.rstrip_chars rest) as [| y r] eqn:R.
  - cbn [flat_map]. destruct (PyStr.is_space ch) eqn:S.
    + destruct (space_no_lower _ S) as (_ & -> & _). cbn [PyStr.rstrip_chars].
      now rewrite S.
    + destruct (lower_ch_not_space _ S) as (Hn & _).
      rewrite (rstrip_not_space _ Hn). cbn [flat_map]. now rewrite app_nil_r.
  - assert (Hy : flat_map lower_ch (y :: r) <> []).
    { cbn [flat_map]. intros E. apply app_eq_nil in E. destruct E as (E & _).
      destruct (PyStr.is_space y) eqn:S.
      - destruct (space_no_lower _ S) as (_ & E' & _). rewrite E' in E. discriminate E.
      - now destruct (lower_ch_not_space _ S) as (_ & Hne). }
    destruct (flat_map lower_ch (y :: r)) as [| z w] eqn:F; [now contradiction Hy |].
    change (flat_map lower_ch (ch :: y :: r))
      with (lower_ch ch ++ flat_map lower_ch (y :: r)).
    now rewrite F.
Qed.

Lemma lstrip_is_char (l : list string) :
  chars_ok l = true -> chars_ok (PyStr.lstrip_chars l) = true.
Proof.
  destruct l as [| ch rest]; [reflexivity |]. intros H. cbn [PyStr.lstrip_chars].
  destruct (PyStr.is_space ch); [| exact H].
  unfold chars_ok in H. apply andb_prop in H. destruct H as (_ & H).
  apply all_is_char_ok. induction rest as [| x r IH]; [reflexivity |].
  cbn [PyStr.lstrip_chars]. destruct (PyStr.is_space x); [| exact H].
  cbn [forallb] in H. apply andb_prop in H. now apply IH.
Qed.

Lemma rstrip_is_char (l : list string) :
  forallb is_char l = true -> forallb is_char (PyStr.rstrip_chars l) = true.
Proof.
  induction l as [| ch rest IH]; [reflexivity |]. cbn [forallb PyStr.rstrip_chars].
  intros (H1 & H2)%andb_prop. specialize (IH H2).
  destruct (PyStr.rstrip_chars rest) as [| y r].
  - destruct (PyStr.is_space ch); [reflexivity |]. cbn [forallb]. now rewrite H1.
  - cbn [forallb] in IH |- *. now rewrite H1, IH.
Qed.

Lemma rstrip_ok (l : list string) :
  chars_ok l = true -> chars_ok (PyStr.rstrip_chars l) = true.
Proof.
  destruct l as [| ch rest]; [reflexivity |]. unfold chars_ok at 1.
  intros (H1 & H2)%andb_prop. cbn [PyStr.rstrip_chars].
  pose proof (rstrip_is_char _ H2) as H.
  destruct (PyStr.rstrip_chars rest) as [| y r].
  - destruct (PyStr.is_space ch); [reflexivity |]. unfold chars_ok. cbn [forallb].
    now rewrite H1.
  - unfold chars_ok. now rewrite H1, H.
Qed.

(** The characters of the trimmed text. *)
Lemma chars_strip (s : string) :
  PyStr.chars (PyStr.strip s) = PyStr.rstrip_chars (PyStr.lstrip_chars (PyStr.chars s)).
Proof.
  unfold PyStr.strip. apply chars_join, rstrip_ok, lstrip_is_char, chars_ok_chars.
Qed.

(** Trimming and lower-casing commute: the code lower-cases first, the
    specification trims first. *)
Lemma lower_strip (s : string) :
  PyStr.lower (PyStr.strip s) = PyStr.strip (PyStr.lower s).
Proof.
  unfold PyStr.lower at 1. rewrite chars_strip.
  unfold PyStr.strip at 1. rewrite chars_lower.
  fold lower_ch. now rewrite lstrip_lower, rstrip_lower.
Qed.

(** Text without white space is its own trimmed form. *)
Lemma strip_not_space (s : string) :
  forallb not_space (PyStr.chars s) = true -> PyStr.strip s = s.
Proof.
  intros H. unfold PyStr.strip. rewrite lstrip_not_space.
  - now rewrite (rstrip_not_space _ H), join_chars.
  - destruct (PyStr.chars s) as [| ch rest]; [exact I |].
    cbn [forallb] in H. apply andb_prop in H. destruct H as (H & _).
    now apply negb_true_iff in H.
Qed.

Lemma chars_ascii (s : string) :
  ascii_text s = true ->
  PyStr.chars s = map (fun c => String c "") (list_ascii_of_string s).
Proof.
  induction s as [| c t IH]; [reflexivity |]. unfold ascii_text. cbn [all_chars].
  intros (Hc & Ht)%andb_prop. rewrite chars_cons by now apply ascii_starts.
  cbn [list_ascii_of_string map]. now rewrite (IH Ht).
Qed.

Lemma startswith_spec (p s : string) :
  PyStr.startswith p s = true <-> exists t, s = (p ++ t)%string.
Proof.
  revert s. induction p as [| a p IH]; intros s; cbn.
  - split; [intros _; now exists s | reflexivity].
  - destruct s as [| b s].
    + split; [discriminate | intros (t & E); discriminate].
    + rewrite andb_true_iff, Ascii.eqb_eq, IH. split.
      * intros (-> & t & ->). now exists t.
      * intros (t & E). injection E as -> ->. split; [reflexivity | now exists t].
Qed.

Lemma contains_spec (k s : string) :
  PyStr.contains k s = true <-> occurs_in k s.
Proof.
  unfold occurs_in. induction s as [| a s IH]; cbn [PyStr.contains].
  - rewrite orb_false_r, startswith_spec. split.
    + intros (t & E). now exists ""%string, t.
    + intros (pre & post & E). destruct pre; [| discriminate].
      now exists post.
  - rewrite orb_true_iff, startswith_spec, IH. split.
    + intros [(t & E) | (pre & post & E)].
      * now exists ""%string, t.
      * exists (String a pre), post. cbn. now rewrite E.
    + intros (pre & post & E). destruct pre as [| b pre].
      * left. now exists post.
      * right. cbn in E. injection E as _ E. now exists pre, post.
Qed.

Lemma contains_false (k s : string) :
  PyStr.contains k s = false <-> ~ occurs_in k s.
Proof.
  rewrite <- contains_spec. destruct (PyStr.contains k s); split; intros H;
    try reflexivity; try discriminate; try (intros E; discriminate).
  now contradiction H.
Qed.

(* ------------------------------------------------------------------ *)
(** * Scores *)

Lemma get_score_cases (v : scalar) :
  let s := PyStr.strip (PyStr.lower (py_str v)) in
  (PyStr.mem s done_words = true /\ get_score v = 1)
  \/ (PyStr.mem s done_words = false /\ PyStr.mem s progress_words = true
      /\ get_score v = 1 # 2)
  \/ (PyStr.mem s done_words = false /\ PyStr.mem s progress_words = false
      /\ get_score v = 0).
Proof.
  unfold get_score. cbv zeta.
  destruct (PyStr.mem _ done_words); [now left | right].
  destruct (PyStr.mem _ progress_words); [now left | now right].
Qed.

Lemma done_not_progress (s : string) :
  In s done_words -> ~ In s progress_words.
Proof.
  intros Hd Hp. cbn in Hd, Hp.
  repeat (destruct Hd as [<- | Hd]);
    repeat (destruct Hp as [Hp | Hp]; try discriminate Hp); assumption.
Qed.

(** C1.  For every status value the score is one of 0.0, 0.5 and 1.0 and
    is fixed by the trimmed, lower-cased text of the value: 1.0 on the
    seven completion words, 0.5 on the four progress words, 0.0 on anything
    else; [get_score] is total, so no value raises. *)
Theorem get_score_classification (v : scalar) :
  let form := PyStr.lower (PyStr.strip (py_str v)) in
  (get_score v = 0 \/ get_score v = 1 # 2 \/ get_score v = 1)
  /\ (In form ["done"; "completed"; "finished"; "yes"; "y"; "1"; "1.0"]
      -> get_score v = 1)
  /\ (In form ["in progress"; "ongoing"; "started"; "wip"]
      -> get_score v = 1 # 2)
  /\ (~ In form ["done"; "completed"; "finished"; "yes"; "y"; "1"; "1.0"]
      -> ~ In form ["in progress"; "ongoing"; "started"; "wip"]
      -> get_score v = 0)
  /\ (forall w : scalar,
        PyStr.lower (PyStr.strip (py_str w)) = form -> get_score w = get_score v).
Proof.
  cbv zeta. rewrite lower_strip.
  change ["done"; "completed"; "finished"; "yes"; "y"; "1"; "1.0"] with done_words.
  change ["in progress"; "ongoing"; "started"; "wip"] with progress_words.
  repeat split.
  - destruct (get_score_cases v) as [(_ & E) | [(_ & _ & E) | (_ & _ & E)]]; auto.
  - intros H. apply mem_In in H. unfold get_score. now rewrite H.
  - intros H. unfold get_score.
    destruct (PyStr.mem _ done_words) eqn:D.
    + apply mem_In in D. contradiction (done_not_progress _ D H).
    + apply mem_In in H. now rewrite H.
  - intros Nd Np. unfold get_score.
    destruct (PyStr.mem _ done_words) eqn:D; [apply mem_In in D; contradiction |].
    destruct (PyStr.mem _ progress_words) eqn:P; [apply mem_In in P; contradiction |].
    reflexivity.
  - intros w E. rewrite lower_strip in E. unfold get_score. now rewrite E.
Qed.

Lemma get_score_classification_witness :
  get_score (SStr "  In Progress ") = 1 # 2
  /\ get_score (SStr (PyStr.utf8 0xA0 ++ "Done" ++ PyStr.utf8 0x3000)) = 1
  /\ get_score (SFloat 1) = 1
  /\ get_score (SInt 1) = 1
  /\ get_score (SFloat (1 # 2)) = 0
  /\ get_score SNaN = 0
  /\ get_score (SStr "") = 0.
Proof.
  assert (Hdone : forall v,
            In (PyStr.lower (PyStr.strip (py_str v)))
               ["done"; "completed"; "finished"; "yes"; "y"; "1"; "1.0"] ->
            get_score v = 1)
    by (intros v; apply (get_score_classification v)).
  assert (Hother : forall v,
            ~ In (PyStr.lower (PyStr.strip (py_str v)))
                 ["done"; "completed"; "finished"; "yes"; "y"; "1"; "1.0"] ->
            ~ In (PyStr.lower (PyStr.strip (py_str v)))
                 ["in progress"; "ongoing"; "started"; "wip"] ->
            get_score v = 0)
    by (intros v; apply (get_score_classification v)).
  split; [| split; [| split; [| split; [| split; [| split]]]]].
  - destruct (get_score_classification (SStr "  In Progress "))
      as (_ & _ & Hprogress & _).
    apply Hprogress. vm_compute. left. reflexivity.
  - apply Hdone. vm_compute. left. reflexivity.
  - apply Hdone. vm_compute. do 6 right. left. reflexivity.
  - apply Hdone. vm_compute. do 5 right. left. reflexivity.
  - apply Hother; vm_compute; intuition discriminate.
  - apply Hother; vm_compute; intuition discriminate.
  - apply Hother; vm_compute; intuition discriminate.
Defined.

(* ------------------------------------------------------------------ *)
(** * Dictionaries *)

Lemma dict_get_set_same {V} (k : string) (v : V) (d : Dict.t V) :
  Dict.get k (Dict.set k v d) = Some v.
Proof.
  induction d as [| [k' v'] d IH]; cbn.
  - now rewrite String.eqb_refl.
  - destruct (String.eqb k' k) eqn:E; cbn.
    + now rewrite String.eqb_refl.
    + now rewrite E.
Qed.

Lemma dict_get_set_other {V} (k k0 : string) (v : V) (d : Dict.t V) :
  k <> k0 -> Dict.get k0 (Dict.set k v d) = Dict.get k0 d.
Proof.
  intros N. induction d as [| [k' v'] d IH]; cbn.
  - destruct (String.eqb k k0) eqn:E; [apply String.eqb_eq in E; contradiction | reflexivity].
  - destruct (String.eqb k' k) eqn:E; cbn.
    + apply String.eqb_eq in E. subst k'.
      destruct (String.eqb k k0) eqn:E0; [apply String.eqb_eq in E0; contradiction | reflexivity].
    + destruct (String.eqb k' k0); [reflexivity | exact IH].
Qed.

(** Writing a key again with the value it has changes nothing; a new key
    goes to the end. *)
Lemma dict_set_known {V} (k : string) (v : V) (d : Dict.t V) :
  Dict.get k d = Some v -> Dict.set k v d = d.
Proof.
  induction d as [| [k' v'] d IH]; cbn; [discriminate |].
  destruct (String.eqb k' k) eqn:E.
  - intros [= ->]. apply String.eqb_eq in E. now subst.
  - intros H. now rewrite IH.
Qed.

Lemma dict_set_new {V} (k : string) (v : V) (d : Dict.t V) :
  Dict.get k d = None -> Dict.set k v d = d ++ [(k, v)].
Proof.
  induction d as [| [k' v'] d IH]; cbn; [reflexivity |].
  destruct (String.eqb k' k); [discriminate |].
  intros H. now rewrite IH.
Qed.

(* ------------------------------------------------------------------ *)
(** * Schema resolution *)

Lemma any_keyword_spec (keywords : list string) (col : string) :
  any_keyword keywords (normalize_header col) = true <-> keyword_match keywords col.
Proof.
  unfold any_keyword, keyword_match. rewrite existsb_exists.
  split; intros (k & Hk & H); exists k; (split; [assumption |]);
    now apply contains_spec.
Qed.

Lemma status_test_spec (col : string) :
  status_test (normalize_header col) = true <-> status_match col.
Proof.
  unfold status_test, status_match.
  rewrite !andb_true_iff, !negb_true_iff, any_keyword_spec, !contains_false.
  tauto.
Qed.

Lemma scan_app (test : string -> bool) (d e : Dict.t string) :
  scan test (d ++ e) =
  match scan test d with
  | Some c => Some c
  | None => scan test e
  end.
Proof.
  induction d as [| [col norm] d IH]; cbn; [reflexivity |].
  destruct (test norm); [reflexivity | exact IH].
Qed.

Lemma scan_none_get (test : string -> bool) (d : Dict.t string) (c norm : string) :
  scan test d = None -> Dict.get c d = Some norm -> test norm = false.
Proof.
  induction d as [| [col n] d IH]; cbn; [discriminate |].
  destruct (test n) eqn:T; [discriminate |].
  destruct (String.eqb col c); [intros _ [= <-]; exact T | exact IH].
Qed.

(** Scanning the dictionary of normalised names is scanning the column
    list itself: a repeated label keeps its first place and its value. *)
Lemma scan_fold (test : string -> bool) (cols : list string) (d : Dict.t string) :
  (forall c norm, Dict.get c d = Some norm -> norm = normalize_header c) ->
  scan test (fold_left (fun d c => Dict.set c (normalize_header c) d) cols d) =
  match scan test d with
  | Some c => Some c
  | None => find (fun c => test (normalize_header c)) cols
  end.
Proof.
  revert d. induction cols as [| c cols IH]; intros d Hd; cbn [fold_left find].
  - now destruct (scan test d).
  - rewrite IH.
    + destruct (Dict.get c d) as [norm |] eqn:G.
      * pose proof (Hd _ _ G) as ->. rewrite (dict_set_known _ _ _ G).
        destruct (scan test d) eqn:S; [reflexivity |].
        now rewrite (scan_none_get _ _ _ _ S G).
      * rewrite (dict_set_new _ _ _ G), scan_app.
        destruct (scan test d); [reflexivity |]. cbn.
        now destruct (test (normalize_header c)).
    + intros c0 norm. destruct (String.eqb c c0) eqn:E.
      * apply String.eqb_eq in E. subst c0. rewrite dict_get_set_same.
        now intros [= <-].
      * rewrite dict_get_set_other; [apply Hd |].
        intros ->. now rewrite String.eqb_refl in E.
Qed.

Lemma scan_normalized_cols (test : string -> bool) (cols : list string) :
  scan test (normalized_cols cols) = find (fun c => test (normalize_header c)) cols.
Proof.
  unfold normalized_cols. rewrite scan_fold; [reflexivity |]. discriminate.
Qed.

(** What the six loops leave in the mapping. *)
Lemma auto_detect_schema_eq (df : DataFrame) :
  auto_detect_schema df =
  let pick test := find (fun c => test (normalize_header c)) (columns df) in
  [("campus", pick (any_keyword campus_keywords));
   ("instructor", pick (any_keyword inst_keywords));
   ("subject", pick (any_keyword subject_keywords));
   ("section", pick (any_keyword section_keywords));
   ("status", pick status_test);
   ("week", pick (any_keyword week_keywords))].
Proof.
  unfold auto_detect_schema. cbv zeta. rewrite !scan_normalized_cols.
  destruct (find (fun c => any_keyword campus_keywords _) _);
  destruct (find (fun c => any_keyword inst_keywords _) _);
  destruct (find (fun c => any_keyword subject_keywords _) _);
  destruct (find (fun c => any_keyword section_keywords _) _);
  destruct (find (fun c => status_test _) _);
  destruct (find (fun c => any_keyword week_keywords _) _); reflexivity.
Qed.

Lemma find_first_column (f : string -> bool) (P : string -> Prop) (cols : list string) :
  (forall c, f c = true <-> P c) -> first_column P cols (find f cols).
Proof.
  intros HP. induction cols as [| c cols IH]; cbn.
  - intros c [].
  - destruct (f c) eqn:F.
    + exists [], cols. repeat split; [now apply HP | intros c' []].
    + assert (N : ~ P c) by (rewrite <- HP, F; discriminate).
      destruct (find f cols) as [x |]; cbn in IH |- *.
      * destruct IH as (pre & post & -> & Px & Hpre).
        exists (c :: pre), post. repeat split; [assumption |].
        intros c' [<- | H]; [assumption | now apply Hpre].
      * intros c' [<- | H]; [assumption | now apply IH].
Qed.

(** C3.  Each role takes the first column, in the order of the table,
    whose normalised name holds one of its keywords, and stays unset when
    there is none; for the status role the columns whose normalised name holds
    "expected" or "target" are passed over.  The six example headers
    resolve as the specification lists them. *)
Theorem auto_detect_schema_first_match (df : DataFrame) :
  (exists campus instructor subject section status week,
     auto_detect_schema df =
       [("campus", campus); ("instructor", instructor); ("subject", subject);
        ("section", section); ("status", status); ("week", week)]
     /\ first_column (keyword_match campus_keywords) (columns df) campus
     /\ first_column (keyword_match inst_keywords) (columns df) instructor
     /\ first_column (keyword_match subject_keywords) (columns df) subject
     /\ first_column (keyword_match section_keywords) (columns df) section
     /\ first_column status_match (columns df) status
     /\ first_column (keyword_match week_keywords) (columns df) week)
  /\ (columns df = ["Center"; "Trainer Name"; "Module"; "Batch No";
                    "Current State"; "Week No"] ->
      auto_detect_schema df =
        [("campus", Some "Center"); ("instructor", Some "Trainer Name");
         ("subject", Some "Module"); ("section", Some "Batch No");
         ("status", Some "Current State"); ("week", Some "Week No")]).
Proof.
  split.
  - rewrite auto_detect_schema_eq. cbv zeta.
    do 6 eexists. split; [reflexivity |].
    repeat split; apply find_first_column; intros c;
      first [apply any_keyword_spec | apply status_test_spec].
  - intros E. rewrite auto_detect_schema_eq, E. reflexivity.
Qed.

Lemma auto_detect_schema_first_match_witness :
  auto_detect_schema six_headers =
    [("campus", Some "Center"); ("instructor", Some "Trainer Name");
     ("subject", Some "Module"); ("section", Some "Batch No");
     ("status", Some "Current State"); ("week", Some "Week No")].
Proof.
  apply (proj2 (auto_detect_schema_first_match six_headers)). reflexivity.
Defined.

(** The status role does not take the first column that holds a status
    keyword when that column also holds "expected". *)
Lemma status_skips_first_keyword_column :
  exists status,
    Dict.get "status" (auto_detect_schema expected_then_status) = Some status
    /\ ~ first_column (keyword_match status_keywords)
                      (columns expected_then_status) status.
Proof.
  exists (Some "Status"). split; [reflexivity |].
  intros (pre & post & E & _ & Hpre).
  destruct pre as [| c pre]; [discriminate E |].
  injection E as <- _.
  apply (Hpre "Expected Progress"); [now left |].
  apply any_keyword_spec. reflexivity.
Qed.

(** C4.  The status role never takes a column whose normalised name holds
    "expected" or "target", whatever keywords the name holds besides; with
    the headers Status and Expected Progress, in either order, it takes
    Status. *)
Theorem status_role_exclusion (df : DataFrame) :
  (forall c, Dict.get "status" (auto_detect_schema df) = Some (Some c) ->
     In c (columns df)
     /\ ~ occurs_in "expected" (normalize_header c)
     /\ ~ occurs_in "target" (normalize_header c))
  /\ (columns df = ["Status"; "Expected Progress"] ->
      Dict.get "status" (auto_detect_schema df) = Some (Some "Status"))
  /\ (columns df = ["Expected Progress"; "Status"] ->
      Dict.get "status" (auto_detect_schema df) = Some (Some "Status")).
Proof.
  rewrite auto_detect_schema_eq. cbv zeta. cbn [Dict.get String.eqb Ascii.eqb Bool.eqb].
  split; [intros c H | split; intros H].
  - injection H as H. apply find_some in H. destruct H as (Hin & H).
    apply status_test_spec in H. split; [exact Hin | apply H].
  - rewrite H. reflexivity.
  - rewrite H. reflexivity.
Qed.

Lemma status_role_exclusion_witness :
  Dict.get "status" (auto_detect_schema status_then_expected) = Some (Some "Status")
  /\ ~ occurs_in "expected" (normalize_header "Status").
Proof.
  destruct (status_role_exclusion status_then_expected) as (Hgen & Hex & _).
  split.
  - apply Hex. reflexivity.
  - apply (Hgen "Status"). apply Hex. reflexivity.
Defined.

(* ------------------------------------------------------------------ *)
(** * Lists: sorting and distinct values *)

Section ListFacts.
Context {A : Type}.
Variable leb : A -> A -> bool.

Lemma insert_by_perm (x : A) (l : list A) :
  Permutation (insert_by leb x l) (x :: l).
Proof.
  induction l as [| y l IH]; cbn; [reflexivity |].
  destruct (leb x y); [reflexivity |].
  rewrite IH. apply perm_swap.
Qed.

Lemma sort_by_perm (l : list A) : Permutation (sort_by leb l) l.
Proof.
  induction l as [| x l IH]; cbn; [reflexivity |].
  rewrite insert_by_perm. now constructor.
Qed.

Lemma sort_by_In (x : A) (l : list A) : In x (sort_by leb l) <-> In x l.
Proof.
  split; apply Permutation_in;
    [apply sort_by_perm | symmetry; apply sort_by_perm].
Qed.

Lemma sort_by_NoDup (l : list A) : NoDup l -> NoDup (sort_by leb l).
Proof.
  apply Permutation_NoDup. symmetry. apply sort_by_perm.
Qed.

Lemma sort_by_length (l : list A) : length (sort_by leb l) = length l.
Proof.
  apply Permutation_length, sort_by_perm.
Qed.

Hypothesis leb_total : forall a b, leb a b = true \/ leb b a = true.
Hypothesis leb_trans : forall a b c, leb a b = true -> leb b c = true -> leb a c = true.

Lemma insert_by_sorted (x : A) (l : list A) :
  StronglySorted (fun a b => leb a b = true) l ->
  StronglySorted (fun a b => leb a b = true) (insert_by leb x l).
Proof.
  induction 1 as [| y l Hs IH Hy]; cbn.
  - constructor; constructor.
  - destruct (leb x y) eqn:E.
    + constructor; [now constructor |].
      constructor; [assumption |].
      eapply Forall_impl; [| exact Hy]. intros b. now apply leb_trans.
    + constructor; [assumption |].
      assert (Hyx : leb y x = true) by (destruct (leb_total x y); congruence).
      eapply Permutation_Forall; [symmetry; apply insert_by_perm |].
      now constructor.
Qed.

Lemma sort_by_sorted (l : list A) :
  StronglySorted (fun a b => leb a b = true) (sort_by leb l).
Proof.
  induction l as [| x l IH]; cbn; [constructor | now apply insert_by_sorted].
Qed.
End ListFacts.

(* ------------------------------------------------------------------ *)
(** * Status labels *)

Lemma Q_ltb_lt (a b : Q) : Q_ltb a b = true <-> a < b.
Proof.
  unfold Q_ltb. rewrite negb_true_iff. split.
  - intros H. apply Qnot_le_lt. intros L. apply Qle_bool_iff in L. congruence.
  - intros H. destruct (Qle_bool b a) eqn:E; [| reflexivity].
    apply Qle_bool_iff in E. now apply Qlt_not_le in H.
Qed.

Lemma Qle_bool_false (a b : Q) : Qle_bool a b = false <-> b < a.
Proof.
  rewrite <- Q_ltb_lt. unfold Q_ltb. now rewrite negb_true_iff.
Qed.

Lemma label_status_float (q : Q) :
  (80 <= q -> label_status (SFloat q) = "On Track ✅")
  /\ (50 <= q -> q < 80 -> label_status (SFloat q) = "Delayed ⚠️")
  /\ (q < 50 -> label_status (SFloat q) = "Critical 🔴").
Proof.
  unfold label_status. cbn [float_ge]. repeat split.
  - intros H. apply Qle_bool_iff in H. now rewrite H.
  - intros H50 H80. apply Qle_bool_false in H80. apply Qle_bool_iff in H50.
    now rewrite H80, H50.
  - intros H. assert (H80 : q < 80) by (eapply Qlt_trans; [exact H | reflexivity]).
    apply Qle_bool_false in H, H80. now rewrite H80, H.
Qed.

Lemma performance_rows_status (df : DataFrame) (l : list group_row) (g : group_row) :
  performance_rows df = Some l -> In g l ->
  Status g = label_status (Completion_Pct g).
Proof.
  unfold performance_rows, bind.
  destruct (df_getitem df "INSTRUCTOR"); [| discriminate].
  destruct (df_getitem df "CAMPUS"); [| discriminate].
  destruct (df_getitem df "SUBJECT"); [| discriminate].
  destruct (score_column df); [| discriminate].
  intros [= <-] Hin. unfold sort_values in Hin.
  apply sort_by_In, in_map_iff in Hin. destruct Hin as (k & <- & _). reflexivity.
Qed.

(** The label of the code carries a mark after the words. *)
Lemma label_is_not_bare_words : label_status (SFloat 80) <> "On Track".
Proof.
  vm_compute. discriminate.
Qed.

(** C5.  In the result of [compute_instructor_performance] the label of a
    group is "On Track ✅" when its Completion_Pct is at least 80,
    "Delayed ⚠️" from 50 up to 80 and "Critical 🔴" below 50; 80.0 is on
    track, 79.9 and 50.0 are delayed, 49.9 is critical. *)
Theorem status_label_thresholds :
  (forall (df out : DataFrame),
     df_empty df = false ->
     compute_instructor_performance df = Some out ->
     exists l, out = performance_frame l /\
       forall g q, In g l -> Completion_Pct g = SFloat q ->
         (80 <= q -> Status g = "On Track ✅")
         /\ (50 <= q -> q < 80 -> Status g = "Delayed ⚠️")
         /\ (q < 50 -> Status g = "Critical 🔴"))
  /\ label_status (SFloat 80) = "On Track ✅"
  /\ label_status (SFloat (799 # 10)) = "Delayed ⚠️"
  /\ label_status (SFloat 50) = "Delayed ⚠️"
  /\ label_status (SFloat (499 # 10)) = "Critical 🔴".
Proof.
  split; [| repeat split].
  intros df out Hne Hout. unfold compute_instructor_performance in Hout.
  rewrite Hne in Hout.
  destruct (performance_rows df) as [l |] eqn:Hl; [| discriminate].
  injection Hout as <-. exists l. split; [reflexivity |].
  intros g q Hg Hq. rewrite (performance_rows_status _ _ _ Hl Hg), Hq.
  apply label_status_float.
Qed.

Lemma status_label_thresholds_witness :
  match compute_instructor_performance sample_table with
  | Some out =>
      exists l, out = performance_frame l /\
        forall g q, In g l -> Completion_Pct g = SFloat q ->
          (80 <= q -> Status g = "On Track ✅")
          /\ (50 <= q -> q < 80 -> Status g = "Delayed ⚠️")
          /\ (q < 50 -> Status g = "Critical 🔴")
  | None => False
  end.
Proof.
  destruct (compute_instructor_performance sample_table) as [out |] eqn:E.
  - apply (proj1 status_label_thresholds sample_table out); [reflexivity | exact E].
  - vm_compute in E. discriminate E.
Defined.

(* ------------------------------------------------------------------ *)
(** * Frames: labels, cells and assignment *)

Local Open Scope nat_scope.

Lemma mem_false (k : string) (l : list string) : PyStr.mem k l = false <-> ~ In k l.
Proof.
  rewrite <- mem_In. destruct (PyStr.mem k l); split; intros H;
    try reflexivity; try discriminate; try (intros E; discriminate).
  now contradiction H.
Qed.

Lemma mem_app (k : string) (l1 l2 : list string) :
  PyStr.mem k (l1 ++ l2) = PyStr.mem k l1 || PyStr.mem k l2.
Proof.
  unfold PyStr.mem. apply existsb_app.
Qed.

Lemma positions_from_app (i : nat) (k : string) (l1 l2 : list string) :
  positions_from i k (l1 ++ l2) =
  positions_from i k l1 ++ positions_from (i + length l1) k l2.
Proof.
  revert i. induction l1 as [| c l1 IH]; intros i; cbn.
  - now rewrite Nat.add_0_r.
  - rewrite IH, Nat.add_succ_comm. now destruct (String.eqb c k).
Qed.

Lemma positions_from_absent (i : nat) (k : string) (l : list string) :
  ~ In k l -> positions_from i k l = [].
Proof.
  revert i. induction l as [| c l IH]; intros i N; cbn; [reflexivity |].
  destruct (String.eqb c k) eqn:E.
  - apply String.eqb_eq in E. contradiction N. now left.
  - apply IH. intros H. apply N. now right.
Qed.

Lemma positions_from_present (i : nat) (k : string) (l : list string) :
  In k l -> positions_from i k l <> [].
Proof.
  revert i. induction l as [| c l IH]; intros i H; cbn; [contradiction |].
  destruct (String.eqb c k) eqn:E; [discriminate |].
  destruct H as [-> | H]; [now rewrite String.eqb_refl in E | now apply IH].
Qed.

Lemma positions_from_spec (i j : nat) (k : string) (l : list string) :
  In j (positions_from i k l) <-> i <= j /\ nth_error l (j - i) = Some k.
Proof.
  revert i. induction l as [| c l IH]; intros i; cbn [positions_from].
  - split; [intros [] | intros (_ & H)]. now destruct (j - i).
  - assert (Hrest : In j (positions_from (S i) k l) <->
                    i <= j /\ j <> i /\ nth_error (c :: l) (j - i) = Some k).
    { rewrite IH. split.
      - intros (L & H). repeat split; try lia.
        replace (j - i) with (S (j - S i)) by lia. exact H.
      - intros (L & N & H). split; [lia |].
        replace (j - i) with (S (j - S i)) in H by lia. exact H. }
    destruct (String.eqb c k) eqn:E.
    + apply String.eqb_eq in E. subst c. cbn [In]. rewrite Hrest. split.
      * intros [<- | (L & _ & H)]; [| tauto].
        split; [lia |]. now rewrite Nat.sub_diag.
      * intros (L & H). destruct (Nat.eq_dec i j) as [-> | N]; [now left |].
        right. repeat split; [assumption | congruence | assumption].
    + rewrite Hrest. split; [tauto |]. intros (L & H).
      repeat split; try assumption. intros ->.
      rewrite Nat.sub_diag in H. cbn in H. injection H as ->.
      now rewrite String.eqb_refl in E.
Qed.

Lemma positions_spec (j : nat) (k : string) (l : list string) :
  In j (positions k l) <-> nth_error l j = Some k.
Proof.
  unfold positions. rewrite positions_from_spec, Nat.sub_0_r.
  split; [tauto | intros H; split; [lia | assumption]].
Qed.

Lemma positions_from_NoDup (i : nat) (k : string) (l : list string) :
  NoDup l -> length (positions_from i k l) <= 1.
Proof.
  revert i. induction l as [| c l IH]; intros i N; cbn; [lia |].
  inversion N as [| ? ? Hc Hl]; subst.
  destruct (String.eqb c k) eqn:E.
  - apply String.eqb_eq in E. subst c.
    rewrite (positions_from_absent _ _ _ Hc). cbn. lia.
  - now apply IH.
Qed.

(** A label that names one column: its place and the series. *)
Lemma df_getitem_one (df : DataFrame) (k : string) (i : nat) :
  positions k (columns df) = [i] ->
  df_getitem df k = Some (map (fun r => cell r i) (rows df)).
Proof.
  unfold df_getitem. now intros ->.
Qed.

Lemma df_getitem_length (df : DataFrame) (k : string) (col : list scalar) :
  df_getitem df k = Some col -> length col = length (rows df).
Proof.
  unfold df_getitem.
  destruct (positions k (columns df)) as [| i [| ? ?]]; try discriminate.
  intros [= <-]. apply length_map.
Qed.

Lemma cell_app_l (r s : list scalar) (j : nat) :
  j < length r -> cell (r ++ s) j = cell r j.
Proof.
  intros H. unfold cell. now apply app_nth1.
Qed.

Lemma cell_app_r (r s : list scalar) (j : nat) :
  cell (r ++ s) (length r + j) = cell s j.
Proof.
  unfold cell. apply app_nth2_plus.
Qed.

Lemma cell_repeat (v : scalar) (n j : nat) : j < n -> cell (repeat v n) j = v.
Proof.
  intros H. unfold cell. now apply nth_repeat_lt.
Qed.

Lemma put_cell_length (cols : list string) (k : string) (v : scalar) (r : list scalar) :
  length (put_cell cols k v r) = length r.
Proof.
  revert r. induction cols as [| c cols IH]; intros [| x r]; cbn; try reflexivity.
  now rewrite IH.
Qed.

Lemma put_cell_cell (cols : list string) (k : string) (v : scalar)
                    (r : list scalar) (j : nat) :
  j < length r ->
  cell (put_cell cols k v r) j =
  match nth_error cols j with
  | Some c => if String.eqb c k then v else cell r j
  | None => cell r j
  end.
Proof.
  revert r j. induction cols as [| c cols IH]; intros r j H.
  - destruct r; cbn; now destruct j.
  - destruct r as [| x r]; [cbn in H; lia |].
    destruct j as [| j]; cbn.
    + now destruct (String.eqb c k).
    + apply (IH r j). cbn in H. lia.
Qed.

Lemma combine_map_self {A B} (g : A -> B) (l : list A) :
  combine l (map g l) = map (fun x => (x, g x)) l.
Proof.
  induction l as [| x l IH]; cbn; [reflexivity | now rewrite IH].
Qed.

Lemma added_keys_snoc (cols ks : list string) (k : string) :
  ~ In k ks -> added_keys (cols ++ [k]) ks = added_keys cols ks.
Proof.
  intros N. unfold added_keys. apply filter_ext_in. intros k' H.
  rewrite mem_app. cbn. rewrite orb_false_r.
  destruct (String.eqb k' k) eqn:E; [| now rewrite orb_false_r].
  apply String.eqb_eq in E. now subst.
Qed.

(** The loop over the required keys adds the missing labels at the end, in
    order, and one "Unknown" cell per added label to every row. *)
Lemma fill_fold (ks : list string) (d : DataFrame) :
  NoDup ks ->
  fold_left
    (fun d k => if has_column k d then d else df_setitem_const d k (SStr "Unknown"))
    ks d =
  {| columns := columns d ++ added_keys (columns d) ks;
     rows := map (fun r => r ++ unknown_column (length (added_keys (columns d) ks)))
                 (rows d) |}.
Proof.
  revert d. induction ks as [| k ks IH]; intros d N.
  - destruct d as [cols rws]. cbn. rewrite app_nil_r. f_equal.
    rewrite <- (map_id rws) at 1. apply map_ext. intros r. now rewrite app_nil_r.
  - inversion N as [| ? ? Hk Hks]; subst. cbn [fold_left].
    unfold has_column, added_keys. cbn [filter].
    destruct (PyStr.mem k (columns d)) eqn:M; cbn [negb].
    + now rewrite IH.
    + rewrite IH by assumption. unfold df_setitem_const, set_columns, set_row.
      cbn [columns rows]. rewrite M, (added_keys_snoc _ _ _ Hk).
      fold (added_keys (columns d) ks). f_equal.
      * now rewrite <- app_assoc.
      * rewrite map_map. apply map_ext. intros r.
        now rewrite <- app_assoc.
Qed.

Lemma required_keys_NoDup : NoDup required_keys.
Proof.
  unfold required_keys.
  repeat (constructor; [cbn; intuition discriminate |]). constructor.
Qed.

Lemma fill_unknown_eq (d : DataFrame) :
  fill_unknown d =
  {| columns := columns d ++ added_keys (columns d) required_keys;
     rows := map (fun r => r ++ unknown_column (length (added_keys (columns d) required_keys)))
                 (rows d) |}.
Proof.
  apply fill_fold, required_keys_NoDup.
Qed.

Lemma added_keys_NoDup (cols ks : list string) : NoDup ks -> NoDup (added_keys cols ks).
Proof.
  apply NoDup_filter.
Qed.

Lemma added_keys_In (cols ks : list string) (k : string) :
  In k (added_keys cols ks) <-> In k ks /\ ~ In k cols.
Proof.
  unfold added_keys. now rewrite filter_In, negb_true_iff, mem_false.
Qed.

Lemma positions_from_one (i : nat) (k : string) (l : list string) :
  NoDup l -> In k l ->
  exists j, j < length l /\ positions_from i k l = [i + j].
Proof.
  intros N H.
  pose proof (positions_from_NoDup i k l N) as L.
  pose proof (positions_from_present i k l H) as P.
  destruct (positions_from i k l) as [| p [| q rest]] eqn:E;
    [contradiction | | cbn in L; lia].
  assert (Hp : In p (positions_from i k l)) by (rewrite E; now left).
  apply positions_from_spec in Hp. destruct Hp as (Hle & Hnth).
  exists (p - i). split.
  - apply nth_error_Some. congruence.
  - f_equal. lia.
Qed.

(** After the fill exactly one column is labelled STATUS, provided that
    the renaming did not produce two. *)
Lemma status_position (df : DataFrame) (m : Dict.t (option string)) :
  length (positions "STATUS" (renamed_columns df m)) <= 1 ->
  exists i, i < length (filled_columns df m)
            /\ positions "STATUS" (filled_columns df m) = [i].
Proof.
  intros L. unfold filled_columns, positions in *. rewrite positions_from_app.
  set (rc := renamed_columns df m) in *. cbn [Nat.add].
  destruct (in_dec string_dec "STATUS" rc) as [Hin | Hout].
  - rewrite (positions_from_absent _ _ (added_keys rc required_keys)).
    + rewrite app_nil_r.
      pose proof (positions_from_present 0 _ _ Hin) as P.
      destruct (positions_from 0 "STATUS" rc) as [| p [| q rest]] eqn:E;
        [contradiction | | cbn in L; lia].
      exists p. split; [| reflexivity].
      assert (Hp : In p (positions_from 0 "STATUS" rc)) by (rewrite E; now left).
      apply positions_from_spec in Hp. destruct Hp as (_ & Hnth).
      rewrite length_app. rewrite Nat.sub_0_r in Hnth.
      assert (p < length rc) by (apply nth_error_Some; congruence). lia.
    + rewrite added_keys_In. tauto.
  - rewrite (positions_from_absent _ _ rc Hout). cbn [app].
    destruct (positions_from_one (length rc) "STATUS" (added_keys rc required_keys))
      as (j & Hj & E).
    + apply added_keys_NoDup, required_keys_NoDup.
    + apply added_keys_In. split; [cbn; tauto | assumption].
    + exists (length rc + j). split; [rewrite length_app; lia | exact E].
Qed.

Lemma set_row_length (cols : list string) (k : string) (v : scalar) (r : list scalar) :
  length r = length cols ->
  length (set_row cols k v r) = length (set_columns cols k).
Proof.
  intros H. unfold set_row, set_columns. destruct (PyStr.mem k cols).
  - now rewrite put_cell_length.
  - rewrite !length_app. cbn. lia.
Qed.

Lemma set_row_other (cols : list string) (k : string) (v : scalar)
                    (r : list scalar) (j : nat) :
  j < length r -> nth_error cols j <> Some k ->
  cell (set_row cols k v r) j = cell r j.
Proof.
  intros Hj N. unfold set_row. destruct (PyStr.mem k cols).
  - rewrite put_cell_cell by assumption.
    destruct (nth_error cols j) as [c |]; [| reflexivity].
    destruct (String.eqb c k) eqn:E; [| reflexivity].
    apply String.eqb_eq in E. congruence.
  - now apply cell_app_l.
Qed.

Lemma set_row_same (cols : list string) (k : string) (v : scalar)
                   (r : list scalar) (j : nat) :
  length r = length cols ->
  nth_error (set_columns cols k) j = Some k ->
  cell (set_row cols k v r) j = v.
Proof.
  intros Hlen Hj. unfold set_row, set_columns in *.
  destruct (PyStr.mem k cols) eqn:M.
  - assert (j < length cols) by (apply nth_error_Some; congruence).
    rewrite put_cell_cell by lia. now rewrite Hj, String.eqb_refl.
  - apply mem_false in M.
    destruct (Nat.lt_ge_cases j (length cols)) as [L | G].
    + rewrite nth_error_app1 in Hj by assumption.
      apply nth_error_In in Hj. contradiction.
    + rewrite nth_error_app2 in Hj by assumption.
      destruct (j - length cols) as [| d] eqn:D; [| now destruct d].
      replace j with (length r + 0) by lia. now rewrite cell_app_r.
Qed.

Lemma set_columns_positions (cols : list string) (k k0 : string) :
  k0 <> k -> positions k0 (set_columns cols k) = positions k0 cols.
Proof.
  intros N. unfold set_columns, positions. destruct (PyStr.mem k cols); [reflexivity |].
  rewrite positions_from_app. cbn.
  destruct (String.eqb k k0) eqn:E; [| apply app_nil_r].
  apply String.eqb_eq in E. congruence.
Qed.

(** The table [normalize_data] builds, once STATUS names one column. *)
Lemma normalize_data_eq (df : DataFrame) (m : Dict.t (option string)) (i : nat) :
  positions "STATUS" (filled_columns df m) = [i] ->
  normalize_data df m =
  Some {| columns := set_columns (filled_columns df m) "SCORE";
          rows :=
            map (fun r =>
                   let r' := r ++ unknown_column
                                    (length (added_keys (renamed_columns df m)
                                                        required_keys)) in
                   set_row (filled_columns df m) "SCORE"
                           (SFloat (get_score (cell r' i))) r')
                (rows df) |}.
Proof.
  intros P. unfold normalize_data. rewrite fill_unknown_eq.
  cbn [df_rename columns rows].
  fold (renamed_columns df m). fold (filled_columns df m).
  unfold df_getitem. cbn [columns rows]. rewrite P.
  unfold df_setitem. cbn [columns rows]. do 2 f_equal.
  set (filled := map _ (rows df)).
  rewrite (map_map (fun r => cell r i)), combine_map_self.
  subst filled. now rewrite !map_map.
Qed.

Lemma renamed_columns_length (df : DataFrame) (m : Dict.t (option string)) :
  length (renamed_columns df m) = length (columns df).
Proof.
  apply length_map.
Qed.

Lemma filled_columns_nth (df : DataFrame) (m : Dict.t (option string)) (j : nat) :
  j < length (columns df) ->
  nth_error (filled_columns df m) j = nth_error (renamed_columns df m) j.
Proof.
  intros H. unfold filled_columns.
  apply nth_error_app1. now rewrite renamed_columns_length.
Qed.

(* ------------------------------------------------------------------ *)
(** * The rename plan *)

Lemma rename_fold_get (x : string) (m : Dict.t (option string)) :
  forall (d : Dict.t string) (acc : option string),
    Dict.get x d = option_map PyStr.upper acc ->
    Dict.get x
      (fold_left
         (fun d kv =>
            match snd kv with
            | Some v => Dict.set v (PyStr.upper (fst kv)) d
            | None => d
            end) m d) =
    option_map PyStr.upper
      (fold_left
         (fun acc kv =>
            match snd kv with
            | Some v => if String.eqb v x then Some (fst kv) else acc
            | None => acc
            end) m acc).
Proof.
  induction m as [| [k [v |]] m IH]; intros d acc H; cbn [fold_left fst snd].
  - exact H.
  - apply IH. destruct (String.eqb v x) eqn:E.
    + apply String.eqb_eq in E. subst v. now rewrite dict_get_set_same.
    + rewrite dict_get_set_other; [exact H |].
      intros ->. now rewrite String.eqb_refl in E.
  - now apply IH.
Qed.

(** A column is renamed after the role the mapping lists last for it. *)
Lemma rename_label_last (m : Dict.t (option string)) (x : string) :
  rename_label (rename_dict m) x =
  match last_role m x with
  | Some k => PyStr.upper k
  | None => x
  end.
Proof.
  unfold rename_label, rename_dict, last_role.
  rewrite (rename_fold_get x m [] None) by reflexivity.
  now destruct (fold_left _ m None).
Qed.

Lemma last_role_keep (x : string) (m : Dict.t (option string)) (acc : option string) :
  (forall kv, In kv m -> snd kv <> Some x) ->
  fold_left
    (fun acc kv =>
       match snd kv with
       | Some v => if String.eqb v x then Some (fst kv) else acc
       | None => acc
       end) m acc = acc.
Proof.
  revert acc. induction m as [| [k [v |]] m IH]; intros acc H; cbn [fold_left fst snd].
  - reflexivity.
  - destruct (String.eqb v x) eqn:E.
    + apply String.eqb_eq in E. subst v.
      contradiction (H (k, Some x)); [now left | reflexivity].
    + apply IH. intros kv Hkv. apply H. now right.
  - apply IH. intros kv Hkv. apply H. now right.
Qed.

Lemma last_role_split (m m1 m2 : Dict.t (option string)) (r x : string) :
  m = m1 ++ (r, Some x) :: m2 ->
  (forall kv, In kv m2 -> snd kv <> Some x) ->
  last_role m x = Some r.
Proof.
  intros -> H. unfold last_role. rewrite fold_left_app. cbn [fold_left fst snd].
  rewrite String.eqb_refl. now apply last_role_keep.
Qed.

Lemma last_role_from_In (x k : string) (m : Dict.t (option string)) (acc : option string) :
  fold_left
    (fun acc kv =>
       match snd kv with
       | Some v => if String.eqb v x then Some (fst kv) else acc
       | None => acc
       end) m acc = Some k ->
  In (k, Some x) m \/ acc = Some k.
Proof.
  revert acc. induction m as [| [k' [v |]] m IH]; intros acc H; cbn [fold_left fst snd] in H.
  - now right.
  - apply IH in H. destruct H as [H | H]; [left; now right |].
    destruct (String.eqb v x) eqn:E; [| now right].
    apply String.eqb_eq in E. injection H as ->. subst v. left. now left.
  - apply IH in H. destruct H as [H | H]; [left; now right | now right].
Qed.

Lemma last_role_In (m : Dict.t (option string)) (x k : string) :
  last_role m x = Some k -> In (k, Some x) m.
Proof.
  intros H. apply last_role_from_In in H. now destruct H.
Qed.

Lemma dict_get_In {V} (m : Dict.t V) (k : string) (v : V) :
  NoDup (Dict.keys m) -> In (k, v) m -> Dict.get k m = Some v.
Proof.
  induction m as [| [k' v'] m IH]; cbn; [contradiction |].
  intros N H. inversion N as [| ? ? Hk Hm]; subst.
  destruct H as [[= -> ->] | H]; [now rewrite String.eqb_refl |].
  destruct (String.eqb k' k) eqn:E; [| now apply IH].
  apply String.eqb_eq in E. subst k'. contradiction Hk.
  apply in_map_iff. now exists (k, v).
Qed.

Lemma dict_get_key {V} (m : Dict.t V) (k : string) (v : V) :
  Dict.get k m = Some v -> In k (Dict.keys m).
Proof.
  induction m as [| [k' v'] m IH]; cbn; [discriminate |].
  destruct (String.eqb k' k) eqn:E.
  - apply String.eqb_eq in E. now left.
  - intros H. right. now apply IH.
Qed.

Lemma role_names_NoDup : NoDup role_names.
Proof.
  unfold role_names.
  repeat (constructor; [cbn; intuition discriminate |]). constructor.
Qed.

Lemma upper_role_inj (a b : string) :
  In a role_names -> In b role_names -> PyStr.upper a = PyStr.upper b -> a = b.
Proof.
  intros Ha Hb. cbn in Ha, Hb.
  repeat (destruct Ha as [<- | Ha]; [| ]); try contradiction;
    repeat (destruct Hb as [<- | Hb]; [| ]); try contradiction;
    intros E; first [reflexivity | vm_compute in E; discriminate E].
Qed.

Lemma upper_role_required (r : string) :
  In r role_names -> In (PyStr.upper r) required_keys.
Proof.
  intros H. cbn in H.
  repeat (destruct H as [<- | H]; [vm_compute; tauto |]). contradiction.
Qed.

Lemma score_not_required : ~ In "SCORE" required_keys.
Proof.
  cbn. intuition discriminate.
Qed.

(** The canonical name of an unset role is not among the renamed labels
    unless the raw table has a column of that very name. *)
Lemma unset_not_renamed (df : DataFrame) (m : Dict.t (option string)) (r : string) :
  Dict.keys m = role_names ->
  Dict.get r m = Some None ->
  ~ In (PyStr.upper r) (columns df) ->
  ~ In (PyStr.upper r) (renamed_columns df m).
Proof.
  intros Hkeys Hr Hraw Hin. unfold renamed_columns in Hin.
  apply in_map_iff in Hin. destruct Hin as (c & Hc & Hcin).
  rewrite rename_label_last in Hc.
  destruct (last_role m c) as [k |] eqn:L; [| now subst c].
  apply last_role_In in L.
  assert (Hk : In k role_names).
  { rewrite <- Hkeys. apply in_map_iff. now exists (k, Some c). }
  assert (Hrn : In r role_names).
  { rewrite <- Hkeys. eapply dict_get_key, Hr. }
  apply (upper_role_inj _ _ Hk Hrn) in Hc. subst k.
  apply dict_get_In in L; [congruence |].
  rewrite Hkeys. apply role_names_NoDup.
Qed.

(* ------------------------------------------------------------------ *)
(** * Normalisation *)

Lemma filled_columns_length (df : DataFrame) (m : Dict.t (option string)) :
  length (filled_columns df m) =
  length (columns df) + length (added_keys (renamed_columns df m) required_keys).
Proof.
  unfold filled_columns. now rewrite length_app, renamed_columns_length.
Qed.

Lemma unknown_column_length (n : nat) : length (unknown_column n) = n.
Proof.
  apply repeat_length.
Qed.

(** The place of a canonical label that the fill had to add, and what
    a filled row holds there. *)
Lemma added_position (df : DataFrame) (m : Dict.t (option string)) (k : string) :
  In k required_keys -> ~ In k (renamed_columns df m) ->
  exists j, j < length (added_keys (renamed_columns df m) required_keys)
            /\ positions k (filled_columns df m) = [length (columns df) + j].
Proof.
  intros Hk Hout. unfold filled_columns, positions. rewrite positions_from_app.
  rewrite (positions_from_absent _ _ _ Hout). cbn [app Nat.add].
  rewrite renamed_columns_length.
  apply positions_from_one; [apply added_keys_NoDup, required_keys_NoDup |].
  now apply added_keys_In.
Qed.

(** What [normalize_data] returns when the renaming leaves at most one
    column labelled STATUS. *)
Lemma normalize_data_spec (df : DataFrame) (m : Dict.t (option string)) :
  well_formed df ->
  length (positions "STATUS" (renamed_columns df m)) <= 1 ->
  exists out status,
    normalize_data df m = Some out
    /\ well_formed out
    /\ length (rows out) = length (rows df)
    /\ (exists added, columns out = renamed_columns df m ++ added)
    /\ (forall i r, nth_error (rows df) i = Some r ->
          exists r', nth_error (rows out) i = Some r'
            /\ forall j, j < length (columns df) ->
                 nth_error (renamed_columns df m) j <> Some "SCORE" ->
                 cell r' j = cell r j)
    /\ (forall k, In k canonical_names -> In k (columns out))
    /\ (forall k, In k required_keys -> ~ In k (renamed_columns df m) ->
          df_getitem out k = Some (unknown_column (length (rows df))))
    /\ (forall r, Dict.keys m = role_names -> Dict.get r m = Some None ->
          ~ In (PyStr.upper r) (columns df) ->
          df_getitem out (PyStr.upper r) = Some (unknown_column (length (rows df))))
    /\ df_getitem out "STATUS" = Some status
    /\ (forall j, nth_error (columns out) j = Some "SCORE" ->
          map (fun r => cell r j) (rows out) =
          map (fun v => SFloat (get_score v)) status).
Proof.
  intros Hwf Hstatus.
  destruct (status_position df m Hstatus) as (i & Hi & P).
  rewrite (normalize_data_eq df m i P).
  set (rc := renamed_columns df m) in *.
  set (fc := filled_columns df m) in *.
  set (n := length (added_keys rc required_keys)) in *.
  set (fill := fun r : list scalar => r ++ unknown_column n).
  assert (Hfc : length fc = length (columns df) + n)
    by apply filled_columns_length.
  assert (Hrow : forall r, In r (rows df) -> length r = length (columns df)).
  { intros r Hr. unfold well_formed in Hwf. rewrite Forall_forall in Hwf. now apply Hwf. }
  assert (Hfill : forall r, In r (rows df) -> length (fill r) = length fc).
  { intros r Hr. unfold fill. rewrite length_app, unknown_column_length, (Hrow r Hr). lia. }
  set (out := {| columns := set_columns fc "SCORE";
                 rows := map (fun r => set_row fc "SCORE"
                                         (SFloat (get_score (cell (fill r) i))) (fill r))
                             (rows df) |}).
  assert (Hunknown : forall k, In k required_keys -> ~ In k rc ->
            df_getitem out k = Some (unknown_column (length (rows df)))).
  { intros k Hk Hout.
    destruct (added_position df m k Hk Hout) as (j & Hj & Pk).
    change (j < n) in Hj.
    change (positions k fc = [length (columns df) + j]) in Pk.
    assert (Hks : k <> "SCORE") by (intros ->; now apply score_not_required).
    subst out. erewrite df_getitem_one
      by (cbn [columns]; rewrite set_columns_positions by assumption; exact Pk).
    cbn [rows]. rewrite map_map. unfold unknown_column at 1.
    rewrite <- map_const. f_equal. apply map_ext_in. intros r Hr.
    rewrite set_row_other.
    - unfold fill. rewrite <- (Hrow r Hr), cell_app_r. now apply cell_repeat.
    - rewrite (Hfill r Hr). lia.
    - assert (Hin : In (length (columns df) + j) (positions k fc))
        by (rewrite Pk; now left).
      apply positions_spec in Hin. rewrite Hin. congruence. }
  exists out, (map (fun r => cell (fill r) i) (rows df)).
  split; [reflexivity |]. subst out. cbn [columns rows].
  repeat match goal with |- _ /\ _ => split end.
  - unfold well_formed. cbn [columns rows]. rewrite Forall_map, Forall_forall.
    intros r Hr. apply set_row_length. now apply Hfill.
  - apply length_map.
  - unfold set_columns. destruct (PyStr.mem "SCORE" fc).
    + now exists (added_keys rc required_keys).
    + exists (added_keys rc required_keys ++ ["SCORE"]).
      unfold fc, filled_columns. fold rc. now rewrite app_assoc.
  - intros i0 r Hr. eexists. split; [rewrite nth_error_map, Hr; reflexivity |].
    intros j Hj Hnot. apply nth_error_In in Hr.
    rewrite set_row_other.
    + unfold fill. apply cell_app_l. rewrite (Hrow r Hr). exact Hj.
    + rewrite (Hfill r Hr). lia.
    + unfold fc. now rewrite filled_columns_nth.
  - intros k Hk. unfold canonical_names in Hk. apply in_app_or in Hk.
    unfold set_columns.
    destruct Hk as [Hk | [<- | []]].
    + assert (In k fc).
      { unfold fc, filled_columns. fold rc. apply in_or_app.
        destruct (in_dec string_dec k rc); [now left | right].
        now apply added_keys_In. }
      destruct (PyStr.mem "SCORE" fc); [assumption | apply in_or_app; now left].
    + destruct (PyStr.mem "SCORE" fc) eqn:M; [now apply mem_In |].
      apply in_or_app. right. now left.
  - exact Hunknown.
  - intros r Hkeys Hr Hraw. apply Hunknown.
    + apply upper_role_required. rewrite <- Hkeys. eapply dict_get_key, Hr.
    + now apply unset_not_renamed.
  - erewrite df_getitem_one
      by (cbn [columns]; rewrite set_columns_positions by discriminate; exact P).
    cbn [rows]. rewrite map_map. f_equal. apply map_ext_in. intros r Hr.
    apply set_row_other.
    + rewrite (Hfill r Hr). exact Hi.
    + assert (Hin : In i (positions "STATUS" fc)) by (rewrite P; now left).
      apply positions_spec in Hin. rewrite Hin. discriminate.
  - intros j Hj. rewrite !map_map. apply map_ext_in. intros r Hr.
    apply set_row_same; [now apply Hfill | exact Hj].
Qed.

(** C2.  When the renaming leaves at most one column labelled STATUS,
    [normalize_data] yields a table with as many rows as the raw one, in the
    same order and with the raw cells in place, in which every row has a cell
    for each of CAMPUS, INSTRUCTOR, SUBJECT, SECTION, STATUS, WEEK and SCORE;
    a canonical name that no column bears after the renaming holds "Unknown"
    in every row (so does the name of an unset role that is not itself a raw
    label), and SCORE is the score of the STATUS cell of the row. *)
Theorem normalize_data_table (df : DataFrame) (m : Dict.t (option string)) :
  well_formed df ->
  length (positions "STATUS" (renamed_columns df m)) <= 1 ->
  exists out status,
    normalize_data df m = Some out
    /\ well_formed out
    /\ length (rows out) = length (rows df)
    /\ (exists added, columns out = renamed_columns df m ++ added)
    /\ (forall i r, nth_error (rows df) i = Some r ->
          exists r', nth_error (rows out) i = Some r'
            /\ forall j, j < length (columns df) ->
                 nth_error (renamed_columns df m) j <> Some "SCORE" ->
                 cell r' j = cell r j)
    /\ (forall k, In k canonical_names -> In k (columns out))
    /\ (forall k, In k required_keys -> ~ In k (renamed_columns df m) ->
          df_getitem out k = Some (unknown_column (length (rows df))))
    /\ (forall r, Dict.keys m = role_names -> Dict.get r m = Some None ->
          ~ In (PyStr.upper r) (columns df) ->
          df_getitem out (PyStr.upper r) = Some (unknown_column (length (rows df))))
    /\ df_getitem out "STATUS" = Some status
    /\ (forall j, nth_error (columns out) j = Some "SCORE" ->
          map (fun r => cell r j) (rows out) =
          map (fun v => SFloat (get_score v)) status).
Proof.
  exact (normalize_data_spec df m).
Qed.

Lemma sample_raw_well_formed : well_formed sample_raw.
Proof.
  unfold well_formed. repeat constructor.
Qed.

Lemma normalize_data_table_witness :
  exists out,
    normalize_data sample_raw all_unset = Some out
    /\ length (rows out) = length (rows sample_raw)
    /\ df_getitem out "WEEK" = Some (unknown_column 6).
Proof.
  destruct (normalize_data_table sample_raw all_unset)
    as (out & status & Hout & _ & Hlen & _ & _ & _ & _ & Hunset & _).
  - unfold well_formed. simpl. repeat constructor.
  - vm_compute. lia.
  - exists out. repeat split; [exact Hout | exact Hlen |].
    apply (Hunset "week"); [reflexivity | reflexivity |].
    vm_compute. intuition discriminate.
Defined.

(** With no role set, a raw column that is already named CAMPUS keeps its
    data: the campus field is not "Unknown". *)
Lemma unset_role_keeps_raw_column :
  Dict.get "campus" all_unset = Some None
  /\ exists out,
       normalize_data campus_sheet all_unset = Some out
       /\ length (rows out) = 1
       /\ df_getitem out "CAMPUS" = Some [SStr "Pune"]
       /\ df_getitem out "CAMPUS" <> Some (unknown_column 1).
Proof.
  split; [reflexivity |]. eexists. split; [reflexivity |].
  repeat split. vm_compute. discriminate.
Qed.

(** When a status column is renamed next to a raw column named STATUS, the
    label names two columns and no table is produced. *)
Example normalize_data_status_clash :
  auto_detect_schema progress_status_sheet =
    [("campus", None); ("instructor", None); ("subject", None);
     ("section", None); ("status", Some "Progress"); ("week", None)]
  /\ normalize_data progress_status_sheet
                    (auto_detect_schema progress_status_sheet) = None.
Proof.
  split; reflexivity.
Qed.

(* ------------------------------------------------------------------ *)
(** * A column claimed by several roles *)

Lemma shared_not_renamed (df : DataFrame) (m m1 m2 : Dict.t (option string))
                         (r_last x r : string) :
  Dict.keys m = role_names ->
  m = m1 ++ (r_last, Some x) :: m2 ->
  (forall kv, In kv m2 -> snd kv <> Some x) ->
  In (r, Some x) m1 ->
  ~ In (PyStr.upper r) (columns df) ->
  ~ In (PyStr.upper r) (renamed_columns df m).
Proof.
  intros Hkeys Hm Hm2 Hr Hraw Hin.
  assert (Hnd : NoDup (Dict.keys m)) by (rewrite Hkeys; apply role_names_NoDup).
  assert (Hrm : In (r, Some x) m) by (rewrite Hm; apply in_or_app; now left).
  unfold renamed_columns in Hin. apply in_map_iff in Hin.
  destruct Hin as (c & Hc & Hcin). rewrite rename_label_last in Hc.
  destruct (last_role m c) as [k |] eqn:L; [| now subst c].
  pose proof (last_role_In _ _ _ L) as Hk.
  assert (k = r).
  { apply upper_role_inj; [| | exact Hc]; rewrite <- Hkeys; apply in_map_iff.
    - now exists (k, Some c).
    - now exists (r, Some x). }
  subst k.
  pose proof (dict_get_In _ _ _ Hnd Hk) as G1.
  pose proof (dict_get_In _ _ _ Hnd Hrm) as G2.
  assert (c = x) by congruence. subst c.
  rewrite (last_role_split _ _ _ _ _ Hm Hm2) in L. injection L as ->.
  rewrite Hm in Hnd. unfold Dict.keys in Hnd. rewrite map_app in Hnd.
  cbn [map fst] in Hnd. apply NoDup_remove_2 in Hnd. apply Hnd.
  apply in_or_app. left. apply in_map_iff. now exists (r, Some x).
Qed.

(** C10.  When a mapping in the fixed role order sets several roles to
    the same column [x] and the renaming leaves at most one column labelled
    STATUS, the column takes the canonical name of the last of those roles,
    and each earlier one holds "Unknown" in every row provided no column bears
    its canonical name after the renaming, as is the case when the raw table
    has no column of that name. *)
Theorem shared_column_last_role (df : DataFrame) (m m1 m2 : Dict.t (option string))
                                (r_last x : string) :
  well_formed df ->
  length (positions "STATUS" (renamed_columns df m)) <= 1 ->
  Dict.keys m = role_names ->
  m = m1 ++ (r_last, Some x) :: m2 ->
  (forall kv, In kv m2 -> snd kv <> Some x) ->
  exists out,
    normalize_data df m = Some out
    /\ (forall j, nth_error (columns df) j = Some x ->
          nth_error (columns out) j = Some (PyStr.upper r_last))
    /\ (forall r, In (r, Some x) m1 ->
          ~ In (PyStr.upper r) (renamed_columns df m) ->
          df_getitem out (PyStr.upper r) = Some (unknown_column (length (rows df))))
    /\ (forall r, In (r, Some x) m1 ->
          ~ In (PyStr.upper r) (columns df) ->
          df_getitem out (PyStr.upper r) = Some (unknown_column (length (rows df)))).
Proof.
  intros Hwf Hstatus Hkeys Hm Hm2.
  destruct (normalize_data_spec df m Hwf Hstatus)
    as (out & status & Hout & _ & _ & (added & Hcols) & _ & _ & Hunknown & _).
  assert (Hroles : forall r, In (r, Some x) m1 -> In (PyStr.upper r) required_keys).
  { intros r Hr. apply upper_role_required. rewrite <- Hkeys, Hm.
    apply in_map_iff. exists (r, Some x). split; [reflexivity |].
    apply in_or_app. now left. }
  exists out. split; [exact Hout |]. repeat split.
  - intros j Hj. rewrite Hcols.
    assert (j < length (columns df)) by (apply nth_error_Some; congruence).
    rewrite nth_error_app1 by now rewrite renamed_columns_length.
    unfold renamed_columns. rewrite nth_error_map, Hj. cbn [option_map].
    now rewrite rename_label_last, (last_role_split _ _ _ _ _ Hm Hm2).
  - intros r Hr Hout'. apply Hunknown; [now apply Hroles | exact Hout'].
  - intros r Hr Hraw. apply Hunknown; [now apply Hroles |].
    now apply (shared_not_renamed df m m1 m2 r_last x r).
Qed.

Lemma shared_column_last_role_witness :
  exists out,
    normalize_data shared_column_sheet (auto_detect_schema shared_column_sheet)
      = Some out
    /\ nth_error (columns out) 0 = Some "STATUS"
    /\ df_getitem out "SUBJECT" = Some (unknown_column 2).
Proof.
  destruct (shared_column_last_role shared_column_sheet
              (auto_detect_schema shared_column_sheet)
              [("campus", None); ("instructor", Some "Trainer");
               ("subject", Some "Course Status"); ("section", None)]
              [("week", None)] "status" "Course Status")
    as (out & Hout & Hlabel & _ & Hunknown).
  - unfold well_formed. simpl. repeat constructor.
  - vm_compute. lia.
  - reflexivity.
  - reflexivity.
  - simpl. intros kv [<- | []]. discriminate.
  - exists out. repeat split; [exact Hout | |].
    + apply (Hlabel 0). reflexivity.
    + apply (Hunknown "subject"); [simpl; tauto |].
      vm_compute. intuition discriminate.
Defined.

(** The subject role shares its column with the status role, yet the
    SUBJECT field is not "Unknown": the raw column that is already named
    SUBJECT supplies it. *)
Lemma earlier_role_keeps_raw_column :
  Dict.get "subject" (auto_detect_schema course_status_sheet)
    = Some (Some "Course Status")
  /\ Dict.get "status" (auto_detect_schema course_status_sheet)
    = Some (Some "Course Status")
  /\ exists out,
       normalize_data course_status_sheet (auto_detect_schema course_status_sheet)
         = Some out
       /\ df_getitem out "SUBJECT" = Some [SStr "Maths"]
       /\ df_getitem out "SUBJECT" <> Some (unknown_column 1).
Proof.
  split; [reflexivity |]. split; [reflexivity |].
  eexists. split; [reflexivity |]. split; [reflexivity |].
  vm_compute. discriminate.
Qed.

(* ------------------------------------------------------------------ *)
(** * Distinct values and group keys *)

Lemma Q_eqb_eq (a b : Q) : Q_eqb a b = true <-> a = b.
Proof.
  unfold Q_eqb. rewrite andb_true_iff, Z.eqb_eq, Pos.eqb_eq.
  destruct a, b; cbn. split; [intros (-> & ->); reflexivity | intros [= -> ->]; now split].
Qed.

Lemma scalar_eqb_eq (a b : scalar) : scalar_eqb a b = true <-> a = b.
Proof.
  destruct a, b; cbn; try (split; [discriminate | intros E; discriminate E]).
  - rewrite String.eqb_eq. split; congruence.
  - rewrite Z.eqb_eq. split; congruence.
  - rewrite Q_eqb_eq. split; congruence.
  - rewrite Bool.eqb_true_iff. split; congruence.
  - split; reflexivity.
Qed.

Lemma scalar_eqb_refl (a : scalar) : scalar_eqb a a = true.
Proof.
  now apply scalar_eqb_eq.
Qed.

Lemma pair_eqb_eq (a b : scalar * scalar) : pair_eqb a b = true <-> a = b.
Proof.
  unfold pair_eqb. rewrite andb_true_iff, !scalar_eqb_eq.
  destruct a, b; cbn. split; [intros (-> & ->); reflexivity | intros [= -> ->]; now split].
Qed.

Section Unique.
Context {A : Type}.
Variable eqb : A -> A -> bool.
Hypothesis eqb_eq : forall a b, eqb a b = true <-> a = b.

Lemma seen_In (x : A) (seen : list A) : existsb (eqb x) seen = true <-> In x seen.
Proof.
  rewrite existsb_exists. split.
  - intros (y & Hy & E). apply eqb_eq in E. now subst.
  - intros H. exists x. split; [assumption | now apply eqb_eq].
Qed.

Lemma unique_from_In (x : A) (seen l : list A) :
  In x (unique_from eqb seen l) <-> In x l /\ ~ In x seen.
Proof.
  revert seen. induction l as [| y l IH]; intros seen; cbn.
  - tauto.
  - destruct (existsb (eqb y) seen) eqn:E.
    + apply seen_In in E. rewrite IH. split.
      * intros (H & N). split; [now right | assumption].
      * intros ([<- | H] & N); [contradiction | now split].
    + assert (N : ~ In y seen) by (rewrite <- seen_In, E; discriminate).
      cbn [In]. rewrite IH. cbn [In]. split.
      * intros [<- | (H & M)]; [split; [now left | assumption] |].
        split; [now right | tauto].
      * intros ([<- | H] & M); [now left |].
        destruct (eqb y x) eqn:Ex; [apply eqb_eq in Ex; now left |].
        right. split; [assumption |]. intros [<- | S]; [| contradiction].
        assert (eqb y y = true) by now apply eqb_eq. congruence.
Qed.

Lemma unique_from_NoDup (seen l : list A) : NoDup (unique_from eqb seen l).
Proof.
  revert seen. induction l as [| y l IH]; intros seen; cbn; [constructor |].
  destruct (existsb (eqb y) seen); [apply IH |].
  constructor; [| apply IH].
  rewrite unique_from_In. intros (_ & N). apply N. now left.
Qed.

Lemma unique_In (x : A) (l : list A) : In x (unique eqb l) <-> In x l.
Proof.
  unfold unique. rewrite unique_from_In. cbn. tauto.
Qed.

Lemma unique_NoDup (l : list A) : NoDup (unique eqb l).
Proof.
  apply unique_from_NoDup.
Qed.
End Unique.

Lemma notna_spec (v : scalar) : notna v = true <-> v <> SNaN.
Proof.
  destruct v; cbn; split; congruence.
Qed.

Lemma group_keys_In (c : scalar) (keys : list scalar) :
  In c (group_keys keys) <-> In c keys /\ c <> SNaN.
Proof.
  unfold group_keys.
  rewrite sort_by_In, (unique_In _ scalar_eqb_eq), filter_In, notna_spec. tauto.
Qed.

Lemma group_keys_NoDup (keys : list scalar) : NoDup (group_keys keys).
Proof.
  apply sort_by_NoDup, (unique_NoDup _ scalar_eqb_eq).
Qed.

Lemma below_groupby (t : Q) (keys : list scalar) (scores : list Q) :
  below t (groupby_mean keys scores) =
  filter (fun k => Q_ltb (Qmean (select_by k keys scores)) t) (group_keys keys).
Proof.
  unfold below, groupby_mean.
  induction (group_keys keys) as [| k l IH]; cbn; [reflexivity |].
  destruct (Q_ltb _ t); cbn; now rewrite IH.
Qed.

(** The groups listed below a threshold: the values of the key column
    that are not empty and whose rows have a mean score below it. *)
Lemma below_In (t : Q) (keys : list scalar) (scores : list Q) (c : scalar) :
  In c (below t (groupby_mean keys scores)) <->
  In c keys /\ c <> SNaN /\ (Qmean (select_by c keys scores) < t)%Q.
Proof.
  rewrite below_groupby, filter_In, group_keys_In, Q_ltb_lt. tauto.
Qed.

Lemma below_NoDup (t : Q) (keys : list scalar) (scores : list Q) :
  NoDup (below t (groupby_mean keys scores)).
Proof.
  rewrite below_groupby. apply NoDup_filter, group_keys_NoDup.
Qed.

(* ------------------------------------------------------------------ *)
(** * Canonical tables *)

Lemma canonical_getitem (df : DataFrame) (k : string) :
  canonical df -> In k canonical_names ->
  exists col, df_getitem df k = Some col /\ length col = length (rows df).
Proof.
  unfold canonical, canonicalb. rewrite !andb_true_iff.
  intros ((_ & Hall) & _) Hk. rewrite forallb_forall in Hall.
  specialize (Hall k Hk). apply Nat.eqb_eq in Hall.
  unfold df_getitem.
  destruct (positions k (columns df)) as [| i [| ? ?]]; try discriminate.
  eexists. split; [reflexivity | apply length_map].
Qed.

Lemma numbers_scores (col : list scalar) :
  forallb is_score col = true ->
  exists qs, numbers col = Some qs /\ length qs = length col
             /\ Forall (fun q => q = 0 \/ q = 1 # 2 \/ q = 1)%Q qs.
Proof.
  induction col as [| v col IH]; cbn.
  - intros _. exists []. repeat split. constructor.
  - rewrite andb_true_iff. intros (Hv & Hcol).
    destruct (IH Hcol) as (qs & -> & Hlen & Hall).
    destruct v; try discriminate. cbn in Hv |- *.
    exists (q :: qs). repeat split; [cbn; now rewrite Hlen |].
    constructor; [| assumption].
    rewrite !orb_true_iff, !Q_eqb_eq in Hv. tauto.
Qed.

Lemma canonical_scores (df : DataFrame) :
  canonical df ->
  exists scores, score_column df = Some scores
                 /\ length scores = length (rows df)
                 /\ Forall (fun q => q = 0 \/ q = 1 # 2 \/ q = 1)%Q scores.
Proof.
  intros Hc. destruct (canonical_getitem df "SCORE" Hc) as (col & Hcol & Hlen).
  { unfold canonical_names. cbn. tauto. }
  unfold canonical, canonicalb in Hc. rewrite !andb_true_iff in Hc.
  destruct Hc as (_ & Hs). rewrite Hcol in Hs.
  destruct (numbers_scores col Hs) as (qs & Hqs & Hl & Hall).
  exists qs. unfold score_column, bind. rewrite Hcol.
  repeat split; [exact Hqs | congruence | exact Hall].
Qed.

(* ------------------------------------------------------------------ *)
(** * Risk lists *)

(** C6.  On a canonical table that is not empty, [compute_risk_factors]
    lists the campuses whose rows have a mean SCORE below 0.6 and the
    instructors whose rows have a mean SCORE below 0.5, each once, and
    [compute_kpis] counts as at risk exactly the instructors of that list. *)
Theorem risk_thresholds (df : DataFrame) :
  canonical df -> df_empty df = false ->
  exists campus instructor scores risky_campuses risky_instructors kpis,
    df_getitem df "CAMPUS" = Some campus
    /\ df_getitem df "INSTRUCTOR" = Some instructor
    /\ score_column df = Some scores
    /\ compute_risk_factors df =
         Some [("campuses", cells risky_campuses);
               ("instructors", cells risky_instructors)]
    /\ (forall c, In c risky_campuses <->
          In c campus /\ c <> SNaN
          /\ (Qmean (select_by c campus scores) < 6 # 10)%Q)
    /\ (forall i, In i risky_instructors <->
          In i instructor /\ i <> SNaN
          /\ (Qmean (select_by i instructor scores) < 1 # 2)%Q)
    /\ NoDup risky_campuses /\ NoDup risky_instructors
    /\ compute_kpis df = Some kpis
    /\ Dict.get "at_risk_instructors" kpis =
         Some (PInt (Z.of_nat (length risky_instructors))).
Proof.
  intros Hc Hne.
  destruct (canonical_getitem df "CAMPUS" Hc) as (campus & Hcampus & _);
    [cbn; tauto |].
  destruct (canonical_getitem df "INSTRUCTOR" Hc) as (instructor & Hinst & _);
    [cbn; tauto |].
  destruct (canonical_getitem df "SUBJECT" Hc) as (subject & Hsubject & _);
    [cbn; tauto |].
  destruct (canonical_scores df Hc) as (scores & Hscores & _).
  exists campus, instructor, scores,
    (below (6 # 10) (groupby_mean campus scores)),
    (below (1 # 2) (groupby_mean instructor scores)).
  eexists.
  split; [exact Hcampus |]. split; [exact Hinst |]. split; [exact Hscores |].
  split.
  { unfold compute_risk_factors. rewrite Hne, Hcampus, Hscores, Hinst. reflexivity. }
  split; [intros c; apply below_In |].
  split; [intros i; apply below_In |].
  split; [apply below_NoDup |]. split; [apply below_NoDup |].
  split.
  { unfold compute_kpis. rewrite Hne, Hscores, Hinst, Hcampus, Hsubject. reflexivity. }
  reflexivity.
Qed.

Lemma scalar_In (x : scalar) (l : list scalar) :
  existsb (scalar_eqb x) l = true -> In x l.
Proof.
  apply (seen_In scalar_eqb scalar_eqb_eq).
Qed.

Lemma risk_thresholds_witness :
  exists risky_campuses risky_instructors,
    compute_risk_factors risk_table =
      Some [("campuses", cells risky_campuses);
            ("instructors", cells risky_instructors)]
    /\ In (SStr "A") risky_campuses /\ ~ In (SStr "B") risky_campuses
    /\ In (SStr "I") risky_instructors /\ ~ In (SStr "J") risky_instructors.
Proof.
  destruct (risk_thresholds risk_table)
    as (campus & instructor & scores & rc & ri & kpis
        & Hcampus & Hinst & Hscores & Hrisk & Hrc & Hri & _).
  - vm_compute. reflexivity.
  - vm_compute. reflexivity.
  - vm_compute in Hcampus, Hinst, Hscores.
    injection Hcampus as <-. injection Hinst as <-. injection Hscores as <-.
    exists rc, ri. split; [exact Hrisk |].
    split; [| split; [| split]].
    + apply Hrc.
      split; [apply scalar_In; vm_compute; reflexivity |].
      split; [discriminate | vm_compute; reflexivity].
    + intros H. apply Hrc in H. destruct H as (_ & _ & H).
      vm_compute in H. discriminate H.
    + apply Hri.
      split; [apply scalar_In; vm_compute; reflexivity |].
      split; [discriminate | vm_compute; reflexivity].
    + intros H. apply Hri in H. destruct H as (_ & _ & H).
      vm_compute in H. discriminate H.
Defined.

(** The lists and the count the code returns on that table. *)
Example risk_table_results :
  compute_risk_factors risk_table =
    Some [("campuses", PList [PCell (SStr "A"); PCell (SStr "C")]);
          ("instructors", PList [PCell (SStr "I")])]
  /\ (exists kpis, compute_kpis risk_table = Some kpis
        /\ Dict.get "at_risk_instructors" kpis = Some (PInt 1)).
Proof.
  split; [vm_compute; reflexivity |].
  eexists. split; [vm_compute; reflexivity | reflexivity].
Qed.

(* ------------------------------------------------------------------ *)
(** * Empty tables *)

(** On an empty table the digest is not empty and not zero-valued: it
    carries the context label and an error note. *)
Lemma empty_digest_is_not_blank :
  exists digest,
    build_ai_summary no_rows "overall" = Some digest
    /\ Dict.get "error" digest = Some (PStr "No data available in current filter")
    /\ blank (PDict digest) = false.
Proof.
  eexists. split; [reflexivity |]. split; reflexivity.
Qed.

(** C8.  On an empty table none of the four functions raises or divides:
    [compute_kpis] returns an empty mapping, [compute_instructor_performance]
    an empty table, [compute_risk_factors] two empty lists, and
    [build_ai_summary] a digest that holds the context label and an error
    note and nothing else. *)
Theorem empty_table_results (df : DataFrame) (context : string) :
  df_empty df = true ->
  compute_kpis df = Some []
  /\ compute_instructor_performance df = Some {| columns := []; rows := [] |}
  /\ compute_risk_factors df =
       Some [("campuses", PList []); ("instructors", PList [])]
  /\ build_ai_summary df context =
       Some [("context", PStr context);
             ("error", PStr "No data available in current filter")].
Proof.
  intros H.
  unfold compute_kpis, compute_instructor_performance, compute_risk_factors,
    build_ai_summary.
  rewrite H. repeat split.
Qed.

Lemma empty_table_results_witness :
  compute_kpis no_rows = Some []
  /\ compute_instructor_performance no_rows = Some {| columns := []; rows := [] |}
  /\ compute_risk_factors no_rows =
       Some [("campuses", PList []); ("instructors", PList [])]
  /\ build_ai_summary no_rows "campus" =
       Some [("context", PStr "campus");
             ("error", PStr "No data available in current filter")].
Proof.
  apply (empty_table_results no_rows "campus"). reflexivity.
Defined.

(* ------------------------------------------------------------------ *)
(** * The digest for the assistant *)

Lemma canonical_position (df : DataFrame) (k : string) :
  canonical df -> In k canonical_names ->
  exists i, positions k (columns df) = [i].
Proof.
  unfold canonical, canonicalb. rewrite !andb_true_iff.
  intros ((_ & Hall) & _) Hk. rewrite forallb_forall in Hall.
  specialize (Hall k Hk). apply Nat.eqb_eq in Hall.
  destruct (positions k (columns df)) as [| i [| ? ?]]; try discriminate.
  now exists i.
Qed.

Lemma position_has_column (df : DataFrame) (k : string) (i : nat) :
  positions k (columns df) = [i] -> has_column k df = true.
Proof.
  intros P. unfold has_column. apply mem_In.
  assert (H : In i (positions k (columns df))) by (rewrite P; now left).
  apply positions_spec in H. eapply nth_error_In, H.
Qed.

(** Rows paired with the numbers read from one of their cells. *)
Lemma numbers_combine (g : list scalar -> scalar) (rws : list (list scalar)) :
  forall scores, numbers (map g rws) = Some scores ->
    forall r q, In (r, q) (combine rws scores) <->
                In r rws /\ as_number (g r) = Some q.
Proof.
  induction rws as [| a rws IH]; intros scores H r q; cbn in H.
  - injection H as <-. cbn. tauto.
  - destruct (as_number (g a)) as [q0 |] eqn:Ea; [| discriminate].
    destruct (numbers (map g rws)) as [qs |] eqn:Eq; [| discriminate].
    injection H as <-. cbn [combine In]. rewrite (IH qs eq_refl). split.
    + intros [[= <- <-] | (H1 & H2)]; [split; [now left | assumption] |].
      split; [now right | assumption].
    + intros ([<- | H1] & H2); [left; congruence | right; now split].
Qed.

Lemma risk_rows_In (df : DataFrame) (scores : list Q) (i : nat) (r : list scalar) :
  positions "SCORE" (columns df) = [i] ->
  score_column df = Some scores ->
  In r (risk_rows df scores) <->
  In r (rows df) /\ exists q, as_number (cell r i) = Some q /\ (q < 1 # 2)%Q.
Proof.
  intros P Hs. unfold score_column, bind, df_getitem in Hs. rewrite P in Hs.
  pose proof (numbers_combine (fun r => cell r i) (rows df) scores Hs) as Hc.
  unfold risk_rows. rewrite in_map_iff. split.
  - intros ((r0 & q) & <- & H). apply filter_In in H. destruct H as (H & L).
    apply Hc in H. cbn [fst snd] in *. destruct H as (Hr & Hq).
    split; [assumption |]. exists q. split; [assumption | now apply Q_ltb_lt].
  - intros (Hr & q & Hq & L). exists (r, q). split; [reflexivity |].
    apply filter_In. split; [now apply Hc | now apply Q_ltb_lt].
Qed.

Lemma firstn_le {A} (n : nat) (l : list A) : length (firstn n l) <= n.
Proof.
  apply firstn_le_length.
Qed.

(** C9.  On a canonical table that is not empty the digest of
    [build_ai_summary] holds, as preview, the first five at most of the rows
    whose SCORE is below 0.5, cut down to their INSTRUCTOR, CAMPUS, SUBJECT,
    SECTION and STATUS cells; its risk count is the number of all such rows
    (no such row: count 0 and an empty preview); and it holds the number of
    distinct sections, the table having a SECTION column whether a section
    role was resolved or not. *)
Theorem ai_summary_preview (df : DataFrame) (context : string) :
  canonical df -> df_empty df = false ->
  exists scores digest preview section i_score i_inst i_campus i_subject i_section i_status,
    score_column df = Some scores
    /\ build_ai_summary df context = Some digest
    /\ positions "SCORE" (columns df) = [i_score]
    /\ positions "INSTRUCTOR" (columns df) = [i_inst]
    /\ positions "CAMPUS" (columns df) = [i_campus]
    /\ positions "SUBJECT" (columns df) = [i_subject]
    /\ positions "SECTION" (columns df) = [i_section]
    /\ positions "STATUS" (columns df) = [i_status]
    /\ (forall r, In r (risk_rows df scores) <->
          In r (rows df)
          /\ exists q, as_number (cell r i_score) = Some q /\ (q < 1 # 2)%Q)
    /\ Dict.get "at_risk_preview" digest = Some (PList preview)
    /\ preview =
         map (fun r => PDict [("INSTRUCTOR", PCell (cell r i_inst));
                              ("CAMPUS", PCell (cell r i_campus));
                              ("SUBJECT", PCell (cell r i_subject));
                              ("SECTION", PCell (cell r i_section));
                              ("STATUS", PCell (cell r i_status))])
             (firstn 5 (risk_rows df scores))
    /\ length preview <= 5
    /\ Dict.get "risk_count" digest =
         Some (PInt (Z.of_nat (length (risk_rows df scores))))
    /\ (risk_rows df scores = [] ->
          preview = [] /\ Dict.get "risk_count" digest = Some (PInt 0))
    /\ df_getitem df "SECTION" = Some section
    /\ Dict.get "active_sections" digest = Some (PInt (Z.of_nat (nunique section))).
Proof.
  intros Hc Hne.
  destruct (canonical_scores df Hc) as (scores & Hscores & _).
  destruct (canonical_position df "SCORE" Hc) as (i_score & Pscore); [cbn; tauto |].
  destruct (canonical_position df "INSTRUCTOR" Hc) as (i_inst & Pinst); [cbn; tauto |].
  destruct (canonical_position df "CAMPUS" Hc) as (i_campus & Pcampus); [cbn; tauto |].
  destruct (canonical_position df "SUBJECT" Hc) as (i_subject & Psubject); [cbn; tauto |].
  destruct (canonical_position df "SECTION" Hc) as (i_section & Psection); [cbn; tauto |].
  destruct (canonical_position df "STATUS" Hc) as (i_status & Pstatus); [cbn; tauto |].
  assert (Hcols : Nat.eqb (length (columns df)) 0 = false).
  { unfold df_empty in Hne. now apply orb_false_iff in Hne. }
  set (record := fun r => PDict [("INSTRUCTOR", PCell (cell r i_inst));
                                 ("CAMPUS", PCell (cell r i_campus));
                                 ("SUBJECT", PCell (cell r i_subject));
                                 ("SECTION", PCell (cell r i_section));
                                 ("STATUS", PCell (cell r i_status))]).
  assert (Hkeep : filter (fun c => has_column c df) preferred_columns = preferred_columns).
  { unfold preferred_columns. cbn [filter].
    now rewrite (position_has_column _ _ _ Pinst), (position_has_column _ _ _ Pcampus),
      (position_has_column _ _ _ Psubject), (position_has_column _ _ _ Psection),
      (position_has_column _ _ _ Pstatus). }
  assert (Hitems :
            (if Nat.eqb (length (risk_rows df scores)) 0
                || Nat.eqb (length (columns df)) 0
             then []
             else map (record_of (select_positions
                                    (filter (fun c => has_column c df) preferred_columns)
                                    (columns df)))
                      (firstn 5 (risk_rows df scores)))
            = map record (firstn 5 (risk_rows df scores))).
  { rewrite Hcols, orb_false_r, Hkeep.
    destruct (risk_rows df scores) as [| r0 rest]; [reflexivity |].
    cbn [length Nat.eqb]. apply map_ext. intros r.
    unfold select_positions, preferred_columns. cbn [flat_map].
    rewrite Pinst, Pcampus, Psubject, Psection, Pstatus. reflexivity. }
  exists scores. eexists. exists (map record (firstn 5 (risk_rows df scores))).
  exists (map (fun r => cell r i_section) (rows df)).
  exists i_score, i_inst, i_campus, i_subject, i_section, i_status.
  split; [exact Hscores |].
  split.
  { unfold build_ai_summary. rewrite Hne, Hscores. cbn [bind].
    rewrite (df_getitem_one _ _ _ Pstatus), (df_getitem_one _ _ _ Pinst),
      (df_getitem_one _ _ _ Pcampus), (position_has_column _ _ _ Psection),
      (df_getitem_one _ _ _ Psection). cbn [bind].
    rewrite Hitems. reflexivity. }
  repeat match goal with |- _ = [_] /\ _ => split; [assumption |] end.
  split; [intros r; now apply risk_rows_In |].
  split; [reflexivity |]. split; [reflexivity |].
  split; [rewrite length_map; apply firstn_le |].
  split; [reflexivity |].
  split; [intros ->; split; reflexivity |].
  split; [now apply df_getitem_one | reflexivity].
Qed.

Lemma sample_table_canonical : canonical sample_table.
Proof.
  vm_compute. reflexivity.
Qed.

Lemma ai_summary_preview_witness :
  exists digest preview,
    build_ai_summary sample_table "overall" = Some digest
    /\ Dict.get "at_risk_preview" digest = Some (PList preview)
    /\ length preview <= 5
    /\ Dict.get "risk_count" digest = Some (PInt 2).
Proof.
  destruct (ai_summary_preview sample_table "overall")
    as (scores & digest & preview & section & i0 & i1 & i2 & i3 & i4 & i5
        & Hscores & Hdigest & _ & _ & _ & _ & _ & _ & _ & Hpreview & _ & Hlen
        & Hcount & _).
  - vm_compute. reflexivity.
  - vm_compute. reflexivity.
  - exists digest, preview.
    split; [exact Hdigest |]. split; [exact Hpreview |]. split; [exact Hlen |].
    vm_compute in Hscores. injection Hscores as <-. exact Hcount.
Defined.

(** No column of the sample sheet resolves the section role, and yet the
    digest of its canonical table counts the sections: one, the filler
    "Unknown". *)
Lemma sections_counted_without_section_role :
  Dict.get "section" (auto_detect_schema sample_raw) = Some None
  /\ normalize_data sample_raw (auto_detect_schema sample_raw) = Some sample_table
  /\ exists digest,
       build_ai_summary sample_table "overall" = Some digest
       /\ Dict.get "active_sections" digest = Some (PInt 1).
Proof.
  split; [reflexivity |]. split; [reflexivity |].
  eexists. split; [vm_compute; reflexivity | reflexivity].
Qed.

(* ------------------------------------------------------------------ *)
(** * The instructor table *)

Lemma Qle_bool_total (a b : Q) : Qle_bool a b = true \/ Qle_bool b a = true.
Proof.
  rewrite !Qle_bool_iff. destruct (Qlt_le_dec a b) as [H | H]; [left | now right].
  now apply Qlt_le_weak.
Qed.

Lemma float_leb_total (a b : scalar) : float_leb a b = true \/ float_leb b a = true.
Proof.
  unfold float_leb. rewrite (Nat.eqb_sym (float_rank b)).
  destruct (Nat.eqb_spec (float_rank a) (float_rank b)) as [E | N].
  - apply Qle_bool_total.
  - rewrite !Nat.ltb_lt. lia.
Qed.

Lemma float_leb_trans (a b c : scalar) :
  float_leb a b = true -> float_leb b c = true -> float_leb a c = true.
Proof.
  unfold float_leb.
  destruct (Nat.eqb_spec (float_rank a) (float_rank b)) as [E1 | N1];
    destruct (Nat.eqb_spec (float_rank b) (float_rank c)) as [E2 | N2];
    destruct (Nat.eqb_spec (float_rank a) (float_rank c)) as [E3 | N3];
    rewrite ?Nat.ltb_lt, ?Qle_bool_iff; intros H1 H2; try lia.
  eapply Qle_trans; eassumption.
Qed.

(** The rows come out in ascending order of Completion_Pct, the values
    that are not numbers last. *)
Lemma performance_rows_sorted (df : DataFrame) (l : list group_row) :
  performance_rows df = Some l ->
  StronglySorted
    (fun a b => float_leb (Completion_Pct a) (Completion_Pct b) = true) l.
Proof.
  unfold performance_rows, bind.
  destruct (df_getitem df "INSTRUCTOR"); [| discriminate].
  destruct (df_getitem df "CAMPUS"); [| discriminate].
  destruct (df_getitem df "SUBJECT"); [| discriminate].
  destruct (score_column df); [| discriminate].
  intros [= <-]. unfold sort_values.
  apply (sort_by_sorted (fun a b => float_leb (Completion_Pct a) (Completion_Pct b))).
  - intros a b. apply float_leb_total.
  - intros a b c. apply float_leb_trans.
Qed.

Lemma float_leb_finite (p q : Q) :
  float_leb (SFloat p) (SFloat q) = true <-> (p <= q)%Q.
Proof.
  unfold float_leb. cbn. apply Qle_bool_iff.
Qed.

Lemma pair_keys_In (k : scalar * scalar) (keys : list (scalar * scalar)) :
  In k (pair_keys keys) <-> In k keys /\ fst k <> SNaN /\ snd k <> SNaN.
Proof.
  unfold pair_keys.
  rewrite sort_by_In, (unique_In _ pair_eqb_eq), filter_In, andb_true_iff,
    !notna_spec.
  tauto.
Qed.

Lemma pair_keys_NoDup (keys : list (scalar * scalar)) : NoDup (pair_keys keys).
Proof.
  apply sort_by_NoDup, (unique_NoDup _ pair_eqb_eq).
Qed.

(** One row per pair of instructor and campus met in the table. *)
Lemma performance_rows_groups (df : DataFrame) (l : list group_row) :
  performance_rows df = Some l ->
  exists instructor campus subject scores,
    df_getitem df "INSTRUCTOR" = Some instructor
    /\ df_getitem df "CAMPUS" = Some campus
    /\ df_getitem df "SUBJECT" = Some subject
    /\ score_column df = Some scores
    /\ Permutation l (map (make_group (combine instructor campus) subject scores)
                          (pair_keys (combine instructor campus))).
Proof.
  unfold performance_rows, bind.
  destruct (df_getitem df "INSTRUCTOR") as [instructor |]; [| discriminate].
  destruct (df_getitem df "CAMPUS") as [campus |]; [| discriminate].
  destruct (df_getitem df "SUBJECT") as [subject |]; [| discriminate].
  destruct (score_column df) as [scores |]; [| discriminate].
  intros [= <-]. exists instructor, campus, subject, scores.
  repeat split. apply sort_by_perm.
Qed.

Lemma round_half_even_comp (a b : Q) :
  (a == b)%Q -> round_half_even a = round_half_even b.
Proof.
  intros H. unfold round_half_even. rewrite (Qfloor_comp a b H).
  set (f := Qfloor b).
  assert (Hd : (a - inject_Z f == b - inject_Z f)%Q) by now rewrite H.
  unfold Q_ltb.
  rewrite (Qleb_comp _ _ (Qeq_refl (1 # 2)) _ _ Hd).
  rewrite (Qleb_comp _ _ Hd _ _ (Qeq_refl (1 # 2))).
  reflexivity.
Qed.

Lemma round1_comp (a b : Q) : (a == b)%Q -> round1 a = round1 b.
Proof.
  intros H. unfold round1. rewrite (round_half_even_comp (a * 10) (b * 10)).
  - reflexivity.
  - now rewrite H.
Qed.

Lemma numbers_length (col : list scalar) (qs : list Q) :
  numbers col = Some qs -> length qs = length col.
Proof.
  revert qs. induction col as [| v col IH]; intros qs; cbn.
  - now intros [= <-].
  - destruct (as_number v); [| discriminate].
    destruct (numbers col) as [qs' |]; [| discriminate].
    intros [= <-]. cbn. now rewrite (IH qs').
Qed.

Lemma score_column_length (df : DataFrame) (scores : list Q) :
  score_column df = Some scores -> length scores = length (rows df).
Proof.
  unfold score_column, bind.
  destruct (df_getitem df "SCORE") as [col |] eqn:E; [| discriminate].
  intros H. rewrite (numbers_length _ _ H). now apply df_getitem_length in E.
Qed.

Section SelectPair.
Context {A : Type}.

Lemma select_pair_length (k : scalar * scalar) (keys : list (scalar * scalar))
                         (vals : list A) :
  length vals = length keys ->
  length (select_pair k keys vals) = length (filter (fun x => pair_eqb x k) keys).
Proof.
  revert vals. induction keys as [| x keys IH]; intros [| v vals] H;
    try discriminate H; [reflexivity |].
  unfold select_pair in *. cbn [combine filter fst].
  injection H as H. specialize (IH vals H).
  destruct (pair_eqb x k); cbn [map length]; now rewrite IH.
Qed.

Lemma select_pair_In (k : scalar * scalar) (keys : list (scalar * scalar))
                     (vals : list A) (v : A) :
  In v (select_pair k keys vals) -> In v vals.
Proof.
  unfold select_pair. rewrite in_map_iff.
  intros ((x & w) & <- & H). apply filter_In in H. destruct H as (H & _).
  now apply in_combine_r in H.
Qed.
End SelectPair.

Lemma filter_key_nonempty (k : scalar * scalar) (keys : list (scalar * scalar)) :
  In k keys -> 0 < length (filter (fun x => pair_eqb x k) keys).
Proof.
  intros H.
  assert (Hk : In k (filter (fun x => pair_eqb x k) keys)).
  { apply filter_In. split; [assumption | now apply pair_eqb_eq]. }
  destruct (filter _ keys); [contradiction | cbn; lia].
Qed.

Lemma filter_all {A} (f : A -> bool) (l : list A) :
  (forall x, In x l -> f x = true) -> filter f l = l.
Proof.
  induction l as [| x l IH]; intros H; cbn; [reflexivity |].
  rewrite (H x) by now left. f_equal. apply IH. intros y Hy. apply H. now right.
Qed.

(** A group without blank subject cells has the percentage of the
    specification: score sum over row count. *)
Lemma make_group_row_count (keys : list (scalar * scalar)) (subject : list scalar)
                           (scores : list Q) (k : scalar * scalar) :
  length subject = length keys -> length scores = length keys ->
  In k keys ->
  (forall s, In s (select_pair k keys subject) -> s <> SNaN) ->
  Completion_Pct (make_group keys subject scores k)
  = SFloat (row_count_pct keys scores k).
Proof.
  intros Hsub Hsc Hk Hfull. unfold make_group, row_count_pct. cbn [Completion_Pct].
  rewrite filter_all by (intros s Hs; apply notna_spec; now apply Hfull).
  rewrite (select_pair_length k keys subject Hsub),
    (select_pair_length k keys scores Hsc).
  pose proof (filter_key_nonempty k keys Hk) as Hpos.
  set (n := length (filter (fun x => pair_eqb x k) keys)) in *.
  unfold float_div.
  destruct (Z.eqb_spec (Z.of_nat n) 0) as [E | _]; [lia |].
  cbn [float_map]. f_equal. apply round1_comp.
  now rewrite Qred_correct.
Qed.

(** What [compute_instructor_performance] lists on a table that is not
    empty: one row per pair of instructor and campus, in ascending order of
    Completion_Pct, which is the row-count percentage for every group that
    has no blank subject cell. *)
Lemma performance_rows_complete (df : DataFrame) (l : list group_row) :
  performance_rows df = Some l ->
  exists instructor campus subject scores,
    df_getitem df "INSTRUCTOR" = Some instructor
    /\ df_getitem df "CAMPUS" = Some campus
    /\ df_getitem df "SUBJECT" = Some subject
    /\ score_column df = Some scores
    /\ StronglySorted
         (fun a b => float_leb (Completion_Pct a) (Completion_Pct b) = true) l
    /\ (forall g, In g l ->
          In (INSTRUCTOR g, CAMPUS g) (combine instructor campus)
          /\ INSTRUCTOR g <> SNaN /\ CAMPUS g <> SNaN)
    /\ (forall g, In g l ->
          (forall s, In s (select_pair (INSTRUCTOR g, CAMPUS g)
                                       (combine instructor campus) subject) ->
                     s <> SNaN) ->
          Completion_Pct g
          = SFloat (row_count_pct (combine instructor campus) scores
                                  (INSTRUCTOR g, CAMPUS g))).
Proof.
  intros Hl.
  destruct (performance_rows_groups df l Hl)
    as (instructor & campus & subject & scores & Hi & Hc & Hs & Hsc & Hperm).
  exists instructor, campus, subject, scores.
  split; [exact Hi |]. split; [exact Hc |]. split; [exact Hs |].
  split; [exact Hsc |]. split; [now apply performance_rows_sorted with (df := df) |].
  assert (Hlen : length (combine instructor campus) = length (rows df)).
  { rewrite length_combine, (df_getitem_length _ _ _ Hi), (df_getitem_length _ _ _ Hc).
    apply Nat.min_id. }
  assert (Hg : forall g, In g l ->
            exists k, In k (pair_keys (combine instructor campus))
                      /\ g = make_group (combine instructor campus) subject scores k).
  { intros g Hin. apply (Permutation_in _ Hperm), in_map_iff in Hin.
    destruct Hin as (k & <- & Hk). now exists k. }
  split.
  - intros g Hin. destruct (Hg g Hin) as (k & Hk & ->).
    apply pair_keys_In in Hk. cbn [INSTRUCTOR CAMPUS make_group].
    now rewrite <- surjective_pairing.
  - intros g Hin. destruct (Hg g Hin) as (k & Hk & ->).
    cbn [INSTRUCTOR CAMPUS make_group]. rewrite <- surjective_pairing.
    apply pair_keys_In in Hk. destruct Hk as (Hk & _).
    apply make_group_row_count; [| | exact Hk].
    + now rewrite Hlen, (df_getitem_length _ _ _ Hs).
    + now rewrite Hlen, (score_column_length _ _ Hsc).
Qed.

(** C7.  A group with a blank subject cell: [Total_Items] counts the
    subject cells that are not empty, so the two completed rows of instructor
    A at campus X give 200.0 per cent where the score sum over the row count
    gives 100.0. *)
Theorem blank_subject_inflates_pct :
  normalize_data blank_subject_sheet (auto_detect_schema blank_subject_sheet)
    = Some blank_subject_table
  /\ compute_instructor_performance blank_subject_table
     = Some {| columns := ["INSTRUCTOR"; "CAMPUS"; "Total_Items";
                           "Completed_Score_Sum"; "Completion_Pct"; "Status"];
               rows := [[SStr "B"; SStr "Y"; SInt 1; SFloat 0; SFloat 0;
                         SStr "Critical 🔴"];
                        [SStr "A"; SStr "X"; SInt 1; SFloat 2; SFloat 200;
                         SStr "On Track ✅"]] |}
  /\ row_count_pct [(SStr "A", SStr "X"); (SStr "A", SStr "X"); (SStr "B", SStr "Y")]
                   [1; 1; 0]%Q (SStr "A", SStr "X") = 100%Q.
Proof.
  split; [reflexivity |]. split; vm_compute; reflexivity.
Qed.

(* ================================================================== *)
(** * Further properties of the code *)

(* ------------------------------------------------------------------ *)
(** ** Header keys *)

Lemma all_chars_impl (p q : ascii -> bool) (s : string) :
  (forall c, p c = true -> q c = true) ->
  all_chars p s = true -> all_chars q s = true.
Proof.
  intros H. induction s as [| c t IH]; [reflexivity |]. cbn [all_chars].
  intros (Hc & Ht)%andb_prop. now rewrite (H c Hc), (IH Ht).
Qed.

Lemma all_chars_app (p : ascii -> bool) (a b : string) :
  all_chars p (a ++ b) = all_chars p a && all_chars p b.
Proof.
  induction a as [| c t IH]; [reflexivity |]. cbn [append all_chars].
  now rewrite IH, andb_assoc.
Qed.

Lemma all_chars_join (p : ascii -> bool) (l : list string) :
  forallb (all_chars p) l = true -> all_chars p (PyStr.join l) = true.
Proof.
  induction l as [| x l IH]; [reflexivity |]. cbn [forallb].
  intros (Hx & Hl)%andb_prop. now rewrite join_cons, all_chars_app, Hx, (IH Hl).
Qed.

Lemma forallb_flat_map {A B} (q : B -> bool) (f : A -> list B) (l : list A) :
  (forall x, forallb q (f x) = true) -> forallb q (flat_map f l) = true.
Proof.
  intros H. induction l as [| x l IH]; [reflexivity |]. cbn [flat_map].
  now rewrite forallb_app, H, IH.
Qed.

Lemma filter_chars_app (keep : ascii -> bool) (a b : string) :
  PyStr.filter_chars keep (a ++ b)
  = (PyStr.filter_chars keep a ++ PyStr.filter_chars keep b)%string.
Proof.
  induction a as [| c t IH]; [reflexivity |]. cbn [append PyStr.filter_chars].
  destruct (keep c); cbn [append]; now rewrite IH.
Qed.

Lemma key_char_fixed (c : ascii) :
  key_char c = true ->
  ascii_byte c = true /\ PyStr.lower_char c = c /\ is_alnum c = true.
Proof.
  destruct c as [[] [] [] [] [] [] [] []]; vm_compute; intros H;
    first [repeat split; reflexivity | discriminate H].
Qed.

Lemma alnum_key_char (c : ascii) :
  no_upper c = true -> is_alnum c = true -> key_char c = true.
Proof.
  unfold no_upper, is_alnum, key_char.
  destruct (PyStr.is_lower c), (PyStr.is_upper c), (PyStr.is_digit c);
    intros H1 H2; first [reflexivity | discriminate].
Qed.

Lemma lower_upper_char (c : ascii) :
  PyStr.lower_char (PyStr.upper_char c) = PyStr.lower_char c.
Proof.
  destruct c as [[] [] [] [] [] [] [] []]; reflexivity.
Qed.

Lemma lower_lower_char (c : ascii) :
  PyStr.lower_char (PyStr.lower_char c) = PyStr.lower_char c.
Proof.
  destruct c as [[] [] [] [] [] [] [] []]; reflexivity.
Qed.

Lemma upper_char_ascii (c : ascii) :
  ascii_byte (PyStr.upper_char c) = ascii_byte c.
Proof.
  destruct c as [[] [] [] [] [] [] [] []]; reflexivity.
Qed.

Lemma lower_ch_no_upper (ch : string) :
  forallb (all_chars no_upper) (lower_ch ch) = true.
Proof.
  destruct (cased_cases PyStr.lower_special PyStr.lower_char ch)
    as [(out & Hin & E) | (_ & E)]; unfold lower_ch; rewrite E.
  - apply (lower_special_In _ _ Hin).
  - cbn [forallb]. rewrite andb_true_r. clear.
    induction ch as [| c t IH]; [reflexivity |]. cbn [PyStr.map_chars all_chars].
    now rewrite lower_char_no_upper, IH.
Qed.

(** Lower-cased text holds no ASCII capital. *)
Lemma lower_no_upper (s : string) : all_chars no_upper (PyStr.lower s) = true.
Proof.
  unfold PyStr.lower. apply all_chars_join, forallb_flat_map, lower_ch_no_upper.
Qed.

Lemma normalize_header_key_chars (header : string) :
  all_chars key_char (normalize_header header) = true.
Proof.
  unfold normalize_header. pose proof (lower_no_upper header) as H.
  induction (PyStr.lower header) as [| c t IH]; [reflexivity |].
  cbn [all_chars PyStr.filter_chars] in *. apply andb_prop in H.
  destruct H as (Hc & Ht). destruct (is_alnum c) eqn:E; [| now apply IH].
  cbn [all_chars]. now rewrite (alnum_key_char c Hc E), (IH Ht).
Qed.

Lemma key_text_fixed (s : string) :
  all_chars key_char s = true -> normalize_header s = s.
Proof.
  intros H. unfold normalize_header. rewrite lower_ascii.
  - induction s as [| c t IH]; [reflexivity |]. cbn [all_chars] in H.
    apply andb_prop in H. destruct H as (Hc & Ht).
    destruct (key_char_fixed c Hc) as (_ & El & Ea).
    cbn [PyStr.map_chars PyStr.filter_chars]. now rewrite El, Ea, (IH Ht).
  - apply (all_chars_impl key_char); [| exact H].
    intros c Hc. apply (key_char_fixed c Hc).
Qed.

(** X1.  The key of a header holds lower-case letters and digits only, and
    taking the key of a key changes nothing. *)
Theorem normalize_header_idempotent (header : string) :
  all_chars key_char (normalize_header header) = true
  /\ normalize_header (normalize_header header) = normalize_header header.
Proof.
  split; [apply normalize_header_key_chars |].
  apply key_text_fixed, normalize_header_key_chars.
Qed.

(** Lower-casing goes through a concatenation whose second part begins
    with a character. *)
Lemma lower_app (a b : string) :
  PyStr.starts_cont b = false ->
  PyStr.lower (a ++ b) = (PyStr.lower a ++ PyStr.lower b)%string.
Proof.
  intros Hb. unfold PyStr.lower.
  now rewrite (chars_app _ _ Hb), flat_map_app, join_app.
Qed.

Lemma normalize_header_app (a b : string) :
  PyStr.starts_cont b = false ->
  normalize_header (a ++ b) = (normalize_header a ++ normalize_header b)%string.
Proof.
  intros Hb. unfold normalize_header.
  now rewrite (lower_app _ _ Hb), filter_chars_app.
Qed.

Lemma lower_ch_twice (ch : string) :
  flat_map lower_ch (lower_ch ch) = lower_ch ch.
Proof.
  destruct (cased_cases PyStr.lower_special PyStr.lower_char ch)
    as [(out & Hin & E) | (Hno & E)]; unfold lower_ch at 2 3; rewrite E.
  - apply (lower_special_In _ _ Hin).
  - cbn [flat_map]. rewrite app_nil_r.
    destruct (cased_cases PyStr.lower_special PyStr.lower_char
                (PyStr.map_chars PyStr.lower_char ch))
      as [(out & Hin & _) | (_ & E')].
    + exfalso. destruct (lower_special_keys _ _ Hin) as (Hk & _).
      rewrite (map_lower_fixed _ Hk) in Hin. exact (Hno _ Hin).
    + unfold lower_ch. rewrite E'. f_equal.
      clear. induction ch as [| c t IH]; [reflexivity |]. cbn [PyStr.map_chars].
      now rewrite lower_lower_char, IH.
Qed.

Lemma lower_lower (s : string) : PyStr.lower (PyStr.lower s) = PyStr.lower s.
Proof.
  unfold PyStr.lower at 1. rewrite chars_lower. unfold PyStr.lower.
  fold lower_ch. f_equal.
  induction (PyStr.chars s) as [| ch l IH]; [reflexivity |].
  cbn [flat_map]. now rewrite flat_map_app, lower_ch_twice, IH.
Qed.

Lemma normalize_header_lower (header : string) :
  normalize_header (PyStr.lower header) = normalize_header header.
Proof.
  unfold normalize_header. now rewrite lower_lower.
Qed.

Lemma normalize_header_upper (header : string) :
  ascii_text header = true ->
  normalize_header (PyStr.upper header) = normalize_header header.
Proof.
  intros H. unfold normalize_header.
  rewrite (upper_ascii _ H), (lower_ascii _ H), lower_ascii.
  - f_equal. clear. induction header as [| c t IH]; [reflexivity |].
    cbn [PyStr.map_chars]. now rewrite lower_upper_char, IH.
  - revert H. unfold ascii_text. clear.
    induction header as [| c t IH]; [reflexivity |].
    cbn [PyStr.map_chars all_chars]. intros (Hc & Ht)%andb_prop.
    now rewrite upper_char_ascii, Hc, (IH Ht).
Qed.

(** X2.  What does not count in a header.  Lower-casing it leaves the key
    the same, and so does upper-casing when the header is ASCII text; the
    key of a concatenation is the concatenation of the keys; hence a piece
    of text whose own key is empty (spaces, punctuation, accented letters)
    can be taken out of a header anywhere.  The parts that follow another
    are texts: they begin with a character, not inside one. *)
Theorem normalize_header_insensitive (a x b : string) :
  PyStr.starts_cont x = false -> PyStr.starts_cont b = false ->
  normalize_header (PyStr.lower a) = normalize_header a
  /\ (ascii_text a = true -> normalize_header (PyStr.upper a) = normalize_header a)
  /\ normalize_header (a ++ b) = (normalize_header a ++ normalize_header b)%string
  /\ (normalize_header x = ""%string ->
      normalize_header (a ++ x ++ b) = normalize_header (a ++ b)).
Proof.
  intros Hx Hb.
  split; [apply normalize_header_lower |].
  split; [apply normalize_header_upper |].
  split; [now apply normalize_header_app |].
  intros E.
  assert (Hxb : PyStr.starts_cont (x ++ b) = false)
    by (destruct x; [exact Hb | exact Hx]).
  now rewrite (normalize_header_app a _ Hxb), (normalize_header_app x b Hb), E,
    (normalize_header_app a b Hb).
Qed.

Lemma normalize_header_insensitive_witness :
  normalize_header (PyStr.upper "Trainer Name") = normalize_header "Trainer Name"
  /\ normalize_header ("Trainer" ++ (" " ++ PyStr.utf8 0xE9 ++ "-") ++ "Name")
     = normalize_header ("Trainer" ++ "Name").
Proof.
  split.
  - apply (normalize_header_insensitive "Trainer Name" "" "");
      reflexivity.
  - apply (normalize_header_insensitive "Trainer"
             (" " ++ PyStr.utf8 0xE9 ++ "-") "Name"); reflexivity.
Defined.

(* ------------------------------------------------------------------ *)
(** ** Schema resolution *)

Lemma find_map {A B} (f : B -> bool) (g : A -> B) (l : list A) :
  find f (map g l) = option_map g (find (fun x => f (g x)) l).
Proof.
  induction l as [| x l IH]; cbn; [reflexivity |].
  destruct (f (g x)); [reflexivity | exact IH].
Qed.

Lemma find_ext {A} (f g : A -> bool) (l : list A) :
  (forall x, f x = g x) -> find f l = find g l.
Proof.
  intros H. induction l as [| x l IH]; cbn; [reflexivity |].
  rewrite H. now destruct (g x).
Qed.

(** X3.  Resolution looks at the keys of the headers only: rewriting
    every header in a way that keeps its key (another letter case, other
    punctuation) gives the same roles, each set to the rewritten header. *)
Theorem auto_detect_schema_by_key (df : DataFrame) (g : string -> string) :
  (forall c, normalize_header (g c) = normalize_header c) ->
  auto_detect_schema {| columns := map g (columns df); rows := rows df |}
  = map (fun rv => (fst rv, option_map g (snd rv))) (auto_detect_schema df).
Proof.
  intros Hg. rewrite !auto_detect_schema_eq. cbv zeta. cbn [columns map fst snd].
  rewrite !find_map.
  assert (E : forall test : string -> bool,
            find (fun x => test (normalize_header (g x))) (columns df)
            = find (fun c => test (normalize_header c)) (columns df)).
  { intros test. apply find_ext. intros c. now rewrite Hg. }
  now rewrite (E (any_keyword campus_keywords)), (E (any_keyword inst_keywords)),
    (E (any_keyword subject_keywords)), (E (any_keyword section_keywords)),
    (E status_test), (E (any_keyword week_keywords)).
Qed.

Lemma auto_detect_schema_by_key_witness :
  auto_detect_schema
    {| columns := map PyStr.lower (columns six_headers);
       rows := rows six_headers |}
  = [("campus", Some "center"); ("instructor", Some "trainer name");
     ("subject", Some "module"); ("section", Some "batch no");
     ("status", Some "current state"); ("week", Some "week no")].
Proof.
  rewrite (auto_detect_schema_by_key six_headers PyStr.lower).
  - reflexivity.
  - apply normalize_header_lower.
Defined.

(** X4.  The mapping always has the six roles, in the order campus,
    instructor, subject, section, status, week, and a role is only ever set
    to a header of the table. *)
Theorem auto_detect_schema_roles (df : DataFrame) :
  Dict.keys (auto_detect_schema df) = role_names
  /\ (forall r c, Dict.get r (auto_detect_schema df) = Some (Some c) ->
        In c (columns df)).
Proof.
  rewrite auto_detect_schema_eq. cbv zeta. split; [reflexivity |].
  intros r c. cbn [Dict.get].
  repeat match goal with
         | |- (if ?b then _ else _) = _ -> _ =>
             destruct b; [intros [= H]; now apply find_some in H |]
         end.
  discriminate.
Qed.

Lemma auto_detect_schema_roles_witness :
  In "Status" (columns status_then_expected).
Proof.
  apply (proj2 (auto_detect_schema_roles status_then_expected) "status").
  reflexivity.
Defined.

Lemma find_none_all {A} (f : A -> bool) (l : list A) :
  (forall x, In x l -> f x = false) -> find f l = None.
Proof.
  induction l as [| x l IH]; intros H; cbn; [reflexivity |].
  rewrite (H x) by now left. apply IH. intros y Hy. apply H. now right.
Qed.

Lemma any_keyword_none (keywords : list string) (c : string) :
  (forall k, In k keywords -> ~ occurs_in k (normalize_header c)) ->
  any_keyword keywords (normalize_header c) = false.
Proof.
  intros H. destruct (any_keyword keywords (normalize_header c)) eqn:E;
    [| reflexivity].
  apply any_keyword_spec in E. destruct E as (k & Hk & Ho).
  contradiction (H k Hk Ho).
Qed.

(** X5.  When no keyword of any role occurs in the key of any header (in
    particular when the table has no columns), every role stays unset. *)
Theorem auto_detect_schema_no_match (df : DataFrame) :
  (forall c k, In c (columns df) -> In k all_keywords ->
     ~ occurs_in k (normalize_header c)) ->
  auto_detect_schema df = all_unset.
Proof.
  intros H. rewrite auto_detect_schema_eq. cbv beta zeta.
  assert (Hk : forall keywords, incl keywords all_keywords ->
            find (fun c => any_keyword keywords (normalize_header c)) (columns df)
            = None).
  { intros keywords Hincl. apply find_none_all. intros c Hc.
    apply any_keyword_none. intros k Hin. apply (H c k Hc). now apply Hincl. }
  assert (Hs : find (fun c => status_test (normalize_header c)) (columns df) = None).
  { apply find_none_all. intros c Hc. unfold status_test.
    rewrite any_keyword_none; [reflexivity |].
    intros k Hin. apply (H c k Hc). unfold all_keywords.
    rewrite !in_app_iff. tauto. }
  rewrite Hs, !Hk; [reflexivity | | | | |];
    intros k Hin; unfold all_keywords; rewrite !in_app_iff; tauto.
Qed.

Lemma auto_detect_schema_no_match_witness :
  auto_detect_schema (headers_only ["Notes"; "Row ID"]) = all_unset.
Proof.
  apply auto_detect_schema_no_match.
  intros c k Hc Hk. apply contains_false.
  simpl in Hc. destruct Hc as [<- | [<- | []]];
    (simpl in Hk;
     repeat (destruct Hk as [<- | Hk]; [vm_compute; reflexivity |]);
     contradiction).
Defined.

(* ------------------------------------------------------------------ *)
(** ** Scores of numeric cells *)

Lemma uint_text_chars (d : Decimal.uint) :
  all_chars number_char (NilEmpty.string_of_uint d) = true.
Proof.
  induction d; cbn; try reflexivity; exact IHd.
Qed.

Lemma Z_to_string_chars (n : Z) :
  all_chars number_char (PyStr.Z_to_string n) = true.
Proof.
  unfold PyStr.Z_to_string, NilZero.string_of_int, NilZero.string_of_uint.
  destruct (Z.to_int n) as [d | d]; destruct d; cbn; try reflexivity;
    apply uint_text_chars.
Qed.

Lemma number_char_fixed (c : ascii) :
  number_char c = true ->
  ascii_byte c = true /\ PyStr.lower_char c = c
  /\ not_space (String c "") = true.
Proof.
  destruct c as [[] [] [] [] [] [] [] []]; vm_compute; intros H;
    first [repeat split; reflexivity | discriminate H].
Qed.

Lemma number_text_ascii (s : string) :
  all_chars number_char s = true -> ascii_text s = true.
Proof.
  apply all_chars_impl. intros c Hc. apply (number_char_fixed c Hc).
Qed.

Lemma number_text_lower (s : string) :
  all_chars number_char s = true -> PyStr.lower s = s.
Proof.
  intros H. rewrite (lower_ascii _ (number_text_ascii _ H)).
  induction s as [| c t IH]; [reflexivity |]. cbn [all_chars] in H.
  apply andb_prop in H. destruct H as (Hc & Ht).
  destruct (number_char_fixed c Hc) as (_ & El & _).
  cbn [PyStr.map_chars]. now rewrite El, (IH Ht).
Qed.

Lemma number_text_strip (s : string) :
  all_chars number_char s = true -> PyStr.strip s = s.
Proof.
  intros H. apply strip_not_space.
  rewrite (chars_ascii _ (number_text_ascii _ H)).
  induction s as [| c t IH]; [reflexivity |]. cbn [all_chars] in H.
  apply andb_prop in H. destruct H as (Hc & Ht).
  destruct (number_char_fixed c Hc) as (_ & _ & Es).
  cbn [list_ascii_of_string map forallb]. now rewrite Es, (IH Ht).
Qed.

Lemma Z_to_string_one (n : Z) : PyStr.Z_to_string n = "1" <-> n = 1%Z.
Proof.
  split; [| now intros ->].
  unfold PyStr.Z_to_string. intros H.
  apply DecimalZ.to_int_inj. change (Z.to_int 1) with (Decimal.Pos (Decimal.D1 Decimal.Nil)).
  destruct (Z.to_int n) as [d | d]; [| discriminate H].
  cbn in H. f_equal.
  destruct d; try discriminate H; cbn in H.
  injection H as H. now destruct d.
Qed.

(** X6.  An integer status counts as completed when it is 1 and as not
    started otherwise; no integer scores one half. *)
Theorem get_score_integer (n : Z) :
  get_score (SInt n) = if (n =? 1)%Z then 1%Q else 0%Q.
Proof.
  unfold get_score. cbn [py_str].
  pose proof (Z_to_string_chars n) as Hc.
  rewrite (number_text_lower _ Hc), (number_text_strip _ Hc).
  destruct (Z.eqb_spec n 1) as [-> | N]; [reflexivity |].
  assert (H1 : PyStr.Z_to_string n <> "1") by (now rewrite Z_to_string_one).
  assert (Hw : forall w, all_chars number_char w = false ->
                 String.eqb (PyStr.Z_to_string n) w = false).
  { intros w Hf. destruct (String.eqb_spec (PyStr.Z_to_string n) w) as [E | _];
      [| reflexivity].
    rewrite E in Hc. congruence. }
  unfold PyStr.mem, done_words, progress_words. cbn [existsb].
  destruct (String.eqb_spec (PyStr.Z_to_string n) "1") as [E | _];
    [contradiction |].
  now rewrite !Hw by reflexivity.
Qed.

(* ------------------------------------------------------------------ *)
(** ** From the normalizer to the aggregator *)

Lemma required_position (df : DataFrame) (m : Dict.t (option string)) (k : string) :
  In k required_keys ->
  length (positions k (renamed_columns df m)) <= 1 ->
  exists i, positions k (filled_columns df m) = [i].
Proof.
  intros Hk L. unfold filled_columns, positions in *. rewrite positions_from_app.
  set (rc := renamed_columns df m) in *. cbn [Nat.add].
  destruct (in_dec string_dec k rc) as [Hin | Hout].
  - rewrite (positions_from_absent _ _ (added_keys rc required_keys))
      by (rewrite added_keys_In; tauto).
    rewrite app_nil_r.
    pose proof (positions_from_present 0 _ _ Hin) as P.
    destruct (positions_from 0 k rc) as [| p [| q rest]];
      [contradiction | now exists p | cbn in L; lia].
  - rewrite (positions_from_absent _ _ rc Hout). cbn [app].
    destruct (positions_from_one (length rc) k (added_keys rc required_keys))
      as (j & _ & E).
    + apply added_keys_NoDup, required_keys_NoDup.
    + now apply added_keys_In.
    + now exists (length rc + j).
Qed.

Lemma score_position (df : DataFrame) (m : Dict.t (option string)) :
  length (positions "SCORE" (renamed_columns df m)) <= 1 ->
  exists i, positions "SCORE" (set_columns (filled_columns df m) "SCORE") = [i].
Proof.
  intros L. unfold set_columns.
  destruct (PyStr.mem "SCORE" (filled_columns df m)) eqn:M.
  - apply mem_In in M. unfold filled_columns, positions in *.
    rewrite positions_from_app.
    rewrite (positions_from_absent _ _ (added_keys _ required_keys)).
    + rewrite app_nil_r.
      apply in_app_or in M. destruct M as [M | M].
      * pose proof (positions_from_present 0 _ _ M) as P.
        destruct (positions_from 0 "SCORE" (renamed_columns df m)) as [| p [| q rest]];
          [contradiction | now exists p | cbn in L; lia].
      * apply added_keys_In in M. destruct M as (M & _).
        contradiction (score_not_required M).
    + rewrite added_keys_In. intros (H & _). exact (score_not_required H).
  - apply mem_false in M. unfold positions. rewrite positions_from_app.
    rewrite (positions_from_absent _ _ _ M). cbn. eauto.
Qed.

Lemma well_formedb_spec (df : DataFrame) : well_formedb df = true <-> well_formed df.
Proof.
  unfold well_formedb, well_formed. rewrite forallb_forall, Forall_forall.
  split; intros H r Hr; specialize (H r Hr); now apply Nat.eqb_eq.
Qed.

Lemma get_score_is_score (v : scalar) : is_score (SFloat (get_score v)) = true.
Proof.
  cbn. destruct (get_score_cases v) as [(_ & ->) | [(_ & _ & ->) | (_ & _ & ->)]];
    reflexivity.
Qed.

Lemma normalize_canonical (df : DataFrame) (m : Dict.t (option string)) :
  well_formed df ->
  (forall k, In k canonical_names ->
     length (positions k (renamed_columns df m)) <= 1) ->
  exists out, normalize_data df m = Some out /\ canonical out.
Proof.
  intros Hwf Hone.
  assert (Hst : length (positions "STATUS" (renamed_columns df m)) <= 1)
    by (apply Hone; cbn; tauto).
  destruct (normalize_data_spec df m Hwf Hst)
    as (out & status & Hout & Hwfo & _ & _ & _ & _ & _ & _ & Hstatus & Hscore).
  exists out. split; [exact Hout |].
  destruct (status_position df m Hst) as (i & _ & P).
  rewrite (normalize_data_eq df m i P) in Hout. injection Hout as Hout.
  assert (Hcols : columns out = set_columns (filled_columns df m) "SCORE")
    by now rewrite <- Hout.
  unfold canonical, canonicalb. rewrite !andb_true_iff. repeat split.
  - now apply well_formedb_spec.
  - apply forallb_forall. intros k Hk. apply Nat.eqb_eq. rewrite Hcols.
    unfold canonical_names in Hk. apply in_app_or in Hk.
    destruct Hk as [Hk | [<- | []]].
    + rewrite set_columns_positions
        by (intros ->; exact (score_not_required Hk)).
      destruct (required_position df m k Hk) as (j & ->); [| reflexivity].
      apply Hone. unfold canonical_names. apply in_or_app. now left.
    + destruct (score_position df m) as (j & ->); [| reflexivity].
      apply Hone. cbn. tauto.
  - destruct (score_position df m) as (j & Pj); [apply Hone; cbn; tauto |].
    rewrite <- Hcols in Pj. rewrite (df_getitem_one _ _ _ Pj).
    rewrite (Hscore j).
    + rewrite forallb_forall. intros v Hv. apply in_map_iff in Hv.
      destruct Hv as (w & <- & _). apply get_score_is_score.
    + apply positions_spec. rewrite Pj. now left.
Qed.

(** X7.  The table of [normalize_data] is canonical, hence fit for the
    aggregator, whenever the renaming leaves no canonical name on two
    columns. *)
Theorem normalize_data_canonical (df : DataFrame) (m : Dict.t (option string)) :
  well_formed df ->
  (forall k, In k canonical_names ->
     length (positions k (renamed_columns df m)) <= 1) ->
  exists out, normalize_data df m = Some out /\ canonical out.
Proof.
  exact (normalize_canonical df m).
Qed.

Lemma normalize_data_canonical_witness :
  exists out,
    normalize_data sample_raw (auto_detect_schema sample_raw) = Some out
    /\ canonical out.
Proof.
  apply (normalize_data_canonical sample_raw (auto_detect_schema sample_raw)).
  - unfold well_formed. simpl. repeat constructor.
  - intros k Hk. simpl in Hk.
    repeat (destruct Hk as [<- | Hk]; [vm_compute; lia |]). contradiction.
Defined.

Lemma normalize_data_success (df : DataFrame) (m : Dict.t (option string))
                             (out : DataFrame) :
  normalize_data df m = Some out ->
  length (positions "STATUS" (renamed_columns df m)) <= 1.
Proof.
  unfold normalize_data. rewrite fill_unknown_eq.
  cbn [df_rename columns rows]. fold (renamed_columns df m).
  unfold df_getitem. cbn [columns].
  unfold positions. rewrite positions_from_app.
  destruct (positions_from 0 "STATUS" (renamed_columns df m)) as [| p [| q rest]];
    cbn [app length]; try lia.
  discriminate.
Qed.

Lemma df_getitem_position (df : DataFrame) (k : string) (col : list scalar) :
  df_getitem df k = Some col ->
  exists i, positions k (columns df) = [i]
            /\ col = map (fun r => cell r i) (rows df).
Proof.
  unfold df_getitem.
  destruct (positions k (columns df)) as [| i [| ? ?]]; try discriminate.
  intros [= <-]. now exists i.
Qed.

Lemma map_eq_pointwise {A B} (f g : A -> B) (l : list A) :
  map f l = map g l -> forall x, In x l -> f x = g x.
Proof.
  induction l as [| a l IH]; cbn; [intros _ x [] |].
  intros [= Ha Hl] x [<- | Hx]; [exact Ha | now apply IH].
Qed.

Lemma put_cell_same (cols : list string) (k : string) (v : scalar) (r : list scalar) :
  (forall j, j < length r -> nth_error cols j = Some k -> cell r j = v) ->
  put_cell cols k v r = r.
Proof.
  revert r. induction cols as [| c cols IH]; intros [| x r] H; cbn; try reflexivity.
  f_equal.
  - destruct (String.eqb_spec c k) as [-> | _]; [| reflexivity].
    symmetry. apply (H 0); [cbn; lia | reflexivity].
  - apply IH. intros j Hj Hn. apply (H (S j)); [cbn; lia | exact Hn].
Qed.

Lemma rename_nothing (df : DataFrame) : renamed_columns df all_unset = columns df.
Proof.
  unfold renamed_columns. cbn. rewrite <- (map_id (columns df)) at 2.
  apply map_ext. reflexivity.
Qed.

Lemma added_keys_none (cols ks : list string) :
  (forall k, In k ks -> In k cols) -> added_keys cols ks = [].
Proof.
  intros H. unfold added_keys. induction ks as [| k ks IH]; cbn; [reflexivity |].
  assert (M : PyStr.mem k cols = true) by (apply mem_In, H; now left).
  rewrite M. cbn. apply IH. intros k' Hk'. apply H. now right.
Qed.

(** X8.  Normalising a normalised table again, with no role set, gives
    the same table back: labels, rows and scores. *)
Theorem normalize_data_idempotent (df : DataFrame) (m : Dict.t (option string))
                                  (out : DataFrame) :
  well_formed df ->
  normalize_data df m = Some out ->
  normalize_data out all_unset = Some out.
Proof.
  intros Hwf Hout.
  pose proof (normalize_data_success df m out Hout) as Hst.
  destruct (normalize_data_spec df m Hwf Hst)
    as (out' & status & Hout' & Hwfo & _ & _ & _ & Hnames & _ & _ & Hstatus & Hscore).
  assert (out' = out) by congruence. subst out'.
  destruct (df_getitem_position _ _ _ Hstatus) as (i & P & ->).
  assert (Hadd : added_keys (renamed_columns out all_unset) required_keys = []).
  { rewrite rename_nothing. apply added_keys_none. intros k Hk.
    apply Hnames. unfold canonical_names. apply in_or_app. now left. }
  assert (Hfc : filled_columns out all_unset = columns out).
  { unfold filled_columns. now rewrite Hadd, rename_nothing, app_nil_r. }
  rewrite (normalize_data_eq out all_unset i) by now rewrite Hfc.
  rewrite Hfc, Hadd. cbn [length unknown_column repeat].
  assert (Hmem : PyStr.mem "SCORE" (columns out) = true).
  { apply mem_In, Hnames. cbn. tauto. }
  unfold set_columns, set_row. rewrite Hmem.
  destruct out as [cols rws]. cbn [columns rows] in *. do 2 f_equal.
  rewrite <- (map_id rws) at 2. apply map_ext_in. intros r Hr.
  rewrite app_nil_r. apply put_cell_same. intros j _ Hj.
  pose proof (Hscore j Hj) as E. rewrite map_map in E.
  apply (map_eq_pointwise _ _ _ E r Hr).
Qed.

Lemma normalize_data_idempotent_witness :
  normalize_data sample_table all_unset = Some sample_table.
Proof.
  apply (normalize_data_idempotent sample_raw (auto_detect_schema sample_raw)).
  - unfold well_formed. simpl. repeat constructor.
  - reflexivity.
Defined.

(** X9.  A role that the mapping sets to a column the table does not have
    is treated like an unset role: its field holds "Unknown" in every row,
    provided no raw column already bears its canonical name. *)
Theorem normalize_data_missing_column (df : DataFrame) (m : Dict.t (option string))
                                      (r x : string) :
  well_formed df ->
  length (positions "STATUS" (renamed_columns df m)) <= 1 ->
  Dict.keys m = role_names ->
  Dict.get r m = Some (Some x) ->
  ~ In x (columns df) ->
  ~ In (PyStr.upper r) (columns df) ->
  exists out,
    normalize_data df m = Some out
    /\ df_getitem out (PyStr.upper r) = Some (unknown_column (length (rows df))).
Proof.
  intros Hwf Hst Hkeys Hr Hx Hraw.
  destruct (normalize_data_spec df m Hwf Hst)
    as (out & status & Hout & _ & _ & _ & _ & _ & Hunknown & _).
  exists out. split; [exact Hout |].
  assert (Hrn : In r role_names) by (rewrite <- Hkeys; eapply dict_get_key, Hr).
  apply Hunknown; [now apply upper_role_required |].
  intros Hin. unfold renamed_columns in Hin. apply in_map_iff in Hin.
  destruct Hin as (c & Hc & Hcin). rewrite rename_label_last in Hc.
  destruct (last_role m c) as [k |] eqn:L; [| now subst c].
  apply last_role_In in L.
  assert (Hk : In k role_names).
  { rewrite <- Hkeys. apply in_map_iff. now exists (k, Some c). }
  apply (upper_role_inj _ _ Hk Hrn) in Hc. subst k.
  apply dict_get_In in L; [| rewrite Hkeys; apply role_names_NoDup].
  assert (c = x) by congruence. now subst c.
Qed.

Lemma normalize_data_missing_column_witness :
  exists out,
    normalize_data sample_raw
      [("campus", Some "Branch"); ("instructor", None); ("subject", None);
       ("section", None); ("status", Some "State"); ("week", None)] = Some out
    /\ df_getitem out "CAMPUS" = Some (unknown_column 6).
Proof.
  apply (normalize_data_missing_column sample_raw _ "campus" "Branch").
  - unfold well_formed. simpl. repeat constructor.
  - vm_compute. lia.
  - reflexivity.
  - reflexivity.
  - vm_compute. intuition discriminate.
  - vm_compute. intuition discriminate.
Defined.

Lemma unique_from_repeat (v : scalar) (n : nat) :
  unique_from scalar_eqb [v] (repeat v n) = [].
Proof.
  induction n as [| n IH]; cbn; [reflexivity |].
  now rewrite scalar_eqb_refl.
Qed.

Lemma nunique_repeat (v : scalar) (n : nat) :
  v <> SNaN -> 0 < n -> unique scalar_eqb (filter notna (repeat v n)) = [v].
Proof.
  intros Hv Hn. rewrite filter_all.
  - destruct n as [| n]; [lia |]. unfold unique. cbn.
    now rewrite unique_from_repeat.
  - intros x Hx. apply repeat_spec in Hx. subst x. now apply notna_spec.
Qed.

Lemma numbers_repeat (q : Q) (n : nat) :
  numbers (repeat (SFloat q) n) = Some (repeat q n).
Proof.
  induction n as [| n IH]; cbn; [reflexivity | now rewrite IH].
Qed.

Lemma Qsum_zero (l : list Q) : Forall (fun q => q = 0%Q) l -> (Qsum l == 0)%Q.
Proof.
  induction 1 as [| q l Hq _ IH]; cbn; [reflexivity |].
  rewrite Hq, IH. reflexivity.
Qed.

Lemma Qmean_zero (l : list Q) : Forall (fun q => q = 0%Q) l -> (Qmean l == 0)%Q.
Proof.
  intros H. unfold Qmean. rewrite (Qsum_zero l H). reflexivity.
Qed.

Lemma select_by_In {A} (k : scalar) (keys : list scalar) (vals : list A) (v : A) :
  In v (select_by k keys vals) -> In v vals.
Proof.
  unfold select_by. rewrite in_map_iff.
  intros ((x & w) & <- & H). apply filter_In in H. destruct H as (H & _).
  now apply in_combine_r in H.
Qed.

(** X10.  A sheet in which nothing is recognised (no role set, no column
    bearing a canonical name) still goes through: every canonical field is
    "Unknown", every score is 0.0, and the KPIs are those of one campus, one
    instructor and one subject with nothing completed and the instructor at
    risk. *)
Theorem nothing_recognised (df : DataFrame) :
  well_formed df ->
  0 < length (rows df) ->
  (forall k, In k canonical_names -> ~ In k (columns df)) ->
  exists out,
    normalize_data df all_unset = Some out
    /\ (forall k, In k required_keys ->
          df_getitem out k = Some (unknown_column (length (rows df))))
    /\ df_getitem out "SCORE" = Some (repeat (SFloat 0) (length (rows df)))
    /\ compute_kpis out =
         Some [("num_campuses", PInt 1); ("num_instructors", PInt 1);
               ("num_subjects", PInt 1); ("global_completion", PFloat 0);
               ("at_risk_instructors", PInt 1)].
Proof.
  intros Hwf Hn Hnone.
  assert (Hpos : forall k, In k canonical_names ->
            length (positions k (renamed_columns df all_unset)) <= 1).
  { intros k Hk. rewrite rename_nothing. unfold positions.
    rewrite positions_from_absent by now apply Hnone. cbn. lia. }
  assert (Hst : length (positions "STATUS" (renamed_columns df all_unset)) <= 1)
    by (apply Hpos; cbn; tauto).
  destruct (normalize_data_spec df all_unset Hwf Hst)
    as (out & status & Hout & _ & Hlen & _ & _ & Hnames & Hunknown & _ & Hstatus
        & Hscore).
  destruct (normalize_canonical df all_unset Hwf Hpos) as (out' & Hout' & Hcan).
  assert (out' = out) by congruence. subst out'.
  set (n := length (rows df)) in *.
  assert (Hreq : forall k, In k required_keys ->
            df_getitem out k = Some (unknown_column n)).
  { intros k Hk. apply Hunknown; [exact Hk |]. rewrite rename_nothing.
    apply Hnone. unfold canonical_names. apply in_or_app. now left. }
  assert (Hsc : df_getitem out "SCORE" = Some (repeat (SFloat 0) n)).
  { destruct (canonical_position out "SCORE" Hcan) as (j & Pj); [cbn; tauto |].
    rewrite (df_getitem_one _ _ _ Pj), (Hscore j)
      by (apply positions_spec; rewrite Pj; now left).
    rewrite (Hreq "STATUS") in Hstatus by (cbn; tauto).
    injection Hstatus as <-. unfold unknown_column. now rewrite map_repeat. }
  exists out. split; [exact Hout |]. split; [exact Hreq |]. split; [exact Hsc |].
  assert (Hne : df_empty out = false).
  { unfold df_empty. rewrite Hlen. fold n.
    destruct (columns out) eqn:Ec.
    - exfalso. apply (Hnames "SCORE"); cbn; tauto.
    - destruct n; [lia | reflexivity]. }
  unfold compute_kpis, score_column, df_len. rewrite Hne, Hsc. cbn [bind].
  rewrite numbers_repeat, (Hreq "INSTRUCTOR"), (Hreq "CAMPUS"), (Hreq "SUBJECT")
    by (cbn; tauto).
  cbn [bind]. rewrite Hlen. fold n.
  assert (Hlt : Nat.ltb 0 n = true) by now apply Nat.ltb_lt.
  rewrite Hlt. unfold nunique, unknown_column.
  rewrite (nunique_repeat (SStr "Unknown") n) by (discriminate || exact Hn).
  rewrite below_groupby. unfold group_keys.
  rewrite (nunique_repeat (SStr "Unknown") n) by (discriminate || exact Hn).
  cbn [sort_by fold_right insert_by filter].
  assert (Hmean : Q_ltb (Qmean (select_by (SStr "Unknown")
                                          (repeat (SStr "Unknown") n) (repeat 0%Q n)))
                        (1 # 2) = true).
  { apply Q_ltb_lt. rewrite Qmean_zero; [reflexivity |].
    apply Forall_forall. intros q Hq. apply select_by_In in Hq.
    now apply repeat_spec in Hq. }
  rewrite Hmean. cbn [length].
  assert (Hround : round1 (Qsum (repeat 0%Q n) / inject_Z (Z.of_nat n) * 100) = 0%Q).
  { rewrite (round1_comp _ 0); [reflexivity |].
    rewrite Qsum_zero; [reflexivity |].
    apply Forall_forall. intros q Hq. now apply repeat_spec in Hq. }
  now rewrite Hround.
Qed.

Lemma nothing_recognised_witness :
  exists out,
    normalize_data unrecognised_sheet all_unset = Some out
    /\ compute_kpis out =
         Some [("num_campuses", PInt 1); ("num_instructors", PInt 1);
               ("num_subjects", PInt 1); ("global_completion", PFloat 0);
               ("at_risk_instructors", PInt 1)].
Proof.
  destruct (nothing_recognised unrecognised_sheet) as (out & Hout & _ & _ & Hk).
  - unfold well_formed. simpl. repeat constructor.
  - simpl. lia.
  - intros k Hk. simpl in Hk.
    repeat (destruct Hk as [<- | Hk]; [vm_compute; intuition discriminate |]).
    contradiction.
  - now exists out.
Defined.

(* ------------------------------------------------------------------ *)
(** ** Rounding and KPI bounds *)

Local Open Scope Q_scope.

Lemma round_half_even_range (q : Q) :
  (Qfloor q <= round_half_even q <= Qfloor q + 1)%Z
  /\ (round_half_even q = (Qfloor q + 1)%Z -> inject_Z (Qfloor q) < q).
Proof.
  unfold round_half_even.
  destruct (Q_ltb (q - inject_Z (Qfloor q)) (1 # 2)) eqn:E1; [split; lia |].
  assert (Hd : 1 # 2 <= q - inject_Z (Qfloor q)).
  { unfold Q_ltb in E1. apply negb_false_iff in E1. now apply Qle_bool_iff in E1. }
  assert (Hlt : inject_Z (Qfloor q) < q).
  { apply Qlt_minus_iff. eapply Qlt_le_trans; [| exact Hd]. reflexivity. }
  destruct (Q_ltb (1 # 2) (q - inject_Z (Qfloor q))); [split; [lia | auto] |].
  destruct (Z.even (Qfloor q)); split; try lia; auto.
Qed.

Lemma round_half_even_bounds (q : Q) (lo hi : Z) :
  inject_Z lo <= q -> q <= inject_Z hi ->
  (lo <= round_half_even q <= hi)%Z.
Proof.
  intros Hlo Hhi.
  destruct (round_half_even_range q) as ((H1 & H2) & H3).
  assert (Hf : (lo <= Qfloor q)%Z).
  { rewrite <- (Qfloor_Z lo). now apply Qfloor_resp_le. }
  assert (Hc : (Qfloor q <= hi)%Z).
  { rewrite <- (Qfloor_Z hi). now apply Qfloor_resp_le. }
  split; [lia |].
  destruct (Z.eq_dec (round_half_even q) (Qfloor q + 1)) as [E | N]; [| lia].
  specialize (H3 E).
  assert (inject_Z (Qfloor q) < inject_Z hi) by (eapply Qlt_le_trans; eassumption).
  rewrite <- Zlt_Qlt in H. lia.
Qed.

(** Rounding to one decimal keeps a percentage a percentage. *)
Lemma round1_percent (q : Q) : 0 <= q <= 100 -> 0 <= round1 q <= 100.
Proof.
  intros (Hlo & Hhi). unfold round1. rewrite Qred_correct.
  destruct (round_half_even_bounds (q * 10) 0 1000) as (H1 & H2).
  - change (inject_Z 0) with (0 * 10). apply Qmult_le_compat_r; [exact Hlo | discriminate].
  - change (inject_Z 1000) with (100 * 10).
    apply Qmult_le_compat_r; [exact Hhi | discriminate].
  - set (z := round_half_even (q * 10)) in *.
    unfold Qle, Qdiv, Qmult, Qinv, inject_Z. cbn. split; lia.
Qed.

Lemma Q_ltb_ge (a b : Q) : Q_ltb a b = false <-> b <= a.
Proof.
  unfold Q_ltb. rewrite negb_false_iff. apply Qle_bool_iff.
Qed.

(** Rounding moves a number by one half at most. *)
Lemma round_half_even_near (q : Q) :
  - (1 # 2) <= inject_Z (round_half_even q) - q <= 1 # 2.
Proof.
  pose proof (Qfloor_le q) as Hlo. pose proof (Qlt_floor q) as Hhi.
  rewrite inject_Z_plus in Hhi. change (inject_Z 1) with 1 in Hhi.
  unfold round_half_even. cbv zeta.
  destruct (Q_ltb (q - inject_Z (Qfloor q)) (1 # 2)) eqn:E1.
  - apply Q_ltb_lt in E1. lra.
  - apply Q_ltb_ge in E1.
    destruct (Q_ltb (1 # 2) (q - inject_Z (Qfloor q))) eqn:E2.
    + rewrite inject_Z_plus. change (inject_Z 1) with 1. lra.
    + apply Q_ltb_ge in E2. destruct (Z.even (Qfloor q)); [lra |].
      rewrite inject_Z_plus. change (inject_Z 1) with 1. lra.
Qed.

(** Rounding to one decimal moves a number by one twentieth at most. *)
Lemma round1_near (q : Q) : - (1 # 20) <= round1 q - q <= 1 # 20.
Proof.
  unfold round1. rewrite Qred_correct.
  pose proof (round_half_even_near (q * 10)) as H.
  set (z := inject_Z (round_half_even (q * 10))) in *.
  unfold Qdiv. change (/ 10) with (1 # 10). lra.
Qed.

Lemma Qsum_bounds (l : list Q) :
  Forall (fun q => q = 0 \/ q = 1 # 2 \/ q = 1) l ->
  0 <= Qsum l <= inject_Z (Z.of_nat (length l)).
Proof.
  induction 1 as [| q l Hq _ (IH1 & IH2)]; cbn [Qsum fold_right length].
  - split; apply Qle_refl.
  - fold (Qsum l). rewrite Nat2Z.inj_succ, <- Z.add_1_l, inject_Z_plus.
    assert (Hq' : 0 <= q <= 1).
    { destruct Hq as [-> | [-> | ->]]; split; discriminate. }
    destruct Hq' as (Hq0 & Hq1). split.
    + change 0 with (0 + 0). now apply Qplus_le_compat.
    + now apply Qplus_le_compat.
Qed.

Lemma percent_of_scores (l : list Q) :
  (0 < length l)%nat ->
  Forall (fun q => q = 0 \/ q = 1 # 2 \/ q = 1) l ->
  0 <= Qsum l / inject_Z (Z.of_nat (length l)) * 100 <= 100.
Proof.
  intros Hn Hl. destruct (Qsum_bounds l Hl) as (H0 & H1).
  assert (Hpos : 0 < inject_Z (Z.of_nat (length l))).
  { change 0 with (inject_Z 0). rewrite <- Zlt_Qlt. lia. }
  split.
  - change 0 with (0 * 100). apply Qmult_le_compat_r; [| discriminate].
    apply Qle_shift_div_l; [exact Hpos |]. now rewrite Qmult_0_l.
  - change 100 with (1 * 100) at 2. apply Qmult_le_compat_r; [| discriminate].
    apply Qle_shift_div_r; [exact Hpos |]. now rewrite Qmult_1_l.
Qed.

Local Close Scope Q_scope.

Lemma unique_length (l : list scalar) :
  length (unique scalar_eqb l) <= length l.
Proof.
  apply NoDup_incl_length; [apply (unique_NoDup _ scalar_eqb_eq) |].
  intros x Hx. exact (proj1 (unique_In _ scalar_eqb_eq x l) Hx).
Qed.

Lemma nunique_length (col : list scalar) : nunique col <= length col.
Proof.
  unfold nunique. etransitivity; [apply unique_length | apply filter_length_le].
Qed.

Lemma below_length (t : Q) (keys : list scalar) (scores : list Q) :
  length (below t (groupby_mean keys scores)) <= nunique keys.
Proof.
  rewrite below_groupby. etransitivity; [apply filter_length_le |].
  unfold group_keys, nunique. now rewrite sort_by_length.
Qed.

Lemma canonical_nonempty (df : DataFrame) :
  df_empty df = false -> 0 < length (rows df).
Proof.
  unfold df_empty. rewrite orb_false_iff, !Nat.eqb_neq. lia.
Qed.

(** X11.  On a canonical table that is not empty [compute_kpis] returns
    its five figures; the global completion is a percentage between 0 and
    100, and the instructors at risk are at most the distinct instructors,
    who are at most the rows. *)
Theorem compute_kpis_bounds (df : DataFrame) :
  canonical df -> df_empty df = false ->
  exists kpis g at_risk instructors,
    compute_kpis df = Some kpis
    /\ Dict.keys kpis = ["num_campuses"; "num_instructors"; "num_subjects";
                         "global_completion"; "at_risk_instructors"]
    /\ Dict.get "global_completion" kpis = Some (PFloat g)
    /\ (0 <= g <= 100)%Q
    /\ Dict.get "at_risk_instructors" kpis = Some (PInt (Z.of_nat at_risk))
    /\ Dict.get "num_instructors" kpis = Some (PInt (Z.of_nat instructors))
    /\ at_risk <= instructors <= length (rows df).
Proof.
  intros Hc Hne.
  destruct (canonical_getitem df "CAMPUS" Hc) as (campus & Hcampus & _);
    [cbn; tauto |].
  destruct (canonical_getitem df "INSTRUCTOR" Hc) as (instructor & Hinst & Hil);
    [cbn; tauto |].
  destruct (canonical_getitem df "SUBJECT" Hc) as (subject & Hsubject & _);
    [cbn; tauto |].
  destruct (canonical_scores df Hc) as (scores & Hscores & Hsl & Hall).
  pose proof (canonical_nonempty df Hne) as Hn.
  eexists. eexists. exists (length (below (1 # 2) (groupby_mean instructor scores))).
  exists (nunique instructor).
  split.
  { unfold compute_kpis. rewrite Hne, Hscores, Hinst, Hcampus, Hsubject. reflexivity. }
  split; [reflexivity |]. split; [reflexivity |].
  split.
  { unfold df_len.
    assert (Hlt : Nat.ltb 0 (length (rows df)) = true) by now apply Nat.ltb_lt.
    rewrite Hlt, <- Hsl. apply round1_percent, percent_of_scores; [lia | exact Hall]. }
  split; [reflexivity |]. split; [reflexivity |].
  split; [apply below_length |].
  rewrite <- Hil. apply nunique_length.
Qed.

Lemma compute_kpis_bounds_witness :
  exists kpis g,
    compute_kpis sample_table = Some kpis
    /\ Dict.get "global_completion" kpis = Some (PFloat g)
    /\ (0 <= g <= 100)%Q.
Proof.
  destruct (compute_kpis_bounds sample_table)
    as (kpis & g & a & n & Hk & _ & Hg & Hb & _).
  - vm_compute. reflexivity.
  - vm_compute. reflexivity.
  - now exists kpis, g.
Defined.

(** X12.  The digest and the KPIs of one table agree: same completion
    rate, same number of instructors, same number of campuses. *)
Theorem digest_agrees_with_kpis (df : DataFrame) (context : string) :
  canonical df -> df_empty df = false ->
  exists kpis digest rate instructors campuses,
    compute_kpis df = Some kpis
    /\ build_ai_summary df context = Some digest
    /\ Dict.get "global_completion" kpis = Some rate
    /\ Dict.get "average_completion_pct" digest = Some rate
    /\ Dict.get "num_instructors" kpis = Some instructors
    /\ Dict.get "unique_instructors" digest = Some instructors
    /\ Dict.get "num_campuses" kpis = Some campuses
    /\ Dict.get "unique_campuses" digest = Some campuses.
Proof.
  intros Hc Hne.
  destruct (canonical_getitem df "CAMPUS" Hc) as (campus & Hcampus & _);
    [cbn; tauto |].
  destruct (canonical_getitem df "INSTRUCTOR" Hc) as (instructor & Hinst & _);
    [cbn; tauto |].
  destruct (canonical_getitem df "SUBJECT" Hc) as (subject & Hsubject & _);
    [cbn; tauto |].
  destruct (canonical_getitem df "STATUS" Hc) as (status & Hstatus & _);
    [cbn; tauto |].
  destruct (canonical_getitem df "SECTION" Hc) as (section & Hsection & _);
    [cbn; tauto |].
  destruct (canonical_position df "SECTION" Hc) as (i & Psec); [cbn; tauto |].
  destruct (canonical_scores df Hc) as (scores & Hscores & Hsl & _).
  pose proof (canonical_nonempty df Hne) as Hn.
  assert (Hlt : Nat.ltb 0 (length (rows df)) = true) by now apply Nat.ltb_lt.
  do 2 eexists. exists (PFloat (round1 (Qmean scores * 100))).
  exists (PInt (Z.of_nat (nunique instructor))), (PInt (Z.of_nat (nunique campus))).
  split.
  { unfold compute_kpis. rewrite Hne, Hscores, Hinst, Hcampus, Hsubject. reflexivity. }
  split.
  { unfold build_ai_summary.
    rewrite Hne, Hscores, Hstatus, Hinst, Hcampus, (position_has_column _ _ _ Psec),
      Hsection.
    reflexivity. }
  split.
  { cbn [Dict.get String.eqb Ascii.eqb Bool.eqb]. unfold df_len, Qmean.
    now rewrite Hlt, Hsl. }
  repeat split.
Qed.

Lemma digest_agrees_with_kpis_witness :
  exists kpis digest rate,
    compute_kpis sample_table = Some kpis
    /\ build_ai_summary sample_table "overall" = Some digest
    /\ Dict.get "global_completion" kpis = Some rate
    /\ Dict.get "average_completion_pct" digest = Some rate.
Proof.
  destruct (digest_agrees_with_kpis sample_table "overall")
    as (kpis & digest & rate & _ & _ & H1 & H2 & H3 & H4 & _).
  - vm_compute. reflexivity.
  - vm_compute. reflexivity.
  - now exists kpis, digest, rate.
Defined.

(* ------------------------------------------------------------------ *)
(** ** The digest and its context *)

(** X13.  Whatever the table, a digest that [build_ai_summary] returns
    carries the context label it was given, which is the label that
    [generate_analysis] reads back from it. *)
Theorem build_ai_summary_context (df : DataFrame) (context : string)
                                 (digest : Dict.t pyval) :
  build_ai_summary df context = Some digest ->
  summary_context digest = PStr context.
Proof.
  unfold build_ai_summary, summary_context, get_default, bind.
  destruct (df_empty df); [intros [= <-]; reflexivity |].
  destruct (score_column df); [| discriminate].
  destruct (df_getitem df "STATUS"); [| discriminate].
  destruct (df_getitem df "INSTRUCTOR"); [| discriminate].
  destruct (df_getitem df "CAMPUS"); [| discriminate].
  destruct (has_column "SECTION" df).
  - destruct (df_getitem df "SECTION"); [| discriminate].
    intros [= <-]. reflexivity.
  - intros [= <-]. reflexivity.
Qed.

Lemma build_ai_summary_context_witness :
  match build_ai_summary sample_table "campus" with
  | Some digest => summary_context digest = PStr "campus"
  | None => False
  end.
Proof.
  destruct (build_ai_summary sample_table "campus") as [digest |] eqn:E.
  - exact (build_ai_summary_context sample_table "campus" digest E).
  - vm_compute in E. discriminate E.
Defined.

(** X14.  The label the dashboard works out is "instructor" exactly when
    one instructor is selected, "campus" exactly when one campus and several
    instructors are, and "overall" otherwise; it is never "course", so the
    course instruction of [generate_analysis] is never the one chosen. *)
Theorem detect_context_cases (selected_campuses selected_instructors : list string) :
  let context := detect_context selected_campuses selected_instructors in
  (context = "instructor" <-> length selected_instructors = 1)
  /\ (context = "campus" <->
      length selected_campuses = 1 /\ 1 < length selected_instructors)
  /\ (context = "instructor" \/ context = "campus" \/ context = "overall")
  /\ context <> "course"
  /\ Some (specific_instruction context) <> Dict.get "course" context_prompts.
Proof.
  cbv zeta. unfold detect_context.
  destruct (Nat.eqb_spec (length selected_instructors) 1) as [E1 | N1].
  - repeat split; try discriminate; try tauto; try (intros; exact E1).
    + intros (_ & H). lia.
  - destruct (Nat.eqb_spec (length selected_campuses) 0) as [E0 | N0];
      destruct (Nat.eqb_spec (length selected_campuses) 1) as [E2 | N2];
      destruct (Nat.ltb_spec 1 (length selected_instructors)) as [L | G];
      cbn [negb andb]; repeat split; try discriminate; try tauto; try lia;
      try (intros (H1 & H2); lia).
Qed.

Lemma detect_context_cases_witness :
  detect_context ["Pune"] ["A"; "B"] = "campus".
Proof.
  apply (detect_context_cases ["Pune"] ["A"; "B"]). simpl. lia.
Defined.

Lemma risk_rows_zero (i : nat) (rws : list (list scalar)) :
  forall scores,
    numbers (map (fun r => cell r i) rws) = Some scores ->
    forallb is_score (map (fun r => cell r i) rws) = true ->
    map fst (filter (fun rs => Q_ltb (snd rs) (1 # 2)) (combine rws scores))
    = filter (fun r => scalar_eqb (cell r i) (SFloat 0)) rws.
Proof.
  induction rws as [| r rws IH]; intros scores Hn Hs; cbn in Hn, Hs.
  - injection Hn as <-. reflexivity.
  - apply andb_true_iff in Hs. destruct Hs as (Hr & Hs).
    destruct (cell r i) as [| | q | |] eqn:Ec; try discriminate Hr.
    cbn in Hn, Hr.
    destruct (numbers (map (fun r => cell r i) rws)) as [qs |] eqn:En;
      [| discriminate].
    injection Hn as <-. cbn [combine filter snd]. rewrite Ec.
    specialize (IH qs eq_refl Hs).
    rewrite !orb_true_iff, !Q_eqb_eq in Hr.
    destruct Hr as [[-> | ->] | ->]; cbn; now rewrite IH.
Qed.

(** X15.  The rows that the digest counts as at risk are the rows whose
    SCORE is 0.0, in the order of the table: a row in progress (0.5) is never
    at risk, and the count never exceeds the number of records. *)
Theorem risk_count_zero_scores (df : DataFrame) (context : string) :
  canonical df -> df_empty df = false ->
  exists digest scores i,
    build_ai_summary df context = Some digest
    /\ score_column df = Some scores
    /\ positions "SCORE" (columns df) = [i]
    /\ risk_rows df scores
       = filter (fun r => scalar_eqb (cell r i) (SFloat 0)) (rows df)
    /\ Dict.get "risk_count" digest
       = Some (PInt (Z.of_nat (length (risk_rows df scores))))
    /\ Dict.get "total_records" digest
       = Some (PInt (Z.of_nat (length (rows df))))
    /\ length (risk_rows df scores) <= length (rows df).
Proof.
  intros Hc Hne.
  destruct (canonical_getitem df "CAMPUS" Hc) as (campus & Hcampus & _);
    [cbn; tauto |].
  destruct (canonical_getitem df "INSTRUCTOR" Hc) as (instructor & Hinst & _);
    [cbn; tauto |].
  destruct (canonical_getitem df "STATUS" Hc) as (status & Hstatus & _);
    [cbn; tauto |].
  destruct (canonical_getitem df "SECTION" Hc) as (section & Hsection & _);
    [cbn; tauto |].
  destruct (canonical_position df "SECTION" Hc) as (j & Psec); [cbn; tauto |].
  destruct (canonical_position df "SCORE" Hc) as (i & Pscore); [cbn; tauto |].
  destruct (canonical_scores df Hc) as (scores & Hscores & _).
  assert (Hrisk : risk_rows df scores
                  = filter (fun r => scalar_eqb (cell r i) (SFloat 0)) (rows df)).
  { unfold risk_rows. apply risk_rows_zero.
    - unfold score_column, bind in Hscores.
      now rewrite (df_getitem_one _ _ _ Pscore) in Hscores.
    - unfold canonical, canonicalb in Hc. rewrite !andb_true_iff in Hc.
      destruct Hc as (_ & Hs). now rewrite (df_getitem_one _ _ _ Pscore) in Hs. }
  eexists. exists scores, i.
  split.
  { unfold build_ai_summary.
    rewrite Hne, Hscores, Hstatus, Hinst, Hcampus, (position_has_column _ _ _ Psec),
      Hsection.
    reflexivity. }
  split; [exact Hscores |]. split; [exact Pscore |]. split; [exact Hrisk |].
  split; [reflexivity |]. split; [reflexivity |].
  rewrite Hrisk. apply filter_length_le.
Qed.

Lemma risk_count_zero_scores_witness :
  exists digest,
    build_ai_summary sample_table "overall" = Some digest
    /\ Dict.get "risk_count" digest = Some (PInt 2)
    /\ Dict.get "total_records" digest = Some (PInt 6).
Proof.
  destruct (risk_count_zero_scores sample_table "overall")
    as (digest & scores & i & Hd & Hs & _ & _ & Hr & Ht & _).
  - vm_compute. reflexivity.
  - vm_compute. reflexivity.
  - exists digest. split; [exact Hd |].
    vm_compute in Hs. injection Hs as <-. split; [exact Hr | exact Ht].
Defined.

(* ------------------------------------------------------------------ *)
(** ** The instructor table: order, groups and totals *)

Lemma canonical_performance_rows (df : DataFrame) :
  canonical df ->
  exists l instructor campus subject scores,
    performance_rows df = Some l
    /\ df_getitem df "INSTRUCTOR" = Some instructor
    /\ df_getitem df "CAMPUS" = Some campus
    /\ df_getitem df "SUBJECT" = Some subject
    /\ score_column df = Some scores
    /\ length (combine instructor campus) = length (rows df)
    /\ length subject = length (rows df)
    /\ length scores = length (rows df)
    /\ Forall (fun q => q = 0 \/ q = 1 # 2 \/ q = 1)%Q scores
    /\ Permutation l (map (make_group (combine instructor campus) subject scores)
                          (pair_keys (combine instructor campus))).
Proof.
  intros Hc.
  destruct (canonical_getitem df "CAMPUS" Hc) as (campus & Hcampus & Hcl);
    [cbn; tauto |].
  destruct (canonical_getitem df "INSTRUCTOR" Hc) as (instructor & Hinst & Hil);
    [cbn; tauto |].
  destruct (canonical_getitem df "SUBJECT" Hc) as (subject & Hsubject & Hsl);
    [cbn; tauto |].
  destruct (canonical_scores df Hc) as (scores & Hscores & Hql & Hall).
  eexists. exists instructor, campus, subject, scores.
  split.
  { unfold performance_rows. rewrite Hinst, Hcampus, Hsubject, Hscores. reflexivity. }
  repeat split; try assumption.
  - rewrite length_combine, Hil, Hcl. apply Nat.min_id.
  - apply sort_by_perm.
Qed.

Lemma canonical_performance_frame (df : DataFrame) (l : list group_row) :
  df_empty df = false -> performance_rows df = Some l ->
  compute_instructor_performance df = Some (performance_frame l).
Proof.
  intros Hne Hl. unfold compute_instructor_performance. now rewrite Hne, Hl.
Qed.

Lemma sorted_adjacent {A} (R : A -> A -> Prop) (l : list A) :
  StronglySorted R l ->
  forall i a b, nth_error l i = Some a -> nth_error l (S i) = Some b -> R a b.
Proof.
  induction 1 as [| x l Hs IH Hx]; intros i a b Ha Hb.
  - now destruct i.
  - destruct i as [| i]; cbn in Ha, Hb.
    + injection Ha as <-. rewrite Forall_forall in Hx. apply Hx.
      destruct l; [discriminate | injection Hb as <-; now left].
    + now apply (IH i).
Qed.

(** X16.  The instructor table comes worst first: of two neighbouring
    rows with a finite Completion_Pct, the upper one has the smaller or
    equal percentage, and a row whose percentage is not a number comes after
    every row whose percentage is finite. *)
Theorem instructor_performance_order (df : DataFrame) :
  canonical df -> df_empty df = false ->
  exists l,
    compute_instructor_performance df = Some (performance_frame l)
    /\ (forall i a b p q,
          nth_error l i = Some a -> nth_error l (S i) = Some b ->
          Completion_Pct a = SFloat p -> Completion_Pct b = SFloat q ->
          (p <= q)%Q)
    /\ (forall i a b q,
          nth_error l i = Some a -> nth_error l (S i) = Some b ->
          Completion_Pct a = SNaN -> Completion_Pct b <> SFloat q).
Proof.
  intros Hc Hne.
  destruct (canonical_performance_rows df Hc) as (l & _ & _ & _ & _ & Hl & _).
  exists l. split; [now apply canonical_performance_frame |].
  pose proof (performance_rows_sorted df l Hl) as Hs.
  split.
  - intros i a b p q Ha Hb Hp Hq.
    pose proof (sorted_adjacent _ _ Hs i a b Ha Hb) as H. cbv beta in H.
    rewrite Hp, Hq in H. now apply float_leb_finite.
  - intros i a b q Ha Hb Hp Hq.
    pose proof (sorted_adjacent _ _ Hs i a b Ha Hb) as H. cbv beta in H.
    rewrite Hp, Hq in H. discriminate H.
Qed.

Lemma instructor_performance_order_witness :
  exists l,
    compute_instructor_performance sample_table = Some (performance_frame l)
    /\ (forall i a b p q,
          nth_error l i = Some a -> nth_error l (S i) = Some b ->
          Completion_Pct a = SFloat p -> Completion_Pct b = SFloat q ->
          (p <= q)%Q).
Proof.
  destruct (instructor_performance_order sample_table) as (l & Hl & Hs & _).
  - vm_compute. reflexivity.
  - vm_compute. reflexivity.
  - exists l. split; [exact Hl | exact Hs].
Defined.

Lemma make_group_key (keys : list (scalar * scalar)) (subject : list scalar)
                     (scores : list Q) (ks : list (scalar * scalar)) :
  map group_key (map (make_group keys subject scores) ks) = ks.
Proof.
  rewrite map_map. rewrite <- (map_id ks) at 2. apply map_ext.
  intros [a b]. reflexivity.
Qed.

Lemma pair_keys_length (keys : list (scalar * scalar)) :
  length (pair_keys keys) <= length keys.
Proof.
  unfold pair_keys. rewrite sort_by_length.
  etransitivity; [| apply filter_length_le].
  apply NoDup_incl_length; [apply (unique_NoDup _ pair_eqb_eq) |].
  intros x Hx. exact (proj1 (unique_In _ pair_eqb_eq x _) Hx).
Qed.

(** X17.  The instructor table has one row for each pair of instructor
    and campus that occurs in a row of the table with neither cell empty, no
    pair twice and no other row; rows with an empty instructor or campus
    belong to no group. *)
Theorem instructor_performance_groups (df : DataFrame) :
  canonical df -> df_empty df = false ->
  exists l instructor campus,
    compute_instructor_performance df = Some (performance_frame l)
    /\ df_getitem df "INSTRUCTOR" = Some instructor
    /\ df_getitem df "CAMPUS" = Some campus
    /\ NoDup (map group_key l)
    /\ (forall k, In k (map group_key l) <->
          In k (combine instructor campus) /\ fst k <> SNaN /\ snd k <> SNaN)
    /\ length l <= length (rows df).
Proof.
  intros Hc Hne.
  destruct (canonical_performance_rows df Hc)
    as (l & instructor & campus & subject & scores & Hl & Hi & Hca & _ & _ & Hlen
        & _ & _ & _ & Hperm).
  exists l, instructor, campus.
  split; [now apply canonical_performance_frame |].
  split; [exact Hi |]. split; [exact Hca |].
  assert (Hkeys : Permutation (map group_key l) (pair_keys (combine instructor campus))).
  { rewrite <- (make_group_key (combine instructor campus) subject scores).
    now apply Permutation_map. }
  split; [| split].
  - eapply Permutation_NoDup; [symmetry; exact Hkeys | apply pair_keys_NoDup].
  - intros k. rewrite <- pair_keys_In. split; apply Permutation_in;
      [exact Hkeys | symmetry; exact Hkeys].
  - rewrite <- (length_map group_key), (Permutation_length Hkeys), <- Hlen.
    apply pair_keys_length.
Qed.

Lemma instructor_performance_groups_witness :
  exists l,
    compute_instructor_performance sample_table = Some (performance_frame l)
    /\ NoDup (map group_key l)
    /\ In (SStr "B", SStr "Y") (map group_key l).
Proof.
  destruct (instructor_performance_groups sample_table)
    as (l & instructor & campus & Hl & Hi & Hc & Hnd & Hk & _).
  - vm_compute. reflexivity.
  - vm_compute. reflexivity.
  - exists l. split; [exact Hl |]. split; [exact Hnd |].
    apply Hk. vm_compute in Hi, Hc. injection Hi as <-. injection Hc as <-.
    split; [simpl; tauto |]. split; discriminate.
Defined.

Lemma in_performance_rows (l : list group_row) (keys : list (scalar * scalar))
                          (subject : list scalar) (scores : list Q) (g : group_row) :
  Permutation l (map (make_group keys subject scores) (pair_keys keys)) ->
  In g l ->
  exists k, In k keys /\ g = make_group keys subject scores k.
Proof.
  intros Hperm Hin. apply (Permutation_in _ Hperm), in_map_iff in Hin.
  destruct Hin as (k & <- & Hk). apply pair_keys_In in Hk. exists k. tauto.
Qed.

Lemma row_count_pct_percent (keys : list (scalar * scalar)) (scores : list Q)
                            (k : scalar * scalar) :
  length scores = length keys -> In k keys ->
  Forall (fun q => q = 0 \/ q = 1 # 2 \/ q = 1)%Q scores ->
  (0 <= row_count_pct keys scores k <= 100)%Q.
Proof.
  intros Hlen Hk Hall. unfold row_count_pct. cbv zeta.
  apply round1_percent, percent_of_scores.
  - rewrite (select_pair_length k keys scores Hlen).
    now apply filter_key_nonempty.
  - rewrite Forall_forall in *. intros q Hq. apply Hall.
    now apply select_pair_In in Hq.
Qed.

Lemma scalar_In_all_notna (l : list scalar) :
  forallb notna l = true -> forall s, In s l -> s <> SNaN.
Proof.
  intros H s Hs. rewrite forallb_forall in H. now apply notna_spec, H.
Qed.

(** X18.  When no subject cell of the table is empty, every row of the
    instructor table counts the rows of its group as its items, and its
    Completion_Pct is the percentage of that row count: a number between 0
    and 100 that is the score sum over the row count, times 100, to within
    one tenth (the distance that rounding to one decimal allows for). *)
Theorem instructor_performance_complete (df : DataFrame) :
  canonical df -> df_empty df = false ->
  exists l instructor campus subject scores,
    compute_instructor_performance df = Some (performance_frame l)
    /\ df_getitem df "INSTRUCTOR" = Some instructor
    /\ df_getitem df "CAMPUS" = Some campus
    /\ df_getitem df "SUBJECT" = Some subject
    /\ score_column df = Some scores
    /\ ((forall s, In s subject -> s <> SNaN) ->
        forall g, In g l ->
          let group := select_pair (group_key g) (combine instructor campus) scores in
          Total_Items g = Z.of_nat (length group)
          /\ exists pct,
               Completion_Pct g = SFloat pct
               /\ (0 <= pct <= 100)%Q
               /\ (- (1 # 10)
                   <= pct - Qsum group / inject_Z (Z.of_nat (length group)) * 100
                   <= 1 # 10)%Q).
Proof.
  intros Hc Hne.
  destruct (canonical_performance_rows df Hc)
    as (l & instructor & campus & subject & scores & Hl & Hi & Hca & Hs & Hsc
        & Hlen & Hsl & Hql & Hall & Hperm).
  exists l, instructor, campus, subject, scores.
  split; [now apply canonical_performance_frame |].
  split; [exact Hi |]. split; [exact Hca |]. split; [exact Hs |].
  split; [exact Hsc |].
  intros Hfull g Hg. cbv zeta.
  destruct (in_performance_rows _ _ _ _ _ Hperm Hg) as (k & Hk & ->).
  assert (Hkey : group_key (make_group (combine instructor campus) subject scores k) = k)
    by now destruct k.
  rewrite Hkey.
  assert (Hsub : length subject = length (combine instructor campus)) by congruence.
  assert (Hscl : length scores = length (combine instructor campus)) by congruence.
  assert (Hblank : forall s, In s (select_pair k (combine instructor campus) subject) ->
                     s <> SNaN).
  { intros s Hin. apply Hfull. now apply select_pair_In in Hin. }
  split.
  - cbn [Total_Items make_group].
    rewrite filter_all by (intros s Hin; apply notna_spec; now apply Hblank).
    now rewrite (select_pair_length k _ subject Hsub),
      (select_pair_length k _ scores Hscl).
  - exists (row_count_pct (combine instructor campus) scores k).
    split; [now apply make_group_row_count |].
    split; [now apply row_count_pct_percent |].
    unfold row_count_pct. cbv zeta.
    pose proof (round1_near
                  (Qsum (select_pair k (combine instructor campus) scores)
                   / inject_Z (Z.of_nat (length (select_pair k (combine instructor campus)
                                                             scores))) * 100)) as H.
    lra.
Qed.

Lemma instructor_performance_complete_witness :
  exists l,
    compute_instructor_performance risk_table = Some (performance_frame l)
    /\ forall g, In g l -> exists q, Completion_Pct g = SFloat q /\ (0 <= q <= 100)%Q.
Proof.
  destruct (instructor_performance_complete risk_table)
    as (l & instructor & campus & subject & scores & Hl & _ & _ & Hs & _ & H).
  - vm_compute. reflexivity.
  - vm_compute. reflexivity.
  - exists l. split; [exact Hl |]. intros g Hg.
    assert (Hfull : forall s, In s subject -> s <> SNaN).
    { vm_compute in Hs. injection Hs as <-.
      apply scalar_In_all_notna. vm_compute. reflexivity. }
    destruct (H Hfull g Hg) as (_ & q & Hp & Hb & _).
    exists q. split; [exact Hp | exact Hb].
Defined.

Lemma filter_none {A} (f : A -> bool) (l : list A) :
  (forall x, In x l -> f x = false) -> filter f l = [].
Proof.
  induction l as [| x l IH]; intros H; cbn; [reflexivity |].
  rewrite (H x) by now left. apply IH. intros y Hy. apply H. now right.
Qed.

(** X19.  A group none of whose rows names a subject has no items, and
    its percentage is a quotient by zero: not a number, labelled critical,
    when its scores add up to zero, and infinite, labelled on track, when
    they do not. *)
Theorem instructor_performance_no_items (df : DataFrame) :
  canonical df -> df_empty df = false ->
  exists l instructor campus subject,
    compute_instructor_performance df = Some (performance_frame l)
    /\ df_getitem df "INSTRUCTOR" = Some instructor
    /\ df_getitem df "CAMPUS" = Some campus
    /\ df_getitem df "SUBJECT" = Some subject
    /\ forall g, In g l ->
         (forall s, In s (select_pair (group_key g) (combine instructor campus)
                                      subject) -> s = SNaN) ->
         Total_Items g = 0%Z
         /\ (((Completed_Score_Sum g == 0)%Q
              /\ Completion_Pct g = SNaN /\ Status g = "Critical 🔴")
             \/ ((0 < Completed_Score_Sum g)%Q
                 /\ Completion_Pct g = SInf false /\ Status g = "On Track ✅")).
Proof.
  intros Hc Hne.
  destruct (canonical_performance_rows df Hc)
    as (l & instructor & campus & subject & scores & Hl & Hi & Hca & Hs & Hsc
        & Hlen & Hsl & Hql & Hall & Hperm).
  exists l, instructor, campus, subject.
  split; [now apply canonical_performance_frame |].
  split; [exact Hi |]. split; [exact Hca |]. split; [exact Hs |].
  intros g Hg Hblank.
  destruct (in_performance_rows _ _ _ _ _ Hperm Hg) as (k & Hk & ->).
  assert (Hkey : group_key (make_group (combine instructor campus) subject scores k) = k)
    by now destruct k.
  rewrite Hkey in Hblank.
  unfold make_group.
  cbn [Total_Items Completed_Score_Sum Completion_Pct Status].
  rewrite filter_none
    by (intros s Hin; rewrite (Hblank s Hin); reflexivity).
  cbn [length Z.of_nat]. split; [reflexivity |].
  set (sum := Qred (Qsum (select_pair k (combine instructor campus) scores))).
  assert (Hsum : (0 <= sum)%Q).
  { unfold sum. rewrite Qred_correct. apply Qsum_bounds.
    rewrite Forall_forall in *. intros q Hq. apply Hall.
    now apply select_pair_In in Hq. }
  unfold float_div. cbn [Z.eqb].
  destruct (Qeq_bool sum 0) eqn:E.
  - left. apply Qeq_bool_iff in E. split; [exact E | split; reflexivity].
  - right. apply Qeq_bool_neq in E.
    assert (Hpos : (0 < sum)%Q).
    { apply Qle_lteq in Hsum. destruct Hsum as [H | H]; [exact H |].
      contradiction E. now symmetry. }
    assert (Hneg : Q_ltb sum 0 = false).
    { unfold Q_ltb. apply negb_false_iff, Qle_bool_iff. now apply Qlt_le_weak. }
    rewrite Hneg. split; [exact Hpos | split; reflexivity].
Qed.

Lemma instructor_performance_no_items_witness :
  exists l,
    compute_instructor_performance no_subject_table = Some (performance_frame l)
    /\ forall g, In g l -> Total_Items g = 0%Z.
Proof.
  destruct (instructor_performance_no_items no_subject_table)
    as (l & instructor & campus & subject & Hl & Hi & Hc & Hs & H).
  - vm_compute. reflexivity.
  - vm_compute. reflexivity.
  - exists l. split; [exact Hl |]. intros g Hg. apply (H g Hg).
    intros s Hin. apply select_pair_In in Hin.
    vm_compute in Hs. injection Hs as <-.
    simpl in Hin. destruct Hin as [<- | [<- | []]]; reflexivity.
Defined.

(* ------------------------------------------------------------------ *)
(** ** The sidebar filters *)

Lemma mask_filter {A} (f : A -> bool) (l : list A) :
  map fst (filter snd (combine l (map f l))) = filter f l.
Proof.
  induction l as [| x l IH]; cbn; [reflexivity |].
  destruct (f x); cbn; now rewrite IH.
Qed.

Lemma filter_and {A} (f g : A -> bool) (l : list A) :
  filter g (filter f l) = filter (fun x => f x && g x) l.
Proof.
  induction l as [| x l IH]; cbn; [reflexivity |].
  destruct (f x); cbn; [destruct (g x) |]; now rewrite IH.
Qed.

Lemma keep_rows_all (df : DataFrame) (keep : list scalar -> bool) :
  (forall r, In r (rows df) -> keep r = true) -> keep_rows keep df = df.
Proof.
  intros H. unfold keep_rows. rewrite (filter_all _ _ H). now destruct df.
Qed.

Lemma filter_by_keep (label : string) (selection : list string) (df : DataFrame)
                     (i : nat) :
  positions label (columns df) = [i] ->
  filter_by label selection df
  = Some (keep_rows (fun r => selected selection (cell r i)) df).
Proof.
  intros P. unfold filter_by. destruct selection as [| s selection].
  - cbn [selected]. now rewrite keep_rows_all.
  - rewrite (df_getitem_one _ _ _ P). cbn [bind]. f_equal.
    unfold df_mask, keep_rows, isin_str. f_equal.
    rewrite map_map. apply mask_filter.
Qed.

Lemma forallb_filter {A} (p f : A -> bool) (l : list A) :
  forallb p l = true -> forallb p (filter f l) = true.
Proof.
  rewrite !forallb_forall. intros H x Hx. apply filter_In in Hx. now apply H.
Qed.

Lemma canonical_keep_rows (df : DataFrame) (keep : list scalar -> bool) :
  canonical df -> canonical (keep_rows keep df).
Proof.
  unfold canonical, canonicalb, keep_rows, well_formedb, df_getitem.
  cbn [columns rows]. rewrite !andb_true_iff. intros ((Hwf & Hpos) & Hs).
  repeat split; [now apply forallb_filter | exact Hpos |].
  destruct (positions "SCORE" (columns df)) as [| i [| ? ?]]; try discriminate.
  rewrite !forallb_forall in *. intros v Hv. apply Hs.
  apply in_map_iff in Hv. destruct Hv as (r & <- & Hr).
  apply filter_In in Hr. apply in_map_iff. exists r. tauto.
Qed.

(** X20.  On a canonical table the two sidebar filters keep, in order and
    under the same labels, exactly the rows whose campus text and instructor
    text are among the selected ones, an empty selection standing for no
    restriction; the result is again a canonical table. *)
Theorem apply_filters_rows (df : DataFrame)
                           (selected_campuses selected_instructors : list string) :
  canonical df ->
  exists out i_campus i_instructor,
    apply_filters df selected_campuses selected_instructors = Some out
    /\ positions "CAMPUS" (columns df) = [i_campus]
    /\ positions "INSTRUCTOR" (columns df) = [i_instructor]
    /\ columns out = columns df
    /\ rows out
       = filter (fun r => selected selected_campuses (cell r i_campus)
                          && selected selected_instructors (cell r i_instructor))
                (rows df)
    /\ canonical out.
Proof.
  intros Hc.
  destruct (canonical_position df "CAMPUS" Hc) as (ic & Pc); [cbn; tauto |].
  destruct (canonical_position df "INSTRUCTOR" Hc) as (ii & Pi); [cbn; tauto |].
  eexists. exists ic, ii. split.
  { unfold apply_filters. rewrite (filter_by_keep _ _ _ _ Pc). cbn [bind].
    apply filter_by_keep. exact Pi. }
  split; [exact Pc |]. split; [exact Pi |]. split; [reflexivity |].
  split; [cbn [keep_rows rows]; apply filter_and |].
  now do 2 apply canonical_keep_rows.
Qed.

Lemma apply_filters_rows_witness :
  exists out,
    apply_filters sample_table ["X"] ["B"] = Some out
    /\ rows out = [[SStr "B"; SStr "X"; SStr "M1"; SStr "wip";
                    SStr "Unknown"; SStr "Unknown"; SFloat (1 # 2)]]
    /\ canonical out.
Proof.
  destruct (apply_filters_rows sample_table ["X"] ["B"])
    as (out & ic & ii & Hout & Pc & Pi & _ & Hrows & Hcan).
  - vm_compute. reflexivity.
  - exists out. split; [exact Hout |]. split; [| exact Hcan].
    vm_compute in Pc, Pi. injection Pc as <-. injection Pi as <-.
    rewrite Hrows. reflexivity.
Defined.

Lemma options_In (label : string) (df : DataFrame) (i : nat) (opts : list string)
                 (r : list scalar) :
  positions label (columns df) = [i] ->
  options label df = Some opts ->
  In r (rows df) -> selected opts (cell r i) = true.
Proof.
  intros P Ho Hr. unfold options in Ho. rewrite (df_getitem_one _ _ _ P) in Ho.
  cbn [bind] in Ho. injection Ho as <-.
  assert (Hin : In (py_str (cell r i))
                   (sort_by String.leb
                      (map py_str (unique scalar_eqb (map (fun r => cell r i) (rows df)))))).
  { apply sort_by_In, in_map, (unique_In _ scalar_eqb_eq), in_map_iff. now exists r. }
  unfold selected. destruct (sort_by _ _); [reflexivity | now apply mem_In].
Qed.

(** X21.  With every option selected, which is the default of both
    selectors, the filters keep the whole table; so do they with nothing
    selected. *)
Theorem default_selection_keeps_all (df : DataFrame) (campuses instructors : list string) :
  canonical df ->
  options "CAMPUS" df = Some campuses ->
  options "INSTRUCTOR" df = Some instructors ->
  apply_filters df campuses instructors = Some df
  /\ apply_filters df [] [] = Some df.
Proof.
  intros Hc Hoc Hoi. split; [| reflexivity].
  destruct (canonical_position df "CAMPUS" Hc) as (ic & Pc); [cbn; tauto |].
  destruct (canonical_position df "INSTRUCTOR" Hc) as (ii & Pi); [cbn; tauto |].
  unfold apply_filters. rewrite (filter_by_keep _ _ _ _ Pc). cbn [bind].
  rewrite keep_rows_all by (intros r Hr; now apply (options_In "CAMPUS" df)).
  rewrite (filter_by_keep _ _ _ _ Pi).
  rewrite keep_rows_all by (intros r Hr; now apply (options_In "INSTRUCTOR" df)).
  reflexivity.
Qed.

Lemma default_selection_keeps_all_witness :
  apply_filters sample_table ["X"; "Y"] ["A"; "B"; "C"] = Some sample_table.
Proof.
  apply (default_selection_keeps_all sample_table ["X"; "Y"] ["A"; "B"; "C"]).
  - vm_compute. reflexivity.
  - vm_compute. reflexivity.
  - vm_compute. reflexivity.
Defined.

Lemma canonical_aggregators (df : DataFrame) (context : string) :
  canonical df ->
  exists kpis table risks digest,
    compute_kpis df = Some kpis
    /\ compute_instructor_performance df = Some table
    /\ compute_risk_factors df = Some risks
    /\ build_ai_summary df context = Some digest.
Proof.
  intros Hc.
  destruct (canonical_getitem df "CAMPUS" Hc) as (campus & Hcampus & _);
    [cbn; tauto |].
  destruct (canonical_getitem df "INSTRUCTOR" Hc) as (instructor & Hinst & _);
    [cbn; tauto |].
  destruct (canonical_getitem df "SUBJECT" Hc) as (subject & Hsubject & _);
    [cbn; tauto |].
  destruct (canonical_getitem df "STATUS" Hc) as (status & Hstatus & _);
    [cbn; tauto |].
  destruct (canonical_getitem df "SECTION" Hc) as (section & Hsection & _);
    [cbn; tauto |].
  destruct (canonical_position df "SECTION" Hc) as (i & Psec); [cbn; tauto |].
  destruct (canonical_scores df Hc) as (scores & Hscores & _).
  unfold compute_kpis, compute_instructor_performance, performance_rows,
    compute_risk_factors, build_ai_summary.
  rewrite Hscores, Hinst, Hcampus, Hsubject, Hstatus,
    (position_has_column _ _ _ Psec), Hsection.
  destruct (df_empty df); cbn [bind option_map]; do 4 eexists; repeat split.
Qed.

(** X22.  Whatever is selected in the sidebar of a canonical table, the
    filters return a table on which all four aggregator functions return a
    result; when the selection leaves no row, the KPIs are the empty mapping,
    for which the dashboard shows 0 instructors, 0 campuses and 0 at risk, and
    both risk lists are empty. *)
Theorem filtered_view_aggregates (df : DataFrame) (context : string)
                                 (selected_campuses selected_instructors : list string) :
  canonical df ->
  exists out kpis table risks digest,
    apply_filters df selected_campuses selected_instructors = Some out
    /\ compute_kpis out = Some kpis
    /\ compute_instructor_performance out = Some table
    /\ compute_risk_factors out = Some risks
    /\ build_ai_summary out context = Some digest
    /\ (rows out = [] ->
        kpis = []
        /\ get_default "num_instructors" (PInt 0) kpis = PInt 0
        /\ get_default "num_campuses" (PInt 0) kpis = PInt 0
        /\ get_default "at_risk_instructors" (PInt 0) kpis = PInt 0
        /\ Dict.get "instructors" risks = Some (PList [])
        /\ Dict.get "campuses" risks = Some (PList [])).
Proof.
  intros Hc.
  destruct (canonical_position df "CAMPUS" Hc) as (ic & Pc); [cbn; tauto |].
  destruct (canonical_position df "INSTRUCTOR" Hc) as (ii & Pi); [cbn; tauto |].
  set (out := keep_rows (fun r => selected selected_instructors (cell r ii))
                (keep_rows (fun r => selected selected_campuses (cell r ic)) df)).
  assert (Hout : apply_filters df selected_campuses selected_instructors = Some out).
  { unfold apply_filters. rewrite (filter_by_keep _ _ _ _ Pc). cbn [bind].
    apply filter_by_keep. exact Pi. }
  assert (Hcan : canonical out) by (now do 2 apply canonical_keep_rows).
  destruct (canonical_aggregators out context Hcan)
    as (kpis & table & risks & digest & Hk & Ht & Hr & Hd).
  exists out, kpis, table, risks, digest.
  repeat (split; [assumption |]).
  intros Hempty.
  assert (He : df_empty out = true) by (unfold df_empty; now rewrite Hempty).
  unfold compute_kpis in Hk. unfold compute_risk_factors in Hr.
  rewrite He in Hk, Hr. injection Hk as <-. injection Hr as <-.
  repeat split.
Qed.

Lemma filtered_view_aggregates_witness :
  exists out kpis,
    apply_filters sample_table ["Z"] [] = Some out
    /\ compute_kpis out = Some kpis
    /\ get_default "num_instructors" (PInt 0) kpis = PInt 0.
Proof.
  destruct (filtered_view_aggregates sample_table "overall" ["Z"] [])
    as (out & kpis & table & risks & digest & Hout & Hk & _ & _ & _ & H).
  - vm_compute. reflexivity.
  - exists out, kpis. split; [exact Hout |]. split; [exact Hk |].
    apply H. vm_compute in Hout. injection Hout as <-. reflexivity.
Defined.

(* ------------------------------------------------------------------ *)
(** ** The status distribution *)

Lemma indicator_sum (x : scalar) (ks : list scalar) :
  NoDup ks ->
  list_sum (map (fun k => if scalar_eqb k x then 1 else 0) ks)
  = if existsb (fun k => scalar_eqb k x) ks then 1 else 0.
Proof.
  unfold list_sum.
  induction 1 as [| k ks Hk Hnd IH]; cbn [map fold_right existsb]; [reflexivity |].
  rewrite IH. destruct (scalar_eqb k x) eqn:E; cbn [orb Nat.add]; [| reflexivity].
  apply scalar_eqb_eq in E. subst k.
  destruct (existsb (fun k => scalar_eqb k x) ks) eqn:Ex; [| reflexivity].
  apply existsb_exists in Ex. destruct Ex as (y & Hy & Ey).
  apply scalar_eqb_eq in Ey. subst y. contradiction.
Qed.

Lemma list_sum_add {A} (f g : A -> nat) (l : list A) :
  list_sum (map (fun x => f x + g x) l) = list_sum (map f l) + list_sum (map g l).
Proof.
  unfold list_sum.
  induction l as [| x l IH]; cbn [map fold_right]; [reflexivity | rewrite IH; lia].
Qed.

(** Counting cell by cell and counting value by value give the same
    total. *)
Lemma count_partition (ks col : list scalar) :
  NoDup ks ->
  list_sum (map (fun k => count_of k col) ks)
  = length (filter (fun x => existsb (fun k => scalar_eqb k x) ks) col).
Proof.
  intros Hnd. unfold count_of. induction col as [| x col IH]; cbn [filter].
  - unfold list_sum. cbn [length]. clear Hnd.
    induction ks; cbn [map fold_right Nat.add]; [reflexivity | assumption].
  - rewrite (map_ext _ (fun k => (if scalar_eqb k x then 1 else 0)
                                 + length (filter (scalar_eqb k) col)))
      by (intros k; now destruct (scalar_eqb k x)).
    rewrite (list_sum_add (fun k => if scalar_eqb k x then 1 else 0)
                          (fun k => length (filter (scalar_eqb k) col))).
    rewrite IH, (indicator_sum x ks Hnd).
    now destruct (existsb (fun k => scalar_eqb k x) ks).
Qed.

Lemma Zsum_of_nat {A} (f : A -> nat) (l : list A) :
  Zsum (map (fun x => Z.of_nat (f x)) l) = Z.of_nat (list_sum (map f l)).
Proof.
  unfold Zsum, list_sum.
  induction l as [| x l IH]; cbn [map fold_right]; [reflexivity |].
  rewrite IH. lia.
Qed.

Lemma Zsum_perm (l l' : list Z) : Permutation l l' -> Zsum l = Zsum l'.
Proof.
  induction 1; cbn; unfold Zsum in *; cbn; lia.
Qed.

Lemma value_counts_perm (col : list scalar) :
  Permutation (value_counts col)
    (map (fun k => (k, Z.of_nat (count_of k col)))
         (unique scalar_eqb (filter notna col))).
Proof.
  unfold value_counts. apply sort_by_perm.
Qed.

Lemma value_counts_total (col : list scalar) :
  Zsum (map snd (value_counts col)) = Z.of_nat (length (filter notna col)).
Proof.
  rewrite (Zsum_perm _ _ (Permutation_map snd (value_counts_perm col))).
  rewrite map_map. cbn [snd].
  rewrite Zsum_of_nat, count_partition by apply (unique_NoDup _ scalar_eqb_eq).
  f_equal. f_equal. apply filter_ext_in. intros x Hx.
  destruct (notna x) eqn:N.
  - apply existsb_exists. exists x. split; [| apply scalar_eqb_refl].
    apply (unique_In _ scalar_eqb_eq), filter_In. now split.
  - destruct (existsb _ _) eqn:E; [| reflexivity].
    apply existsb_exists in E. destruct E as (k & Hk & Ek).
    apply scalar_eqb_eq in Ek. subst k.
    apply (unique_In _ scalar_eqb_eq), filter_In in Hk. destruct Hk as (_ & Hk).
    congruence.
Qed.

Lemma count_leb_total (a b : scalar * Z) :
  (snd b <=? snd a)%Z = true \/ (snd a <=? snd b)%Z = true.
Proof.
  rewrite !Z.leb_le. lia.
Qed.

Lemma sorted_weaken {A} (R S : A -> A -> Prop) (l : list A) :
  (forall a b, R a b -> S a b) -> StronglySorted R l -> StronglySorted S l.
Proof.
  intros H. induction 1 as [| x l Hs IH Hx]; constructor; [assumption |].
  eapply Forall_impl; [| exact Hx]. intros b. apply H.
Qed.

(** X23.  The status distribution of the digest lists every status value
    that occurs in the table once, with the number of rows that have it,
    larger numbers first; empty status cells are left out, so the numbers add
    up to the rows whose status is not empty. *)
Theorem status_distribution_counts (df : DataFrame) (context : string) :
  canonical df -> df_empty df = false ->
  exists digest status dist,
    build_ai_summary df context = Some digest
    /\ df_getitem df "STATUS" = Some status
    /\ Dict.get "status_distribution" digest = Some (PCounts dist)
    /\ NoDup (map fst dist)
    /\ (forall v n, In (v, n) dist <->
          In v status /\ v <> SNaN /\ n = Z.of_nat (count_of v status))
    /\ Zsum (map snd dist) = Z.of_nat (length (filter notna status))
    /\ StronglySorted (fun a b => (snd b <= snd a)%Z) dist.
Proof.
  intros Hc Hne.
  destruct (canonical_getitem df "CAMPUS" Hc) as (campus & Hcampus & _);
    [cbn; tauto |].
  destruct (canonical_getitem df "INSTRUCTOR" Hc) as (instructor & Hinst & _);
    [cbn; tauto |].
  destruct (canonical_getitem df "STATUS" Hc) as (status & Hstatus & _);
    [cbn; tauto |].
  destruct (canonical_getitem df "SECTION" Hc) as (section & Hsection & _);
    [cbn; tauto |].
  destruct (canonical_position df "SECTION" Hc) as (j & Psec); [cbn; tauto |].
  destruct (canonical_scores df Hc) as (scores & Hscores & _).
  eexists. exists status, (value_counts status).
  split.
  { unfold build_ai_summary.
    rewrite Hne, Hscores, Hstatus, Hinst, Hcampus, (position_has_column _ _ _ Psec),
      Hsection.
    reflexivity. }
  split; [exact Hstatus |]. split; [reflexivity |].
  pose proof (value_counts_perm status) as Hperm.
  split; [| split; [| split]].
  - eapply Permutation_NoDup; [symmetry; apply (Permutation_map fst Hperm) |].
    rewrite map_map. cbn [fst]. rewrite map_id.
    apply (unique_NoDup _ scalar_eqb_eq).
  - intros v n. split.
    + intros H. apply (Permutation_in _ Hperm), in_map_iff in H.
      destruct H as (k & [= <- <-] & Hk).
      apply (unique_In _ scalar_eqb_eq), filter_In in Hk. destruct Hk as (Hk & Hn).
      apply notna_spec in Hn. tauto.
    + intros (Hv & Hn & ->). apply (Permutation_in _ (Permutation_sym Hperm)).
      apply in_map_iff. exists v. split; [reflexivity |].
      apply (unique_In _ scalar_eqb_eq), filter_In. split; [exact Hv |].
      now apply notna_spec.
  - apply value_counts_total.
  - unfold value_counts.
    eapply sorted_weaken;
      [| apply (sort_by_sorted (fun a b : scalar * Z => Z.leb (snd b) (snd a)))].
    + intros a b H. now apply Z.leb_le.
    + intros a b. apply count_leb_total.
    + intros a b c H1 H2. apply Z.leb_le in H1, H2. apply Z.leb_le. lia.
Qed.

Lemma status_distribution_counts_witness :
  exists digest dist,
    build_ai_summary sample_table "overall" = Some digest
    /\ Dict.get "status_distribution" digest = Some (PCounts dist)
    /\ Zsum (map snd dist) = 5%Z.
Proof.
  destruct (status_distribution_counts sample_table "overall")
    as (digest & status & dist & Hd & Hs & Hg & _ & _ & Hsum & _).
  - vm_compute. reflexivity.
  - vm_compute. reflexivity.
  - exists digest, dist. split; [exact Hd |]. split; [exact Hg |].
    vm_compute in Hs. injection Hs as <-. exact Hsum.
Defined.
